(** * Democracy Clock V4, step 2: a shallow embedding of the pipeline core

  The development follows the Python sources module by module:

  - [PyStr], [PyDate], [PyRe]: the fragments of Python's [str], [datetime.date]
    and [re] that the pipeline relies on;
  - [Helper]        : step2_helper_v4.py        (the date-window resolver);
  - [Writer]        : step2_writeweekevents_v4.py (category rank, week
                      bucketing, master sort);
  - [Extractor]     : step2_extractor_v4.py     (compliance scan, single retry);
  - [BuilderHelper] : step2_builder_helper_v4.py (canonical block parser);
  - [Builder]       : step2_builddemocracydocket_v4.py (per-item loop);
  - [Docket]        : step2_getdemocracydocket_v4.py (window filter, dedupe).

  Definitions come first, the theorems about them afterwards. *)

From Stdlib Require Import ZArith NArith Lia Ascii String DecimalString
  Sorting.Sorted Sorting.Permutation.
From stdpp Require Import base option list gmap strings sorting.

Local Open Scope Z_scope.

(** ** Python strings *)

(** A Python [str] is a sequence of Unicode code points. *)
Abbreviation char := N (only parsing).
Abbreviation str := (list N) (only parsing).

Module PyStr.

(** An ASCII literal of the source, as a [str]. *)
Definition lit (x : string) : str :=
  List.map N_of_ascii (list_ascii_of_string x).

Definition EM_DASH : char := 8212%N.      (* U+2014 *)
Definition EN_DASH : char := 8211%N.      (* U+2013 *)
Definition GE_SIGN : char := 8805%N.      (* U+2265 *)
Definition NL : char := 10%N.

Definition in_range (lo hi c : char) : bool := ((lo <=? c) && (c <=? hi))%N.

(** [str.isspace] on one code point, which is also the class [\s] of [re]
    on [str] patterns. *)
Definition is_space (c : char) : bool :=
  in_range 9 13 c || in_range 28 32 c || (c =? 133)%N || (c =? 160)%N
  || (c =? 5760)%N || in_range 8192 8202 c || (c =? 8232)%N || (c =? 8233)%N
  || (c =? 8239)%N || (c =? 8287)%N || (c =? 12288)%N.

(** The line boundaries of [str.splitlines]. *)
Definition is_linebreak (c : char) : bool :=
  in_range 10 13 c || in_range 28 30 c || (c =? 133)%N
  || (c =? 8232)%N || (c =? 8233)%N.

Definition ascii_digit (c : char) : bool := in_range 48 57 c.

(** Truthiness of a string, and of an optional string ([None] and [""] are
    both falsy). *)
Definition nonempty (x : str) : bool :=
  match x with [] => false | _ :: _ => true end.

Definition truthy (x : option str) : bool :=
  match x with Some (_ :: _) => true | _ => false end.

(** [a or b] on strings. *)
Definition por (a b : str) : str := if nonempty a then a else b.

(** [d.get(k) or ""] when the values are strings. *)
Definition oget (x : option str) : str := default [] x.

Fixpoint drop_while (p : char → bool) (x : str) : str :=
  match x with
  | c :: x' => if p c then drop_while p x' else x
  | [] => []
  end.

Fixpoint take_while (p : char → bool) (x : str) : str :=
  match x with
  | c :: x' => if p c then c :: take_while p x' else []
  | [] => []
  end.

Definition lstrip (x : str) : str := drop_while is_space x.
Definition rstrip (x : str) : str := rev (drop_while is_space (rev x)).
Definition strip (x : str) : str := rstrip (lstrip x).

(** [x.strip(c)] for a one-character argument. *)
Definition strip_char (c : char) (x : str) : str :=
  rev (drop_while (N.eqb c) (rev (drop_while (N.eqb c) x))).

Fixpoint startswith (p x : str) : bool :=
  match p, x with
  | [], _ => true
  | a :: p', b :: x' => (a =? b)%N && startswith p' x'
  | _ :: _, [] => false
  end.

Definition endswith (p x : str) : bool := startswith (rev p) (rev x).

(** [sub in x]. *)
Fixpoint contains (sub x : str) : bool :=
  startswith sub x ||
  match x with
  | _ :: x' => contains sub x'
  | [] => false
  end.

(** [x[a:b]] for [0 <= a <= b]. *)
Definition slice (a b : nat) (x : str) : str := take (b - a) (drop a x).

(** [x.replace(a, b)] for one-character [a] and [b]. *)
Definition replace_char (a b : char) (x : str) : str :=
  List.map (λ c, if (c =? a)%N then b else c) x.

(** [str.splitlines()]: cut at every line boundary, [\r\n] counting as
    one; no empty last line after a final boundary. *)
Fixpoint splitlines_go (cur : str) (x : str) : list str :=
  match x with
  | [] => match cur with [] => [] | _ => [rev cur] end
  | c :: x' =>
      if is_linebreak c then
        match c, x' with
        | 13%N, 10%N :: x'' => rev cur :: splitlines_go [] x''
        | _, _ => rev cur :: splitlines_go [] x'
        end
      else splitlines_go (c :: cur) x'
  end.

Definition splitlines (x : str) : list str := splitlines_go [] x.

(** [re.split] on a one-character class: the pieces between the
    separators, empty ones included. *)
Fixpoint split_on_go (p : char → bool) (cur : str) (x : str) : list str :=
  match x with
  | [] => [rev cur]
  | c :: x' =>
      if p c then rev cur :: split_on_go p [] x'
      else split_on_go p (c :: cur) x'
  end.

Definition split_on (p : char → bool) (x : str) : list str :=
  split_on_go p [] x.

(** Code-point order on strings, the order of [<] on [str]. *)
Fixpoint compare (x y : str) : comparison :=
  match x, y with
  | [], [] => Eq
  | [], _ :: _ => Lt
  | _ :: _, [] => Gt
  | a :: x', b :: y' =>
      match (a ?= b)%N with
      | Eq => compare x' y'
      | o => o
      end
  end.

(** [x == y]. *)
Fixpoint eqb (x y : str) : bool :=
  match x, y with
  | [], [] => true
  | a :: x', b :: y' => (a =? b)%N && eqb x' y'
  | _, _ => false
  end.

(** [str(n)] for an integer. *)
Definition of_Z (n : Z) : str := lit (NilEmpty.string_of_int (Z.to_int n)).

(** [sep.join(parts)]. *)
Fixpoint join (sep : str) (parts : list str) : str :=
  match parts with
  | [] => []
  | [p] => p
  | p :: rest => p ++ sep ++ join sep rest
  end.

End PyStr.

(** ** Exceptions and results *)

Inductive exn : Type :=
| ValueError (msg : str)
| OverflowError
| RuntimeError (msg : str)
| OtherError (msg : str).

(** [str(e)] of an exception, as used by the f-strings of the builders. *)
Definition exn_message (e : exn) : str :=
match e with
| ValueError m | RuntimeError m | OtherError m => m
| OverflowError => PyStr.lit "date value out of range"
end.

Inductive result (A : Type) : Type :=
| Ok (a : A)
| Raise (e : exn).
Arguments Ok {A} a.
Arguments Raise {A} e.

Definition is_ok {A} (r : result A) : bool :=
match r with Ok _ => true | Raise _ => false end.

Definition is_value_error {A} (r : result A) : bool :=
match r with Raise (ValueError _) => true | _ => false end.

Global Instance result_ret : MRet result := λ A a, Ok a.
Global Instance result_bind : MBind result := λ A B f r,
match r with
| Ok a => f a
| Raise e => Raise e
end.

(** ** Dates *)

Module PyDate.

(** A [datetime.date], by its proleptic Gregorian ordinal
    ([date.toordinal()]): dates are compared and shifted through it. *)
Definition date : Type := Z.

Definition MINORDINAL : Z := 1.
Definition MAXORDINAL : Z := 3652059.     (* date.max = 9999-12-31 *)
Definition date_max : date := MAXORDINAL.

Definition valid (d : date) : Prop := MINORDINAL <= d <= MAXORDINAL.

Definition is_leap (y : Z) : bool :=
  (y mod 4 =? 0) && (negb (y mod 100 =? 0) || (y mod 400 =? 0)).

Definition days_before_year (y : Z) : Z :=
  let y' := y - 1 in y' * 365 + y' / 4 - y' / 100 + y' / 400.

Definition days_in_month (y m : Z) : Z :=
  if m =? 2 then (if is_leap y then 29 else 28)
  else if (m =? 4) || (m =? 6) || (m =? 9) || (m =? 11) then 30
  else 31.

Fixpoint days_before_month_go (y : Z) (k : nat) : Z :=
  match k with
  | O => 0
  | S k' => days_before_month_go y k' + days_in_month y (Z.of_nat k)
  end.

Definition days_before_month (y m : Z) : Z :=
  days_before_month_go y (Z.to_nat (m - 1)).

Definition ymd2ord (y m d : Z) : Z :=
  days_before_year y + days_before_month y m + d.

(** [date(y, m, d)]; [None] stands for the [ValueError] of an invalid
    calendar date. *)
Definition mkdate (y m d : Z) : option date :=
  if (1 <=? y) && (y <=? 9999) && (1 <=? m) && (m <=? 12)
     && (1 <=? d) && (d <=? days_in_month y m)
  then Some (ymd2ord y m d) else None.

(** [d + timedelta(days=n)]: [OverflowError] when the [timedelta] cannot
    be built or the shifted date leaves [date.min .. date.max]. *)
Definition add_days (d : date) (n : Z) : result date :=
  if (Z.abs n <=? 999999999) && (MINORDINAL <=? d + n) && (d + n <=? MAXORDINAL)
  then Ok (d + n) else Raise OverflowError.

(** [(d1 - d2).days]. *)
Definition days_between (d1 d2 : date) : Z := d1 - d2.


End PyDate.
Import PyDate.

(** ** The runtime tables the code takes from Python *)

(** What the sources use from Python's Unicode database and [datetime]
  parsers, kept abstract: everything below holds for every choice of
  them. *)
Class PyRuntime := {
(** the decimal digits of [\d] outside ASCII *)
uni_decimal : char → bool;
(** [str.lower] *)
str_lower : str → str;
(** [date.fromisoformat] *)
date_fromisoformat : str → result date;
(** [datetime.strptime(s, "%Y-%m-%d").date()], [None] when it raises *)
strptime_ymd : str → option date;
}.

(** ** step2_helper_v4.py *)

Module Helper.
Section Helper.
Context {rt : PyRuntime}.
Import PyStr.

Definition INAUGURATION_DAY : date := ymd2ord 2025 1 20.   (* Monday *)
Definition FIRST_FRIDAY : date := ymd2ord 2025 1 24.       (* Friday of week 1 *)
Definition FIRST_SATURDAY : date := ymd2ord 2025 1 25.     (* start of week 2 *)

(** Truthiness of an optional integer argument. *)
Definition truthy_int (n : option Z) : bool :=
  match n with Some k => negb (k =? 0) | None => false end.

Definition resolve_date_window (start end_ : option str) (weeks week : option Z)
  : result (date * date) :=
  if truthy start then
    (* Group A: explicit start *)
    start_d ← date_fromisoformat (oget start);
    if truthy end_ then
      end_d ← date_fromisoformat (oget end_);
      Ok (start_d, end_d)
    else if truthy_int weeks then
      let w := default 0 weeks in
      if w <? 1 then
        Raise (ValueError (lit "--weeks must be " ++ [GE_SIGN] ++ lit " 1"))
      else
        end_d ← add_days start_d (7 * w - 1);
        Ok (start_d, end_d)
    else
      Raise (ValueError (lit "Must specify either --end or --weeks with --start"))
  else if truthy_int week then
    (* Group B: week numbering *)
    let k := default 0 week in
    if k <? 1 then
      Raise (ValueError (lit "--week must be " ++ [GE_SIGN] ++ lit " 1"))
    else
      '(start_d, end_d) ←
        (if k =? 1 then Ok (INAUGURATION_DAY, FIRST_FRIDAY)
         else
           start_d ← add_days FIRST_SATURDAY ((k - 2) * 7);
           end_d ← add_days start_d 6;
           Ok (start_d, end_d));
      if truthy_int weeks && (1 <? default 0 weeks) then
        end_d' ← add_days end_d (7 * (default 0 weeks - 1));
        Ok (start_d, end_d')
      else Ok (start_d, end_d)
  else
    Raise (ValueError (lit
      "Must specify either (--start and --end|--weeks) or (--week [--weeks])")).



End Helper.
End Helper.

(** ** The fragment of [re] the patterns of the pipeline use *)

Module PyRe.
Import PyStr.

(** Patterns over one-character classes. Repetition only ever applies to a
    class in the sources ([\s*], [\s+], [.+], [\S+], [\d+]). *)
Inductive re : Type :=
| Eps
| Chr (p : char → bool)
| Seq (r1 r2 : re)
| Opt (r : re)
| Star (p : char → bool)
| Bol
| Eol
| Grp (n : nat) (r : re).

Record flags := { multiline : bool; ignorecase : bool }.

Definition NOFLAGS : flags := {| multiline := false; ignorecase := false |}.
Definition M : flags := {| multiline := true; ignorecase := false |}.
Definition I : flags := {| multiline := false; ignorecase := true |}.

Definition Plus (p : char → bool) : re := Seq (Chr p) (Star p).

Fixpoint seqs (rs : list re) : re :=
  match rs with
  | [] => Eps
  | [r] => r
  | r :: rs' => Seq r (seqs rs')
  end.

(** [.] without DOTALL. *)
Definition dot (c : char) : bool := negb (c =? NL)%N.

Definition not_space (c : char) : bool := negb (is_space c).

(** [\d] on a [str] pattern: the ASCII digits and the other decimal digits
    of the Unicode database. *)
Definition is_digit {rt : PyRuntime} (c : char) : bool :=
  ascii_digit c || ((128 <=? c)%N && uni_decimal c).

(** The characters an ASCII pattern character matches under IGNORECASE:
    both cases, and the three letters with a further Unicode equivalent
    (dotted and dotless i, the Kelvin sign, long s). *)
Definition ci_chr (a c : char) : bool :=
  (c =? a)%N
  || (in_range 97 122 a && (c =? a - 32)%N)
  || (in_range 65 90 a && (c =? a + 32)%N)
  || (((a =? 105) || (a =? 73))%N && ((c =? 304) || (c =? 305))%N)
  || (((a =? 107) || (a =? 75))%N && (c =? 8490)%N)
  || (((a =? 115) || (a =? 83))%N && (c =? 383)%N).

Definition chr_of (f : flags) (a : char) : char → bool :=
  if ignorecase f then ci_chr a else N.eqb a.

(** A literal string of the pattern. *)
Fixpoint Str (f : flags) (x : str) : re :=
  match x with
  | [] => Eps
  | a :: x' => Seq (Chr (chr_of f a)) (Str f x')
  end.

(** Captures, most recent first. *)
Definition caps : Type := list (nat * str).

Fixpoint group (n : nat) (cs : caps) : str :=
  match cs with
  | [] => []
  | (k, v) :: cs' => if (k =? n)%nat then v else group n cs'
  end.

(** What is left to match: the character before the position, the text from
    the position on, the captures so far. *)
Definition kont : Type := option char → str → caps → option (str * caps).

Definition accept : kont := λ _ x cs, Some (x, cs).

Definition at_bol (f : flags) (prev : option char) : bool :=
  match prev with
  | None => true
  | Some c => multiline f && (c =? NL)%N
  end.

Definition at_eol (f : flags) (x : str) : bool :=
  match x with
  | [] => true
  | c :: x' => (c =? NL)%N && (multiline f || negb (nonempty x'))
  end.

(** Greedy [p*]: the longest run first, then shorter ones. *)
Fixpoint star_m (p : char → bool) (k : kont)
    (prev : option char) (x : str) (cs : caps) : option (str * caps) :=
  match x with
  | c :: x' =>
      if p c then
        match star_m p k (Some c) x' cs with
        | Some res => Some res
        | None => k prev x cs
        end
      else k prev x cs
  | [] => k prev x cs
  end.

(** The backtracking matcher: the first way to match, alternatives tried in
    the order of [re] (greedy first). *)
Fixpoint m (f : flags) (r : re) (k : kont)
    (prev : option char) (x : str) (cs : caps) : option (str * caps) :=
  match r with
  | Eps => k prev x cs
  | Chr p =>
      match x with
      | c :: x' => if p c then k (Some c) x' cs else None
      | [] => None
      end
  | Seq r1 r2 => m f r1 (m f r2 k) prev x cs
  | Opt r1 =>
      match m f r1 k prev x cs with
      | Some res => Some res
      | None => k prev x cs
      end
  | Star p => star_m p k prev x cs
  | Bol => if at_bol f prev then k prev x cs else None
  | Eol => if at_eol f x then k prev x cs else None
  | Grp n r1 =>
      m f r1 (λ prev' x' cs',
               k prev' x' ((n, take (length x - length x') x) :: cs'))
        prev x cs
  end.

(** A match object: [m.start()], [m.end()] and the groups. *)
Record rmatch := { m_start : nat; m_end : nat; m_caps : caps }.

(** [pattern.match(x)]: a match at the start of [x] only. *)
Definition re_match (f : flags) (r : re) (x : str) : option rmatch :=
  match m f r accept None x [] with
  | Some (rest, cs) =>
      Some {| m_start := 0; m_end := length x - length rest; m_caps := cs |}
  | None => None
  end.

(** [pattern.finditer(x)]: the leftmost match, then the leftmost one from
    its end on, and so on. [skip] counts the positions inside the last
    match that are still to be passed over. *)
Fixpoint finditer_go (f : flags) (r : re) (pos skip : nat)
    (prev : option char) (x : str) {struct x} : list rmatch :=
  match skip with
  | S skip' =>
      match x with
      | c :: x' => finditer_go f r (S pos) skip' (Some c) x'
      | [] => []
      end
  | O =>
      match m f r accept prev x [] with
      | Some (rest, cs) =>
          let n := (length x - length rest)%nat in
          {| m_start := pos; m_end := pos + n; m_caps := cs |} ::
          match x with
          | c :: x' => finditer_go f r (S pos) (n - 1) (Some c) x'
          | [] => []
          end
      | None =>
          match x with
          | c :: x' => finditer_go f r (S pos) 0 (Some c) x'
          | [] => []
          end
      end
  end.

Definition finditer (f : flags) (r : re) (x : str) : list rmatch :=
  finditer_go f r 0 0 None x.

(** [pattern.search(x)]. *)
Definition search (f : flags) (r : re) (x : str) : option rmatch :=
  head (finditer f r x).

(** [len(pattern.findall(x))]. *)
Definition count (f : flags) (r : re) (x : str) : nat :=
  length (finditer f r x).

End PyRe.

(** ** step2_writeweekevents_v4.py *)

Module Writer.
Section Writer.
Context {rt : PyRuntime}.
Import PyStr.

Definition CATEGORY_ORDER : list str := [
  lit "Executive Actions & Orders";
  lit "Legislative & Oversight Activity";
  lit "Judicial Developments";
  lit "Law Enforcement & Surveillance";
  lit "Elections & Representation";
  lit "Civil Society & Protest";
  lit "Information & Media Control";
  lit "Economic & Regulatory Power";
  lit "Appointments & Patronage";
  lit "Transparency & Records";
  lit "International Relations";
  lit "Civil" ++ [EN_DASH] ++ lit "Military Relations & State Violence"
].

(** [xs.index(x)], [None] for its [ValueError]. *)
Fixpoint index_of (x : str) (xs : list str) : option nat :=
  match xs with
  | [] => None
  | y :: xs' => if eqb x y then Some O else S <$> index_of x xs'
  end.

Definition _cat_rank (cat : str) : nat * str :=
  if negb (nonempty cat) then (length CATEGORY_ORDER + 1, [])%nat
  else
    match index_of cat CATEGORY_ORDER with
    | Some i => (i, cat)
    | None => (length CATEGORY_ORDER, cat)   (* unknowns just before blank *)
    end.

Definition _ANCHOR_W1_START : date := ymd2ord 2025 1 20.
Definition _ANCHOR_W1_END : date := ymd2ord 2025 1 24.
Definition _ANCHOR_W2_START : date := ymd2ord 2025 1 25.

Definition dc_week_for (d : date) : result (option (Z * date * date)) :=
  if d <? _ANCHOR_W1_START then Ok None
  else if d <=? _ANCHOR_W1_END then
    Ok (Some (1, _ANCHOR_W1_START, _ANCHOR_W1_END))
  else
    let delta_days := days_between d _ANCHOR_W2_START in
    let week_offset := delta_days / 7 in
    let week_num := 2 + week_offset in
    start ← add_days _ANCHOR_W2_START (7 * week_offset);
    end_ ← add_days start 6;
    Ok (Some (week_num, start, end_)).

Record EventRow := {
  source_key : str;
  date_iso : str;
  date_obj : option date;
  category : str;
  title : str;
  source_label : str;
  url : str;
  summary : str;
  why : str;
  attacks : list str;
  origin_file : str;
  origin_index : nat;
}.

(** The tuple [sort_key] returns. *)
Definition key : Type := date * nat * str * str.

Definition sort_key (ev : EventRow) : key :=
  let dkey := default date_max (date_obj ev) in
  let cat_rank := _cat_rank (category ev) in
  (dkey, cat_rank.1, str_lower (source_key ev), str_lower (title ev)).

(** [<] on the key tuples: lexicographic, strings by code points. *)
Definition key_lt (a b : key) : bool :=
  let '(d1, c1, s1, t1) := a in
  let '(d2, c2, s2, t2) := b in
  if d1 <? d2 then true else if d2 <? d1 then false
  else if (c1 <? c2)%nat then true else if (c2 <? c1)%nat then false
  else match compare s1 s2 with
       | Lt => true
       | Gt => false
       | Eq => match compare t1 t2 with Lt => true | _ => false end
       end.

(** [list.sort(key=...)] is a stable sort that only asks [<] of the keys;
    the stable insertion sort is the canonical such sort. *)
Fixpoint insert_by {A} (lt : A → A → bool) (x : A) (l : list A) : list A :=
  match l with
  | [] => [x]
  | y :: l' => if lt y x then y :: insert_by lt x l' else x :: l
  end.

Definition sort_by {A} (lt : A → A → bool) (l : list A) : list A :=
  foldr (insert_by lt) [] l.

(** PASS B of [main]: [all_rows.sort(key=sort_key)]. *)
Definition sort_rows (all_rows : list EventRow) : list EventRow :=
  sort_by (λ a b, key_lt (sort_key a) (sort_key b)) all_rows.

End Writer.
End Writer.

(** ** step2_extractor_v4.py *)

Module Extractor.
Section Extractor.
Context {rt : PyRuntime}.
Import PyStr PyRe.

(** [\d{4}-\d{2}-\d{2}] *)
Definition ISO_DATE : re :=
  seqs [Chr is_digit; Chr is_digit; Chr is_digit; Chr is_digit; Chr (N.eqb 45);
        Chr is_digit; Chr is_digit; Chr (N.eqb 45); Chr is_digit; Chr is_digit].

(** The pattern [^<label>\s*.+$] of the scan, as in [^Category:\s*.+$]. *)
Definition label_line (label : string) : re :=
  seqs [Bol; Str M (lit label); Star is_space; Plus dot; Eol].

(** The pattern [Total events found:\s*\[\d+\]]. *)
Definition TOTAL_RE : re :=
  seqs [Str NOFLAGS (lit "Total events found:"); Star is_space;
        Chr (N.eqb 91); Plus is_digit; Chr (N.eqb 93)].

(** The pattern [^\s*\d{4}-\d{2}-\d{2}\s+—\s+.+$], re.M. *)
Definition _EVENT_TITLE_RE : re :=
  seqs [Bol; Star is_space; ISO_DATE; Plus is_space; Chr (N.eqb EM_DASH);
        Plus is_space; Plus dot; Eol].

(** The dictionary [_preparse_compliance_scan] returns. *)
Record scan := {
  has_footer_end_of_log : bool;
  has_total_events : bool;
  count_category_lines : nat;
  count_why_lines : nat;
  count_attacks_lines : nat;
  detected_event_blocks : nat;
}.

Definition _preparse_compliance_scan (text : str) : scan :=
  if negb (nonempty text) then
    {| has_footer_end_of_log := false; has_total_events := false;
       count_category_lines := 0; count_why_lines := 0;
       count_attacks_lines := 0; detected_event_blocks := 0 |}
  else
    {| has_footer_end_of_log := contains (lit "[END OF LOG]") text;
       has_total_events := bool_decide (is_Some (search NOFLAGS TOTAL_RE text));
       count_category_lines := count M (label_line "Category:") text;
       count_why_lines := count M (label_line "Why Relevant:") text;
       count_attacks_lines := count M (label_line "Attacks:") text;
       detected_event_blocks := count M _EVENT_TITLE_RE text |}.

Definition _needs_schema_retry (out_text : str) : bool :=
  if negb (nonempty out_text) || negb (nonempty (strip out_text)) then true
  else
    let comp := _preparse_compliance_scan out_text in
    if negb (has_footer_end_of_log comp) then true
    else if (count_category_lines comp =? 0)%nat then true
    else if (count_why_lines comp =? 0)%nat then true
    else if (count_attacks_lines comp =? 0)%nat then true
    else false.

(** One chat message, [{"role": ..., "content": ...}]. *)
Record message := { role : str; content : str }.

Definition retry_user : str :=
  lit "Your previous output failed the Canonical Extraction Protocol." ++ [NL] ++
  lit "Re-emit the ENTIRE output now EXACTLY per schema with:" ++ [NL] ++
  lit "1) BEGIN LOG / END OF LOG delimiters" ++ [NL] ++
  lit "2) For every event: a 'Category:' line and a 'Why Relevant:' line" ++ [NL] ++
  lit "3) Plain TEXT only (no JSON, no code fences, no commentary)" ++ [NL] ++
  lit "Do not summarize. Do not explain. Output the corrected log only.".

Definition _retry_append_instruction (messages : list message) : list message :=
  messages ++ [{| role := lit "user"; content := retry_user |}].

Definition MAX_CHARS : nat := Z.to_nat 200000.

(** [a or b] on optional strings. *)
Definition oor (a b : option str) : option str := if truthy a then a else b.

Definition build_messages (article_url : str) (article_text : str)
    (system_prompt article_title article_date : option str) : list message :=
  let body := take MAX_CHARS article_text in
  let system_msg := strip (oget system_prompt) in
  let system_msg :=
    if negb (nonempty system_msg) then
      lit "You will extract democracy-affecting events from the provided ARTICLE_TEXT. Follow the user message's explicit schema exactly."
    else system_msg in
  let header_lines :=
    (if truthy article_date then [lit "ARTICLE_DATE: " ++ oget article_date] else [])
    ++ (if truthy article_title then [lit "ARTICLE_TITLE: " ++ oget article_title] else [])
    ++ [lit "ARTICLE_URL: " ++ article_url] in
  let header := join [NL] header_lines in
  let format_reminder :=
    lit "FORMAT REMINDER:" ++ [NL] ++
    lit "Return plain TEXT using the exact schema in the Canonical Extraction Protocol." ++ [NL] ++
    lit "Do NOT use JSON, markdown code fences, or alternative formats." ++ [NL] in
  let user_msg :=
    header ++ [NL; NL] ++ format_reminder ++ [NL] ++ lit "ARTICLE_TEXT:" ++ [NL] ++ body in
  [ {| role := lit "system"; content := system_msg |};
    {| role := lit "user"; content := user_msg |} ].

(** *** The remote collaborators *)

(** What the completion service sends back: [choice.message.content] and
    [choice.finish_reason]. *)
Record response := { reply : option str; finish_reason : option str }.

(** The outside world of one run. The completion service answers its
    [n]-th request, or fails; [requests.get] gives a status code and a
    body, or fails; [readable_text] is the text BeautifulSoup selects from
    a page. The sampling parameters pass through unchanged and are left
    out of the requests. *)
Record world := {
  api_key : option str;
  completion : nat → list message → result response;
  requests_get : str → result (Z * str);
  readable_text : str → str;
}.

(** The requests sent to the completion service so far. *)
Definition trace : Type := list (list message).

(** Code that talks to the service: it may raise, and it extends the trace. *)
Definition io (A : Type) : Type := trace → result A * trace.

Definition io_ret {A} (a : A) : io A := λ tr, (Ok a, tr).

Definition io_bind {A B} (c : io A) (k : A → io B) : io B := λ tr,
  match c tr with
  | (Ok a, tr') => k a tr'
  | (Raise e, tr') => (Raise e, tr')
  end.

(** [try: c except Exception as e: h e] *)
Definition try_except {A} (c : io A) (h : exn → io A) : io A := λ tr,
  match c tr with
  | (Ok a, tr') => (Ok a, tr')
  | (Raise e, tr') => h e tr'
  end.

Definition call_openai (w : world) (messages : list message)
  : io (str * option str) := λ tr,
  if negb (truthy (api_key w)) then
    (Raise (RuntimeError (lit "OPENAI_API_KEY is not set.")), tr)
  else
    match completion w (length tr) messages with
    | Ok resp => (Ok (strip (oget (reply resp)), finish_reason resp), tr ++ [messages])
    | Raise e => (Raise e, tr ++ [messages])
    end.

Definition fetch_article_text (w : world) (url : str) : str * Z :=
  match requests_get w url with
  | Raise _ => ([], 0)
  | Ok (status, raw_html) =>
      if (status =? 200) && nonempty raw_html
      then (readable_text w raw_html, status)
      else ([], status)
  end.

(** Steps 3 to 5 of both extractors, which carry the same lines: call the
    service, decide on the retry, call it at most once more, and pick the
    reply to return. *)
Definition llm_with_schema_retry (w : world) (messages : list message) : io str :=
  io_bind (call_openai w messages) (λ '(out_text, finish_reason),
    let is_schema_fail := _needs_schema_retry out_text in
    let need_retry := eqb (strip out_text) (lit "RETRY_SCHEMA") || is_schema_fail in
    if need_retry then
      let messages_retry := _retry_append_instruction messages in
      io_bind (call_openai w messages_retry) (λ '(out_text_retry, finish_reason_retry),
        if negb (_needs_schema_retry out_text_retry)
        then io_ret (strip (strip out_text_retry))
        else io_ret (strip out_text))
    else io_ret (strip out_text)).

Definition fail_msg (url : str) (rc : Z) : str :=
  lit "(Fetch failed for " ++ url ++ lit " with RC=" ++ of_Z rc ++ lit ")".

Definition extract_events_from_url (w : world) (url : str)
    (system_prompt article_title article_date : option str) : io str :=
  let '(art_text, rc) := fetch_article_text w url in
  if negb (rc =? 200) || negb (nonempty (strip art_text)) then
    io_ret (fail_msg url rc)
  else
    let messages := build_messages url art_text system_prompt article_title article_date in
    llm_with_schema_retry w messages.

(** [(meta or {}).get(k)] *)
Definition meta_get (meta : option (gmap string str)) (k : string) : option str :=
  meta ≫= (λ d, d !! k).

Definition extract_events_from_text (w : world) (text : option str)
    (system_prompt : option str) (meta : option (gmap string str))
    (article_title article_date : option str) : io str :=
  if negb (nonempty (strip (oget text))) then
    io_ret (lit "(no text to extract)")
  else
    let url := por (oget (meta_get meta "url"))
                 (por (oget (meta_get meta "canonical_url")) (lit "(text source)")) in
    let a_title := oor article_title (meta_get meta "title") in
    let a_date := oor article_date (meta_get meta "post_date") in
    let messages := build_messages url (oget text) system_prompt a_title a_date in
    llm_with_schema_retry w messages.

End Extractor.
End Extractor.

(** ** step2_builder_helper_v4.py *)

Module BuilderHelper.
Section BuilderHelper.
Context {rt : PyRuntime}.
Import PyStr PyRe.

(** The header pattern, re.M: [^], an optional group [===\s*], the date
    [(\d{4}-\d{2}-\d{2})], [\s+], an em dash, [\s+], the title [(.+)], [$]. *)
Definition _HEADER_RE : re :=
  seqs [Bol; Opt (Seq (Str M (lit "===")) (Star is_space));
        Grp 1 Extractor.ISO_DATE; Plus is_space; Chr (N.eqb EM_DASH);
        Plus is_space; Grp 2 (Plus dot); Eol].

(** The attacks line, re.IGNORECASE: [^], an optional double quote,
    [attacks], an optional double quote, then [\s*:\s*(.+)$]. *)
Definition _ATK_RE : re :=
  seqs [Bol; Opt (Chr (N.eqb 34)); Str I (lit "attacks"); Opt (Chr (N.eqb 34));
        Star is_space; Chr (N.eqb 58); Star is_space; Grp 1 (Plus dot); Eol].

(** The pattern [(https?://\S+)]. *)
Definition URL_RE : re :=
  Grp 1 (seqs [Str NOFLAGS (lit "http"); Opt (Chr (N.eqb 115));
               Str NOFLAGS (lit "://"); Plus not_space]).

(** One parsed event, the dictionary appended to [events]. *)
Record event := {
  ev_date : str;
  ev_title : str;
  ev_url : str;
  ev_summary : str;
  ev_category : str;
  ev_why_relevant : str;
  ev_attacks : list str;
}.

(** The variables of the labelled-field loop. *)
Record fields := {
  f_summary : str;
  f_category : str;
  f_why : str;
  f_alt_source_line : str;
  f_attacks_line : str;
}.

Definition no_fields : fields :=
  {| f_summary := []; f_category := []; f_why := [];
     f_alt_source_line := []; f_attacks_line := [] |}.

(** [ln[len(label):].strip()] *)
Definition after (label : string) (ln : str) : str :=
  strip (drop (length (lit label)) ln).

(** One turn of [for j in range(i, len(lines))]. *)
Definition scan_line (acc : fields) (ln : str) : fields :=
  if startswith (lit "Summary:") ln then
    {| f_summary := after "Summary:" ln; f_category := f_category acc;
       f_why := f_why acc; f_alt_source_line := f_alt_source_line acc;
       f_attacks_line := f_attacks_line acc |}
  else if startswith (lit "Category:") ln then
    {| f_summary := f_summary acc; f_category := after "Category:" ln;
       f_why := f_why acc; f_alt_source_line := f_alt_source_line acc;
       f_attacks_line := f_attacks_line acc |}
  else if startswith (lit "Why Relevant:") ln then
    {| f_summary := f_summary acc; f_category := f_category acc;
       f_why := after "Why Relevant:" ln;
       f_alt_source_line := f_alt_source_line acc;
       f_attacks_line := f_attacks_line acc |}
  else if startswith (lit "Source:") ln then
    {| f_summary := f_summary acc; f_category := f_category acc;
       f_why := f_why acc; f_alt_source_line := after "Source:" ln;
       f_attacks_line := f_attacks_line acc |}
  else
    match re_match I _ATK_RE ln with
    | Some ma =>
        {| f_summary := f_summary acc; f_category := f_category acc;
           f_why := f_why acc; f_alt_source_line := f_alt_source_line acc;
           f_attacks_line := strip (group 1 (m_caps ma)) |}
    | None => acc
    end.

Definition scan_fields (lines : list str) : fields :=
  foldl scan_line no_fields lines.

(** The URL of the block before the fall-back to the entity's own: the
    direct URL line if there was one, else the first URL token of the
    [Source:] line. *)
Definition source_url (url alt_source_line : str) : str :=
  if negb (nonempty url) && nonempty alt_source_line then
    match search NOFLAGS URL_RE alt_source_line with
    | Some m2 => group 1 (m_caps m2)
    | None => url
    end
  else url.

(** One attack token: quotes stripped, lower-cased, spaces to underscores. *)
Definition attack_handle (part : str) : str :=
  strip_char 39 (strip_char 34 (strip part)).

Definition normalize_handle (h : str) : str :=
  replace_char 32 95 (str_lower h).

Definition is_sep (c : char) : bool := (c =? 59)%N || (c =? 44)%N.   (* [;,] *)

Definition attacks_list_of (attacks_line : str) : list str :=
  if nonempty attacks_line then
    let cleaned := strip attacks_line in
    let cleaned :=
      if startswith (lit "[") cleaned && endswith (lit "]") cleaned
      then strip (slice 1 (length cleaned - 1) cleaned)
      else cleaned in
    flat_map (λ part,
                let h := attack_handle part in
                if nonempty h then [normalize_handle h] else [])
             (split_on is_sep cleaned)
  else [].

Definition is_url_line (ln : str) : bool :=
  startswith (lit "http://") ln || startswith (lit "https://") ln.

(** The lines of a block: [block.splitlines()] without the blank lines,
    each right-stripped. *)
Definition block_lines (block : str) : list str :=
  List.map rstrip (List.filter (λ ln, nonempty (strip ln)) (splitlines block)).

(** From the header's groups and the lines of its block to the event: the
    optional direct URL line, the labelled fields, the URL fall-backs and the
    attack handles. No event for a block without lines. *)
Definition event_of_lines (cs : caps) (lines : list str) (article_url : str)
  : list event :=
  match lines with
  | [] => []
  | _ :: after_header =>
      let date_iso := strip (group 1 cs) in
      let title := strip (group 2 cs) in
      let '(url, field_lines) :=
        match after_header with
        | l1 :: rest => if is_url_line l1 then (strip l1, rest) else ([], after_header)
        | [] => ([], [])
        end in
      let fs := scan_fields field_lines in
      let url := source_url url (f_alt_source_line fs) in
      [ {| ev_date := date_iso; ev_title := title;
           ev_url := por url article_url;
           ev_summary := f_summary fs; ev_category := f_category fs;
           ev_why_relevant := f_why fs;
           ev_attacks := attacks_list_of (f_attacks_line fs) |} ]
  end.

(** The body of [for idx, m in enumerate(headers)]: the events the block of
    header [hm], which ends at [end_], adds. *)
Definition parse_block (text : str) (article_url : str) (hm : rmatch) (end_ : nat)
  : list event :=
  let block := strip (slice (m_start hm) end_ text) in
  event_of_lines (m_caps hm) (block_lines block) article_url.

Fixpoint parse_headers (text article_url : str) (headers : list rmatch)
  : list event :=
  match headers with
  | [] => []
  | hm :: rest =>
      let end_ := match rest with
                  | next :: _ => m_start next
                  | [] => length text
                  end in
      parse_block text article_url hm end_ ++ parse_headers text article_url rest
  end.

Definition _parse_llm_events_canonical (text : str) (article_url : str)
  : list event :=
  if negb (nonempty (strip text)) then []
  else parse_headers text article_url (finditer M _HEADER_RE text).

End BuilderHelper.
End BuilderHelper.

(** ** step2_builddemocracydocket_v4.py: the per-item loop of [run_builder] *)

Module Builder.
Section Builder.
Context {rt : PyRuntime}.
Import PyStr Extractor.

(** An entity of the filtered list, a JSON object with string values. *)
Abbreviation entity := (gmap string str) (only parsing).

Definition get (ent : entity) (k : string) : str := oget (ent !! k).

(** [idxs]: every index, or the in-range one-based [ids]; cut at [limit]. *)
Definition select_indices (n : nat) (ids : list Z) (limit : option nat) : list nat :=
  let idxs :=
    match ids with
    | [] => seq 0 n
    | _ => List.map (λ i, Z.to_nat (i - 1))
             (List.filter (λ i, (1 <=? i) && (i <=? Z.of_nat n)) ids)
    end in
  match limit with
  | Some (S l) => take (S l) idxs
  | _ => idxs
  end.

Definition synthetic_text (ent : entity) (start : str) : str :=
  let title := por (get ent "title") (lit "(untitled)") in
  let url := por (get ent "canonical_url") (por (get ent "url") (get ent "link")) in
  let date_s :=
    take 10 (por (get ent "date") (por (get ent "post_date") (get ent "published"))) in
  let summary := get ent "summary" in
  let content := por (get ent "content") (get ent "html") in
  take 10 (por date_s start) ++ lit " " ++ [EM_DASH] ++ lit " " ++ title ++ [NL] ++
  lit "Summary: " ++ take 2000 (strip (por summary content)) ++ [NL] ++
  lit "Source: " ++ por url (lit "(no url)") ++ [NL] ++
  lit "Category: Voting rights / Courts / Democracy protection" ++ [NL] ++
  lit "Why Relevant: Democracy Docket tracks litigation and actions that directly shape election rules and democratic access.".

(** One record of [results]. *)
Record item_result := { r_idx : nat; r_url : str; events_text : str }.

(** The [try] ... [except Exception as e] around the extractor call. *)
Definition extract_item (w : world) (system_prompt : str) (start : str)
    (ent : entity) : io str :=
  try_except
    (extract_events_from_text w (Some (synthetic_text ent start))
       (Some system_prompt) None None None)
    (λ e, io_ret (lit "(Extraction error: " ++ exn_message e ++ lit ")")).

Fixpoint run_items (w : world) (system_prompt start : str)
    (items : list entity) (idxs : list nat) : io (list item_result) :=
  match idxs with
  | [] => io_ret []
  | idx :: rest =>
      match items !! idx with
      | None => λ tr, (Raise (OtherError (lit "list index out of range")), tr)
      | Some ent =>
          let url := por (get ent "canonical_url") (por (get ent "url") (get ent "link")) in
          io_bind (extract_item w system_prompt start ent) (λ text,
          io_bind (run_items w system_prompt start items rest) (λ results,
          io_ret ({| r_idx := idx; r_url := url; events_text := text |} :: results)))
      end
  end.

Definition run_builder_loop (w : world) (system_prompt start : str)
    (items : list entity) (ids : list Z) (limit : option nat)
  : io (list item_result) :=
  run_items w system_prompt start items (select_indices (length items) ids limit).

End Builder.
End Builder.

(** ** step2_getdemocracydocket_v4.py *)

Module Docket.
Section Docket.
Context {rt : PyRuntime}.
Import PyStr.

Abbreviation item := (gmap string str) (only parsing).
Abbreviation stats := (gmap string Z) (only parsing).

Definition get (it : item) (k : string) : str := oget (it !! k).










End Docket.
End Docket.

(** ** A concrete runtime *)

(** The runtime restricted to ASCII and to zero-padded [YYYY-MM-DD] dates:
    on such inputs it is what CPython computes. It instantiates the
    statements below at concrete inputs. *)
Module AsciiRuntime.
Import PyStr.

Definition ascii_lower (x : str) : str :=
  List.map (λ c, if in_range 65 90 c then (c + 32)%N else c) x.

Definition digit (c : char) : Z := Z.of_N c - 48.

Definition parse_iso (x : str) : option date :=
  match x with
  | [y1; y2; y3; y4; 45%N; m1; m2; 45%N; d1; d2] =>
      if forallb ascii_digit [y1; y2; y3; y4; m1; m2; d1; d2] then
        mkdate (1000 * digit y1 + 100 * digit y2 + 10 * digit y3 + digit y4)
               (10 * digit m1 + digit m2) (10 * digit d1 + digit d2)
      else None
  | _ => None
  end.

Definition runtime : PyRuntime := {|
  uni_decimal := λ _, false;
  str_lower := ascii_lower;
  date_fromisoformat := λ x,
    match parse_iso x with
    | Some d => Ok d
    | None => Raise (ValueError (lit "Invalid isoformat string: " ++ x))
    end;
  strptime_ymd := parse_iso;
|}.

End AsciiRuntime.

(** ** Vocabulary of the statements *)

Module Spec.
Section Spec.
Context {rt : PyRuntime}.
Import PyStr Helper.

(** The argument combinations [resolve_date_window] accepts: a start date
    that parses, with an end date that parses or a week count of at least
    one; or, without a start date, a week number of at least one. *)
Definition window_args_ok (start end_ : option str) (weeks week : option Z) : bool :=
  if truthy start then
    is_ok (date_fromisoformat (oget start))
    && (if truthy end_ then is_ok (date_fromisoformat (oget end_))
        else truthy_int weeks && (1 <=? default 0 weeks))
  else truthy_int week && (1 <=? default 0 week).

Definition shift_ok (d : date) (n : Z) : bool :=
  (Z.abs n <=? 999999999) && (MINORDINAL <=? d + n) && (d + n <=? MAXORDINAL).

(** The dates the window needs exist as [datetime.date] values. *)
Definition window_in_range (start end_ : option str) (weeks week : option Z) : bool :=
  if truthy start then
    if truthy end_ then true
    else
      match date_fromisoformat (oget start) with
      | Ok start_d => shift_ok start_d (7 * default 0 weeks - 1)
      | Raise _ => true
      end
  else
    let k := default 0 week in
    let m := default 0 weeks in
    let week_end := if k =? 1 then FIRST_FRIDAY else FIRST_SATURDAY + (k - 2) * 7 + 6 in
    ((k =? 1) || shift_ok FIRST_SATURDAY ((k - 2) * 7)
                 && shift_ok (FIRST_SATURDAY + (k - 2) * 7) 6)
    && (if truthy_int weeks && (1 <? m) then shift_ok week_end (7 * (m - 1)) else true).

(** A string with no white space at either end. *)
Definition trimmed (x : str) : Prop :=
  match x with
  | [] => True
  | c :: _ => is_space c = false ∧ ∃ x' d, x = x' ++ [d] ∧ is_space d = false
  end.

(** A reply passes the compliance scan: the footer is there, and at least
    one category line, one why-relevant line and one attacks line. *)
Definition scan_passes (reply : str) : bool :=
  let comp := Extractor._preparse_compliance_scan reply in
  Extractor.has_footer_end_of_log comp
  && (0 <? Extractor.count_category_lines comp)%nat
  && (0 <? Extractor.count_why_lines comp)%nat
  && (0 <? Extractor.count_attacks_lines comp)%nat.





(** The character before the position once [p] has been read, and once a
    greedy run of a class has been read. *)
Definition prev_after (prev : option char) (p : str) : option char :=
  match last p with
  | Some c => Some c
  | None => prev
  end.

Fixpoint star_prev (p : char → bool) (prev : option char) (x : str) : option char :=
  match x with
  | c :: x' => if p c then star_prev p (Some c) x' else prev
  | [] => prev
  end.

(** *** The canonical block, in the words of the protocol *)

(** The five labelled lines the field loop tells apart. *)
Inductive label : Type := LSummary | LCategory | LWhy | LSource | LAttacks.

Global Instance label_eq_dec : EqDecision label.
Proof. solve_decision. Defined.

(** The label of a line: the four exact, case-sensitive prefixes in the
    order the loop tests them, then the attacks pattern. *)
Definition label_of (ln : str) : option label :=
  if startswith (lit "Summary:") ln then Some LSummary
  else if startswith (lit "Category:") ln then Some LCategory
  else if startswith (lit "Why Relevant:") ln then Some LWhy
  else if startswith (lit "Source:") ln then Some LSource
  else if bool_decide (is_Some (PyRe.re_match PyRe.I BuilderHelper._ATK_RE ln))
       then Some LAttacks
  else None.

(** The value a labelled line carries. *)
Definition value_of (ln : str) : str :=
  match label_of ln with
  | Some LSummary => BuilderHelper.after "Summary:" ln
  | Some LCategory => BuilderHelper.after "Category:" ln
  | Some LWhy => BuilderHelper.after "Why Relevant:" ln
  | Some LSource => BuilderHelper.after "Source:" ln
  | Some LAttacks =>
      match PyRe.re_match PyRe.I BuilderHelper._ATK_RE ln with
      | Some ma => strip (PyRe.group 1 (PyRe.m_caps ma))
      | None => []
      end
  | None => []
  end.

(** The variable of the field loop that a label sets. *)
Definition field (k : label) (fs : BuilderHelper.fields) : str :=
  match k with
  | LSummary => BuilderHelper.f_summary fs
  | LCategory => BuilderHelper.f_category fs
  | LWhy => BuilderHelper.f_why fs
  | LSource => BuilderHelper.f_alt_source_line fs
  | LAttacks => BuilderHelper.f_attacks_line fs
  end.

(** The value of the last line of [lines] that carries label [k], empty
    when there is none. *)
Definition pick (k : label) (lines : list str) : str :=
  match last (List.filter (λ ln, bool_decide (label_of ln = Some k)) lines) with
  | Some ln => value_of ln
  | None => []
  end.

(** A URL token at the start of [x]: [http://] or [https://] and the
    non-empty run of non-space characters after it. *)
Definition url_token_at (x : str) : option str :=
  let scheme :=
    if startswith (lit "https://") x then Some 8%nat
    else if startswith (lit "http://") x then Some 7%nat
    else None in
  match scheme with
  | Some n =>
      let body := take_while PyRe.not_space (drop n x) in
      if nonempty body then Some (take n x ++ body) else None
  | None => None
  end.

(** The first URL token of [x], from the left. *)
Fixpoint first_url_token (x : str) : option str :=
  match url_token_at x with
  | Some tok => Some tok
  | None =>
      match x with
      | _ :: x' => first_url_token x'
      | [] => None
      end
  end.

(** A value that fits on one line of a block and reads back as written: no
    line boundary inside, no white space at either end. *)
Definition single_line (x : str) : Prop :=
  forallb (λ c, negb (is_linebreak c)) x = true.

Definition clean (x : str) : Prop := trimmed x ∧ single_line x.

(** [YYYY-MM-DD] in ASCII digits. *)
Definition iso_shape (d : str) : bool :=
  match d with
  | [y1; y2; y3; y4; s1; m1; m2; s2; d1; d2] =>
      forallb ascii_digit [y1; y2; y3; y4; m1; m2; d1; d2]
      && (s1 =? 45)%N && (s2 =? 45)%N
  | _ => false
  end.

(** An attack token as written in the list: clean, without the list
    separators, and not only quotes. *)
Definition token_ok (tok : str) : Prop :=
  clean tok ∧ forallb (λ c, negb (BuilderHelper.is_sep c)) tok = true
  ∧ BuilderHelper.attack_handle tok ≠ [].

(** The values of one event. *)
Record block_values := {
  v_date : str;
  v_title : str;
  v_summary : str;
  v_source : str;
  v_category : str;
  v_why : str;
  v_attacks : list str;
}.

Definition well_formed (v : block_values) : Prop :=
  iso_shape (v_date v) = true
  ∧ clean (v_title v) ∧ v_title v ≠ []
  ∧ clean (v_summary v) ∧ clean (v_source v)
  ∧ clean (v_category v) ∧ clean (v_why v)
  ∧ Forall token_ok (v_attacks v).

(** The canonical text block of the extraction protocol for these values:
    the header with an em dash, then the labelled lines in the protocol's
    order, the attacks as a bracketed, comma-separated list; one line
    each. *)
Definition header_line (v : block_values) : str :=
  v_date v ++ lit " " ++ [EM_DASH] ++ lit " " ++ v_title v.

Definition field_lines_of (v : block_values) : list str :=
  [ lit "Summary: " ++ v_summary v;
    lit "Source: " ++ v_source v;
    lit "Category: " ++ v_category v;
    lit "Why Relevant: " ++ v_why v;
    lit "attacks: [" ++ join (lit ", ") (v_attacks v) ++ lit "]" ].

Definition render_block (v : block_values) : str :=
  join [NL] (header_line v :: field_lines_of v).

(** No header can start in [x], [prev] being the character before it: every
    position at the start of a line holds neither a digit nor [=]. *)
Definition plain_start (x : str) : bool :=
  match x with
  | [] => true
  | c :: _ => negb (PyRe.is_digit c) && negb (c =? 61)%N
  end.


(** The event the block stands for. *)
Definition event_of_values (v : block_values) (article_url : str)
  : BuilderHelper.event :=
  {| BuilderHelper.ev_date := v_date v;
     BuilderHelper.ev_title := v_title v;
     BuilderHelper.ev_url := por (default [] (first_url_token (v_source v))) article_url;
     BuilderHelper.ev_summary := v_summary v;
     BuilderHelper.ev_category := v_category v;
     BuilderHelper.ev_why_relevant := v_why v;
     BuilderHelper.ev_attacks :=
       List.map (λ tok, BuilderHelper.normalize_handle
                          (BuilderHelper.attack_handle tok)) (v_attacks v) |}.

(** The order of the sort keys in words: by date, then by category rank,
    then by the (lower-cased) source key, then by the (lower-cased) title,
    strings in code-point order. *)
Definition str_lt (x y : str) : Prop := compare x y = Lt.
Definition str_le (x y : str) : Prop := compare x y ≠ Gt.

Definition key_le (a b : Writer.key) : Prop :=
  let '(d1, c1, s1, t1) := a in
  let '(d2, c2, s2, t2) := b in
  d1 < d2 ∨ (d1 = d2 ∧
    ((c1 < c2)%nat ∨ (c1 = c2 ∧
      (str_lt s1 s2 ∨ (s1 = s2 ∧ str_le t1 t2))))).

Definition key_lt (a b : Writer.key) : Prop :=
  let '(d1, c1, s1, t1) := a in
  let '(d2, c2, s2, t2) := b in
  d1 < d2 ∨ (d1 = d2 ∧
    ((c1 < c2)%nat ∨ (c1 = c2 ∧
      (str_lt s1 s2 ∨ (s1 = s2 ∧ str_lt t1 t2))))).

(** Rows in key order. *)
Definition row_le (a b : Writer.EventRow) : Prop :=
  key_le (Writer.sort_key a) (Writer.sort_key b).

End Spec.
End Spec.

(** ** Concrete inputs *)

Module Examples.

(** A row of the master log with the given date, category and title. *)
Definition row_example (d : option date) (cat ttl : string) : Writer.EventRow :=
  {| Writer.source_key := PyStr.lit "guardian"; Writer.date_iso := [];
     Writer.date_obj := d; Writer.category := PyStr.lit cat;
     Writer.title := PyStr.lit ttl; Writer.source_label := [];
     Writer.url := []; Writer.summary := []; Writer.why := [];
     Writer.attacks := []; Writer.origin_file := []; Writer.origin_index := 0 |}.

(** A compliant one-event log. *)
Definition compliant_log : str :=
  PyStr.lit "2025-01-21 " ++ [PyStr.EM_DASH] ++ PyStr.lit " Court blocks order" ++ [PyStr.NL] ++
  PyStr.lit "Summary: A judge blocked the order." ++ [PyStr.NL] ++
  PyStr.lit "Source: https://example.org/a" ++ [PyStr.NL] ++
  PyStr.lit "Category: Judicial Developments" ++ [PyStr.NL] ++
  PyStr.lit "Why Relevant: Courts check the executive." ++ [PyStr.NL] ++
  PyStr.lit "Attacks: [courts]" ++ [PyStr.NL] ++
  PyStr.lit "Total events found: [1]" ++ [PyStr.NL] ++
  PyStr.lit "[END OF LOG]".

End Examples.

Module Worlds.
Import PyStr Extractor.



Definition two_messages : list message :=
  [ {| role := lit "system"; content := lit "Extract events." |};
    {| role := lit "user"; content := lit "ARTICLE_TEXT: ..." |} ].

Definition one_entity : gmap string str :=
  list_to_map [("title", lit "Court blocks order");
               ("canonical_url", lit "https://example.org/a");
               ("post_date", lit "2025-01-21");
               ("summary", lit "A judge blocked the order.")]%string.

End Worlds.

Module Blocks.
Import PyStr.

(** One event as the protocol writes it. *)
Definition court_order : Spec.block_values := {|
  Spec.v_date := lit "2025-01-21";
  Spec.v_title := lit "Court blocks order";
  Spec.v_summary := lit "A judge blocked the order.";
  Spec.v_source := lit "https://example.org/a https://example.org/b";
  Spec.v_category := lit "Judicial Developments";
  Spec.v_why := lit "Courts check the executive.";
  Spec.v_attacks := [lit "courts"; lit "'Rule of Law'"];
|}.

(** A block with its labels in lower case. *)
Definition lower_case_labels : str :=
  lit "2025-01-21 " ++ [EM_DASH] ++ lit " Court blocks order" ++ [NL] ++
  lit "summary: A judge blocked the order." ++ [NL] ++
  lit "source: https://example.org/a" ++ [NL] ++
  lit "category: Judicial Developments" ++ [NL] ++
  lit "why relevant: Courts check the executive." ++ [NL] ++
  lit "ATTACKS: [courts]".

(** The same block with the labels as the protocol writes them, in another
    order. *)
Definition shuffled_labels : str :=
  lit "2025-01-21 " ++ [EM_DASH] ++ lit " Court blocks order" ++ [NL] ++
  lit "Why Relevant: Courts check the executive." ++ [NL] ++
  lit "ATTACKS: [courts]" ++ [NL] ++
  lit "Category: Judicial Developments" ++ [NL] ++
  lit "Source: see https://example.org/a and https://example.org/b" ++ [NL] ++
  lit "Summary: A judge blocked the order.".

End Blocks.

Module Feeds.
Import PyStr.

(** Feed items inside the window of week 1, two of them with one URL. *)
Definition feed_item (ttl url : string) : gmap string str :=
  list_to_map [("title", lit ttl); ("canonical_url", lit url); ("url", lit url);
               ("post_date", lit "2025-01-21")]%string.

Definition with_duplicate : list (gmap string str) :=
  [feed_item "Ruling" "https://example.org/a"; feed_item "Ruling" "https://example.org/a"].

Definition without_duplicate : list (gmap string str) :=
  [feed_item "Ruling" "https://example.org/a"; feed_item "Appeal" "https://example.org/b"].

End Feeds.

Module FieldLines.
Import PyStr.

(** The five labelled lines of a block, in the protocol's order and in
    another one. *)
Definition l_summary : str := lit "Summary: A judge blocked the order.".
Definition l_source : str := lit "Source: see https://example.org/a and https://example.org/b".
Definition l_category : str := lit "Category: Judicial Developments".
Definition l_why : str := lit "Why Relevant: Courts check the executive.".
Definition l_attacks : str := lit "ATTACKS: [courts]".

Definition in_order : list str := [l_summary; l_source; l_category; l_why; l_attacks].
Definition shuffled : list str := [l_why; l_attacks; l_category; l_source; l_summary].

End FieldLines.

(** * Further functions of the same files

  The modules below embed the functions around the ones above: the text and
  list helpers of step2_helper_v4.py ([HelperUtil]), the diagnostics of the
  extractor ([ExtractorUtil]), the selection and splitting helpers of
  step2_builder_helper_v4.py ([BuilderUtil]), the block parser that
  step2_builddemocracydocket_v4.py carries itself ([DocketParser]) and the
  per-item steps of step2_buildguardian_v4.py and step2_buildhcr_v4.py
  ([Guardian], [Hcr]). *)

(** ** [re.sub] *)

Module PyReSub.
Import PyStr PyRe.

(** [pattern.sub(repl, x)] for a replacement without group references: the
    scan of [finditer], writing [repl] for every match and the characters
    between the matches as they are. [skip] counts the characters of the
    last match still to be passed over. *)
Fixpoint sub_go (f : flags) (r : re) (repl : str) (skip : nat)
    (prev : option char) (x : str) {struct x} : str :=
  match skip with
  | S skip' =>
      match x with
      | c :: x' => sub_go f r repl skip' (Some c) x'
      | [] => []
      end
  | O =>
      match m f r accept prev x [] with
      | Some (rest, _) =>
          let n := (length x - length rest)%nat in
          repl ++
          match x with
          | c :: x' =>
              if (n =? 0)%nat then c :: sub_go f r repl 0 (Some c) x'
              else sub_go f r repl (n - 1) (Some c) x'
          | [] => []
          end
      | None =>
          match x with
          | c :: x' => c :: sub_go f r repl 0 (Some c) x'
          | [] => []
          end
      end
  end.

Definition sub (f : flags) (r : re) (repl : str) (x : str) : str :=
  sub_go f r repl 0 None x.

End PyReSub.

(** ** step2_helper_v4.py: text and list helpers *)

Module HelperUtil.
Import PyStr PyRe PyReSub.

(** [_WS_RE = re.compile(r"\s+")] *)
Definition _WS_RE : re := Plus is_space.

(** [_WS_RE.sub(" ", (s or "").replace("\xa0", " ").strip())] *)
Definition normalize_ws (s : option str) : str :=
  sub NOFLAGS _WS_RE (lit " ") (strip (replace_char 160 32 (oget s))).

Section Dedupe.
Context `{Countable A}.

(** The loop of [stable_dedupe]: the set [seen] and the list [out]. *)
Definition dedupe_step (acc : gset A * list A) (x : A) : gset A * list A :=
  let '(seen, out) := acc in
  if bool_decide (x ∈ seen) then (seen, out)
  else ({[x]} ∪ seen, out ++ [x]).

Definition stable_dedupe (seq : list A) : list A :=
  (foldl dedupe_step (∅, []) seq).2.

End Dedupe.

End HelperUtil.

(** ** step2_extractor_v4.py: the diagnostics of a reply *)

Module ExtractorUtil.
Import PyStr Extractor.

(** [_infer_issue(pre, comp)]; [approx_room] is
    [pre.get("length_estimates", {}).get("approx_room_for_output_tokens")],
    [None] when the estimate is missing, and [comp] the scan of the reply. *)
Definition _infer_issue (approx_room : option Z) (comp : scan) : str :=
  let has_footer := has_footer_end_of_log comp in
  let cat := count_category_lines comp in
  let why := count_why_lines comp in
  if negb has_footer
     && match approx_room with Some room => room <? 200 | None => false end
  then lit "likely_truncation_or_token_budget"
  else if has_footer && ((cat =? 0)%nat || (why =? 0)%nat)
  then lit "schema_drift_missing_fields"
  else if ((cat + why =? 0)%nat) && negb has_footer
  then lit "no_schema_fields_detected"
  else lit "unknown_or_ok".

(** [_safe_head_tail(txt, head, tail)] for non-negative [head] and [tail]:
    the pair of the values under ["head"] and ["tail"]. With [tail = 0] the
    slice [txt[-0:]] is the whole text. *)
Definition _safe_head_tail (txt : str) (head tail : nat) : str * str :=
  (take head txt,
   if (tail <? length txt)%nat then
     match tail with
     | O => txt
     | S _ => drop (length txt - tail) txt
     end
   else txt).

End ExtractorUtil.

(** ** step2_builder_helper_v4.py: selection and splitting *)

Module BuilderUtil.
Import PyStr.

(** Truthiness of an optional list: [None] and [[]] are falsy. *)
Definition truthy_list {A} (l : option (list A)) : bool :=
  match l with Some (_ :: _) => true | _ => false end.

(** [list(range(n))], empty for [n <= 0]. *)
Definition range (n : Z) : list Z := seqZ 0 n.

(** [_pick_indices(n_total, ids, limit)]; the elements of [ids] are
    integers, as the annotation says. *)
Definition _pick_indices (n_total : Z) (ids : option (list Z)) (limit : option Z)
  : list Z :=
  if truthy_list ids then
    List.filter (λ i, (0 <=? i) && (i <? n_total)) (default [] ids)
  else
    match limit with
    | None => range n_total
    | Some l => if n_total <=? l then range n_total else range l
    end.

(** [split_summary_and_body(extracted_text)] *)
Definition split_summary_and_body (extracted_text : str) : str * str :=
  if negb (nonempty extracted_text) then ([], [])
  else if startswith (lit "Summary:") extracted_text then
    let lines := splitlines extracted_text in
    let first :=
      match lines with
      | l0 :: _ => strip (drop (length (lit "Summary:")) l0)
      | [] => []
      end in
    let rest := lstrip (join [NL] (tail lines)) in
    (first, rest)
  else ([], extracted_text).

End BuilderUtil.

(** ** step2_builddemocracydocket_v4.py: the builder's own block parser *)

Module DocketParser.
Section DocketParser.
Context {rt : PyRuntime}.
Import PyStr PyRe.

(** The header pattern, no flags: [^], the date, [\s+], an em dash, [\s+],
    the title (a group of any characters but the newline, none allowed),
    [$]. *)
Definition _HDR_RE : re :=
  seqs [Bol; Grp 1 Extractor.ISO_DATE; Plus is_space; Chr (N.eqb EM_DASH);
        Plus is_space; Grp 2 (Star dot); Eol].

(** The patterns of the labelled lines, re.IGNORECASE: [^], the label,
    [\s*], a group of one or more characters, [$]. *)
Definition field_re (label : string) : re :=
  seqs [Bol; Str I (lit label); Star is_space; Grp 1 (Plus dot); Eol].

Definition _SUM_RE : re := field_re "Summary:".
Definition _SRC_RE : re := field_re "Source:".
Definition _CAT_RE : re := field_re "Category:".
Definition _WHY_RE : re := field_re "Why Relevant:".

(** The pattern [https?://\S+]. *)
Definition _URL_EX : re :=
  seqs [Str NOFLAGS (lit "http"); Opt (Chr (N.eqb 115));
        Str NOFLAGS (lit "://"); Plus not_space].

(** The attacks line, re.IGNORECASE: [^], an optional double quote,
    [attacks], an optional double quote, white space, a colon, white
    space, a group of one or more characters, [$]. *)
Definition _ATK_RE : re :=
  seqs [Bol; Opt (Chr (N.eqb 34)); Str I (lit "attacks"); Opt (Chr (N.eqb 34));
        Star is_space; Chr (N.eqb 58); Star is_space; Grp 1 (Plus dot); Eol].

(** [bool(_HDR_RE.match(ln))] *)
Definition is_header (ln : str) : bool :=
  bool_decide (is_Some (re_match NOFLAGS _HDR_RE ln)).

Definition truthy_lines (l : list str) : bool :=
  match l with [] => false | _ :: _ => true end.

(** The grouping loop over the lines: [(blocks, cur)]. *)
Definition group_step (acc : list (list str) * list str) (ln : str)
  : list (list str) * list str :=
  let '(blocks, cur) := acc in
  if is_header ln then
    ((if truthy_lines cur then blocks ++ [cur] else blocks), [ln])
  else if truthy_lines cur then (blocks, cur ++ [ln])
  else (blocks, cur).

Definition group_blocks (lines : list str) : list (list str) :=
  let '(blocks, cur) := foldl group_step ([], []) lines in
  if truthy_lines cur then blocks ++ [cur] else blocks.

(** The variables of the field loop of one block. *)
Record fields := {
  f_summary : str;
  f_src_line : str;
  f_url : str;
  f_cat : str;
  f_why : str;
  f_attacks_line : str;
}.

Definition no_fields : fields :=
  {| f_summary := []; f_src_line := []; f_url := []; f_cat := []; f_why := [];
     f_attacks_line := [] |}.

(** [m.group(0)] of a match in [x]. *)
Definition group0 (x : str) (ma : rmatch) : str := slice (m_start ma) (m_end ma) x.

(** One turn of [for ln in block[1:]]. *)
Definition field_step (acc : fields) (ln : str) : fields :=
  if negb (nonempty (strip ln)) then acc
  else
    match re_match I _SUM_RE ln with
    | Some ma =>
        {| f_summary := strip (group 1 (m_caps ma)); f_src_line := f_src_line acc;
           f_url := f_url acc; f_cat := f_cat acc; f_why := f_why acc;
           f_attacks_line := f_attacks_line acc |}
    | None =>
    match re_match I _SRC_RE ln with
    | Some ma =>
        let src_line := strip (group 1 (m_caps ma)) in
        let url := match search NOFLAGS _URL_EX src_line with
                   | Some u => group0 src_line u
                   | None => []
                   end in
        {| f_summary := f_summary acc; f_src_line := src_line;
           f_url := url; f_cat := f_cat acc; f_why := f_why acc;
           f_attacks_line := f_attacks_line acc |}
    | None =>
    match re_match I _CAT_RE ln with
    | Some ma =>
        {| f_summary := f_summary acc; f_src_line := f_src_line acc;
           f_url := f_url acc; f_cat := strip (group 1 (m_caps ma));
           f_why := f_why acc; f_attacks_line := f_attacks_line acc |}
    | None =>
    match re_match I _WHY_RE ln with
    | Some ma =>
        {| f_summary := f_summary acc; f_src_line := f_src_line acc;
           f_url := f_url acc; f_cat := f_cat acc;
           f_why := strip (group 1 (m_caps ma));
           f_attacks_line := f_attacks_line acc |}
    | None =>
    match re_match I _ATK_RE ln with
    | Some ma =>
        {| f_summary := f_summary acc; f_src_line := f_src_line acc;
           f_url := f_url acc; f_cat := f_cat acc; f_why := f_why acc;
           f_attacks_line := strip (group 1 (m_caps ma)) |}
    | None => acc
    end end end end end.

(** The dictionary appended to [events]. *)
Record event := {
  source_date : str;
  title : str;
  url : str;
  summary : str;
  why_relevant : str;
  category : str;
  sources : list str;
  tags : list str;
  attacks : list str;
}.

(** The attack handles of the attacks line: the same lines as in the shared
    parser. *)
Definition attacks_list_of (attacks_line : str) : list str :=
  if nonempty attacks_line then
    let cleaned := strip attacks_line in
    let cleaned :=
      if startswith (lit "[") cleaned && endswith (lit "]") cleaned
      then strip (slice 1 (length cleaned - 1) cleaned)
      else cleaned in
    flat_map (λ part,
                let h := strip_char 39 (strip_char 34 (strip part)) in
                if nonempty h then [replace_char 32 95 (str_lower h)] else [])
             (split_on (λ c, (c =? 59)%N || (c =? 44)%N) cleaned)
  else [].

(** The body of [for bidx, block in enumerate(blocks, 1)]; [block[0]] raises
    [IndexError] on an empty block. *)
Definition event_of_block (block : list str) (article_url : str) : result event :=
  match block with
  | [] => Raise (OtherError (lit "list index out of range"))
  | header :: rest =>
      let '(date_s, title) :=
        match re_match NOFLAGS _HDR_RE header with
        | Some ma => (strip (group 1 (m_caps ma)), strip (group 2 (m_caps ma)))
        | None => ([], [])
        end in
      let fs := foldl field_step no_fields rest in
      let url := if negb (nonempty (f_url fs)) then article_url else f_url fs in
      let sources := if nonempty url then [url] else [] in
      let sources :=
        if nonempty article_url && negb (bool_decide (article_url ∈ sources))
        then sources ++ [article_url] else sources in
      Ok {| source_date := date_s; title := title; url := url;
            summary := f_summary fs; why_relevant := f_why fs;
            category := f_cat fs; sources := sources; tags := [];
            attacks := attacks_list_of (f_attacks_line fs) |}
  end.

Fixpoint events_of_blocks (blocks : list (list str)) (article_url : str)
  : result (list event) :=
  match blocks with
  | [] => Ok []
  | block :: rest =>
      ev ← event_of_block block article_url;
      evs ← events_of_blocks rest article_url;
      Ok (ev :: evs)
  end.

Definition _parse_llm_events_canonical (text : str) (article_url : str)
  : result (list event) :=
  let lines := List.map rstrip (splitlines text) in
  events_of_blocks (group_blocks lines) article_url.

(** An entry of [noncompliant]; its reason is always [no_blocks], and the
    URL is only there for a blank reply. *)
Record noncompliant := { nc_idx : nat; nc_url : option str }.

(** The loop of [run_builder] over the replies: [(all_events, noncompliant)],
    each event with the [source] that [setdefault] adds to it. *)
Fixpoint collect_events (source : str) (results : list Builder.item_result)
  : result (list (str * event) * list noncompliant) :=
  match results with
  | [] => Ok ([], [])
  | rec :: rest =>
      let raw := strip (Builder.events_text rec) in
      if negb (nonempty raw) then
        '(evs, ncs) ← collect_events source rest;
        Ok (evs, {| nc_idx := Builder.r_idx rec;
                    nc_url := Some (Builder.r_url rec) |} :: ncs)
      else
        found ← _parse_llm_events_canonical raw (Builder.r_url rec);
        '(evs, ncs) ← collect_events source rest;
        Ok (List.map (λ ev, (source, ev)) found ++ evs,
            match found with
            | [] => {| nc_idx := Builder.r_idx rec; nc_url := None |} :: ncs
            | _ :: _ => ncs
            end)
  end.

(** [run_builder]: the per-item loop, then the loop over the replies. *)
Definition run_builder (w : Extractor.world) (source system_prompt start : str)
    (items : list (gmap string str)) (ids : list Z) (limit : option nat)
  : Extractor.io (list (str * event) * list noncompliant) :=
  Extractor.io_bind
    (Builder.run_builder_loop w system_prompt start items ids limit)
    (λ results tr, (collect_events source results, tr)).

End DocketParser.
End DocketParser.

(** ** Words for the statements about these functions *)

Module SpecUtil.
Import PyStr.

(** Every run of white space replaced by one space; [in_run] tells that the
    character before was white space. *)
Fixpoint squeeze (in_run : bool) (x : str) : str :=
  match x with
  | [] => []
  | c :: x' =>
      if is_space c then
        if in_run then squeeze true x' else 32%N :: squeeze true x'
      else c :: squeeze false x'
  end.

(** No two white-space characters side by side. *)
Fixpoint single_spaced (x : str) : bool :=
  match x with
  | a :: x' =>
      match x' with
      | b :: _ => negb (is_space a && is_space b)
      | [] => true
      end && single_spaced x'
  | [] => true
  end.

(** The only white-space character is the space U+0020. *)
Definition plain_spaces (x : str) : bool :=
  forallb (λ c, negb (is_space c) || (c =? 32)%N) x.


End SpecUtil.

(** ** A further world for the examples *)

Module MoreWorlds.
Import PyStr Extractor.

(** A run without [OPENAI_API_KEY]. *)
Definition no_key : world := {|
  api_key := None;
  completion := λ _ _, Raise (OtherError (lit "unauthorized"));
  requests_get := λ _, Raise (OtherError (lit "connection refused"));
  readable_text := λ html, html;
|}.

End MoreWorlds.

(** ** The per-item steps of two more builders *)

Module Guardian.
Section Guardian.
Context {rt : PyRuntime}.
Import PyStr Extractor.

(** step2_buildguardian_v4.py, the body of the loop over [idxs] up to
    [text]: no call without a URL, else the URL extractor inside
    [try] ... [except Exception as e]. *)
Definition extract_item (w : world) (system_prompt : str)
    (ent : gmap string str) : io str :=
  let title := por (Builder.get ent "title") (Builder.get ent "headline") in
  let url := por (Builder.get ent "canonical_url") (Builder.get ent "url") in
  let post_date :=
    por (Builder.get ent "post_date")
      (por (Builder.get ent "published_at") (Builder.get ent "date")) in
  if negb (nonempty url) then io_ret []
  else
    try_except
      (extract_events_from_url w url (Some system_prompt) (Some title) (Some post_date))
      (λ e, io_ret (lit "(Extraction error: " ++ exn_message e ++ lit ")")).

End Guardian.
End Guardian.

Module Hcr.
Section Hcr.
Context {rt : PyRuntime}.
Import PyStr Extractor.

(** step2_buildhcr_v4.py, [use_transcript]: the summary URL, stripped and
    in lower case, ends with [.json] and holds [transcript]. *)
Definition use_transcript (rec : gmap string str) : bool :=
  let summary_url := str_lower (strip (Builder.get rec "summary_url")) in
  endswith (lit ".json") summary_url
  && (contains (lit "transcript") summary_url
      || contains (lit "transcription") summary_url).

(** The body of the loop over [sel_idx] up to [events_text]. [transcript]
    is [_fetch_substack_transcript_text], which returns the empty string on
    every failure and never raises; [meta] is the record itself (its added
    [_idx] only names the debug files). *)
Definition extract_item (w : world) (transcript : str → str) (system_prompt : str)
    (rec : gmap string str) : io str :=
  let title := strip (Builder.get rec "title") in
  let url := por (Builder.get rec "canonical_url") (Builder.get rec "url") in
  let post_date := Builder.get rec "post_date" in
  try_except
    (if use_transcript rec then
       let transcript_text := transcript (Builder.get rec "summary_url") in
       extract_events_from_text w (Some transcript_text) (Some system_prompt)
         (Some rec) (Some title) (Some post_date)
     else
       extract_events_from_url w url (Some system_prompt) (Some title) (Some post_date))
    (λ e, io_ret (lit "(LLM extraction failed: " ++ exn_message e ++ lit ")")).

End Hcr.
End Hcr.

(** ** Words for the statements about the extraction calls *)

Module SpecCalls.
Section SpecCalls.
Context {rt : PyRuntime}.
Import PyStr Extractor.


End SpecCalls.
End SpecCalls.

(** ** Words for the statistics of the window filter *)

Module SpecStats.
Section SpecStats.
Context {rt : PyRuntime}.
Import PyStr.









End SpecStats.
End SpecStats.

Module MoreFeeds.
Import PyStr.





End MoreFeeds.

Module MoreBlocks.
Import PyStr.

(** The block of [Blocks.lower_case_labels] with the labels as the protocol
    writes them. *)
Definition capital_labels : str :=
  lit "2025-01-21 " ++ [EM_DASH] ++ lit " Court blocks order" ++ [NL] ++
  lit "Summary: A judge blocked the order." ++ [NL] ++
  lit "Source: https://example.org/a" ++ [NL] ++
  lit "Category: Judicial Developments" ++ [NL] ++
  lit "Why Relevant: Courts check the executive." ++ [NL] ++
  lit "ATTACKS: [courts]".

End MoreBlocks.

(** * Theorems *)

(** ** Results and dates *)

Lemma add_days_ok (d : date) (n : Z) :
  Z.abs n <= 999999999 → MINORDINAL <= d + n <= MAXORDINAL →
  add_days d n = Ok (d + n).
Proof.
  intros Hn [Hlo Hhi]. unfold add_days.
  rewrite (proj2 (Z.leb_le _ _) Hn), (proj2 (Z.leb_le _ _) Hlo),
    (proj2 (Z.leb_le _ _) Hhi). reflexivity.
Qed.

Lemma add_days_inv (d : date) (n : Z) (d' : date) :
  add_days d n = Ok d' →
  d' = d + n ∧ MINORDINAL <= d + n <= MAXORDINAL ∧ Z.abs n <= 999999999.
Proof.
  unfold add_days.
  destruct (Z.leb_spec (Z.abs n) 999999999); simpl; [|discriminate].
  destruct (Z.leb_spec MINORDINAL (d + n)); simpl; [|discriminate].
  destruct (Z.leb_spec (d + n) MAXORDINAL); simpl; [|discriminate].
  intros [= <-]. auto.
Qed.

Lemma add_days_raise (d : date) (n : Z) (e : exn) :
  add_days d n = Raise e → e = OverflowError.
Proof.
  unfold add_days. destruct (_ && _); [discriminate|]. by intros [= <-].
Qed.

Lemma anchors :
  Helper.INAUGURATION_DAY = 739271 ∧ Helper.FIRST_FRIDAY = 739275 ∧
  Helper.FIRST_SATURDAY = 739276 ∧
  Writer._ANCHOR_W1_START = 739271 ∧ Writer._ANCHOR_W1_END = 739275 ∧
  Writer._ANCHOR_W2_START = 739276.
Proof. repeat split; reflexivity. Qed.

(** ** The week calendar of [resolve_date_window] *)

Section WindowResolver.
Context {rt : PyRuntime}.
Import PyStr Helper.

(** A week number alone, outside week 1. *)
Lemma resolve_week_only (N : Z) :
  2 <= N → FIRST_SATURDAY + 7 * (N - 2) + 6 <= MAXORDINAL →
  resolve_date_window None None None (Some N)
  = Ok (FIRST_SATURDAY + 7 * (N - 2), FIRST_SATURDAY + 7 * (N - 2) + 6).
Proof.
  intros HN Hmax. destruct anchors as (_ & _ & HS & _).
  unfold resolve_date_window, truthy, truthy_int, default, from_option, id.
  destruct (Z.eqb_spec N 0); [lia|]. simpl negb. cbv iota.
  destruct (Z.ltb_spec N 1); [lia|].
  destruct (Z.eqb_spec N 1); [lia|].
  unfold MAXORDINAL in Hmax. rewrite HS in *.
  rewrite add_days_ok by (unfold MINORDINAL, MAXORDINAL; lia).
  simpl mbind. unfold mbind, result_bind.
  rewrite add_days_ok by (unfold MINORDINAL, MAXORDINAL; lia).
  simpl. do 2 f_equal; lia.
Qed.


Lemma resolve_week_one_count (m : Z) :
  1 <= m → FIRST_FRIDAY + 7 * (m - 1) <= MAXORDINAL →
  resolve_date_window None None (Some m) (Some 1)
  = Ok (INAUGURATION_DAY, FIRST_FRIDAY + 7 * (m - 1)).
Proof.
  intros Hm Hmax. destruct anchors as (HI & HF & _).
  unfold resolve_date_window, truthy, truthy_int, default, from_option, id.
  destruct (Z.eqb_spec m 0); [lia|]. simpl.
  unfold MAXORDINAL in Hmax. rewrite HI, HF in *.
  destruct (Z.ltb_spec 1 m); cbv iota.
  - rewrite add_days_ok by (unfold MINORDINAL, MAXORDINAL; lia). reflexivity.
  - f_equal. f_equal. lia.
Qed.


End WindowResolver.


(** ** Failures of [resolve_date_window] *)

Section WindowFailures.
Context {rt : PyRuntime}.
Import PyStr Helper Spec.

Lemma shift_ok_add_days (d : date) (n : Z) :
  add_days d n = if shift_ok d n then Ok (d + n) else Raise OverflowError.
Proof. reflexivity. Qed.

Lemma resolve_neither (start end_ : option str) (weeks week : option Z) :
  truthy start = false → truthy_int week = false →
  resolve_date_window start end_ weeks week
  = Raise (ValueError (lit
      "Must specify either (--start and --end|--weeks) or (--week [--weeks])")).
Proof. intros Hs Hw. unfold resolve_date_window. by rewrite Hs, Hw. Qed.

Lemma resolve_explicit (start end_ : option str) (weeks week : option Z)
    (start_d end_d : date) :
  truthy start = true → truthy end_ = true →
  date_fromisoformat (oget start) = Ok start_d →
  date_fromisoformat (oget end_) = Ok end_d →
  resolve_date_window start end_ weeks week = Ok (start_d, end_d).
Proof.
  intros Hs He Hsd Hed. unfold resolve_date_window.
  by rewrite Hs, Hsd, He, Hed.
Qed.

Lemma resolve_is_ok (start end_ : option str) (weeks week : option Z) :
  is_ok (resolve_date_window start end_ weeks week)
  = window_args_ok start end_ weeks week && window_in_range start end_ weeks week.
Proof.
  unfold resolve_date_window, window_args_ok, window_in_range.
  destruct (truthy start).
  - destruct (date_fromisoformat (oget start)) as [sd|]; [|reflexivity].
    simpl. destruct (truthy end_).
    + destruct (date_fromisoformat (oget end_)); reflexivity.
    + destruct (truthy_int weeks); [|reflexivity]. simpl.
      destruct (Z.ltb_spec (default 0 weeks) 1), (Z.leb_spec 1 (default 0 weeks));
        try lia; [reflexivity|].
      rewrite shift_ok_add_days. simpl. by destruct (shift_ok _ _).
  - destruct (truthy_int week); [|reflexivity]. simpl.
    destruct (Z.ltb_spec (default 0 week) 1), (Z.leb_spec 1 (default 0 week));
      try lia; [reflexivity|]. simpl.
    destruct (Z.eqb_spec (default 0 week) 1).
    + simpl. destruct (truthy_int weeks && (1 <? default 0 weeks)); [|reflexivity].
      rewrite shift_ok_add_days. by destruct (shift_ok _ _).
    + rewrite !shift_ok_add_days.
      destruct (shift_ok FIRST_SATURDAY _); [|reflexivity]. simpl.
      rewrite shift_ok_add_days.
      destruct (shift_ok (FIRST_SATURDAY + _) 6); [|reflexivity]. simpl.
      destruct (truthy_int weeks && (1 <? default 0 weeks)); [|reflexivity].
      rewrite shift_ok_add_days. by destruct (shift_ok _ _).
Qed.

Lemma resolve_ordered (start end_ : option str) (weeks week : option Z)
    (s e : date) :
  resolve_date_window start end_ weeks week = Ok (s, e) →
  truthy start && truthy end_ = false → s <= e.
Proof.
  unfold resolve_date_window. destruct (truthy start).
  - destruct (date_fromisoformat (oget start)) as [sd|]; [|discriminate].
    simpl. destruct (truthy end_); [discriminate|].
    destruct (truthy_int weeks); [|discriminate].
    destruct (Z.ltb_spec (default 0 weeks) 1); [discriminate|].
    destruct (add_days sd _) as [ed|] eqn:E; [|discriminate].
    apply add_days_inv in E as (-> & _ & _). simpl. intros Heq _. inversion Heq; subst. lia.
  - destruct (truthy_int week); [|discriminate].
    destruct (Z.ltb_spec (default 0 week) 1); [discriminate|].
    destruct anchors as (HI & HF & HS & _).
    assert (∀ r sd ed,
      r = Ok (sd, ed) → sd <= ed →
      (r ≫= (λ '(start_d, end_d),
         if truthy_int weeks && (1 <? default 0 weeks)
         then add_days end_d (7 * (default 0 weeks - 1)) ≫=
                λ end_d', Ok (start_d, end_d')
         else Ok (start_d, end_d))) = Ok (s, e) → s <= e) as Hext.
    { intros r sd ed -> Hle. simpl.
      destruct (truthy_int weeks && (1 <? default 0 weeks)) eqn:Ew.
      - apply andb_prop in Ew as [_ Hm%Z.ltb_lt].
        destruct (add_days ed _) as [ed'|] eqn:E; [|discriminate].
        apply add_days_inv in E as (-> & _ & _). simpl. intros Heq. inversion Heq; subst. lia.
      - intros Heq. inversion Heq; subst. done. }
    destruct (Z.eqb_spec (default 0 week) 1).
    + intros Hr _. eapply Hext; [reflexivity| |exact Hr]. rewrite HI, HF. lia.
    + destruct (add_days FIRST_SATURDAY _) as [sd|] eqn:E1; [|discriminate].
      simpl. destruct (add_days sd 6) as [ed|] eqn:E2; [|discriminate].
      apply add_days_inv in E2 as (-> & _ & _).
      intros Hr _. eapply Hext; [reflexivity| |exact Hr]. lia.
Qed.

Lemma resolve_week_below (start end_ : option str) (weeks : option Z) (N : Z) :
  truthy start = false → N < 1 → N ≠ 0 →
  resolve_date_window start end_ weeks (Some N)
  = Raise (ValueError (lit "--week must be " ++ [GE_SIGN] ++ lit " 1")).
Proof.
  intros Hs Hlt Hne. unfold resolve_date_window. rewrite Hs. simpl.
  destruct (Z.eqb_spec N 0); [done|]. simpl.
  by destruct (Z.ltb_spec N 1); [|lia].
Qed.

Lemma resolve_start_alone (start end_ : option str) (weeks week : option Z)
    (start_d : date) :
  truthy start = true → date_fromisoformat (oget start) = Ok start_d →
  truthy end_ = false → truthy_int weeks = false →
  resolve_date_window start end_ weeks week
  = Raise (ValueError (lit "Must specify either --end or --weeks with --start")).
Proof.
  intros Hs Hd He Hw. unfold resolve_date_window. by rewrite Hs, Hd, He, Hw.
Qed.

Lemma resolve_weeks_below (start end_ : option str) (week : option Z) (m : Z)
    (start_d : date) :
  truthy start = true → date_fromisoformat (oget start) = Ok start_d →
  truthy end_ = false → m < 1 → m ≠ 0 →
  resolve_date_window start end_ (Some m) week
  = Raise (ValueError (lit "--weeks must be " ++ [GE_SIGN] ++ lit " 1")).
Proof.
  intros Hs Hd He Hlt Hne. unfold resolve_date_window. rewrite Hs, Hd, He. simpl.
  destruct (Z.eqb_spec m 0); [done|]. simpl.
  by destruct (Z.ltb_spec m 1); [|lia].
Qed.

Lemma resolve_start_unparsed (start end_ : option str) (weeks week : option Z)
    (e : exn) :
  truthy start = true → date_fromisoformat (oget start) = Raise e →
  resolve_date_window start end_ weeks week = Raise e.
Proof. intros Hs Hd. unfold resolve_date_window. by rewrite Hs, Hd. Qed.

Lemma resolve_end_unparsed (start end_ : option str) (weeks week : option Z)
    (start_d : date) (e : exn) :
  truthy start = true → date_fromisoformat (oget start) = Ok start_d →
  truthy end_ = true → date_fromisoformat (oget end_) = Raise e →
  resolve_date_window start end_ weeks week = Raise e.
Proof. intros Hs Hd He Hed. unfold resolve_date_window. by rewrite Hs, Hd, He, Hed. Qed.

Lemma resolve_out_of_range (start end_ : option str) (weeks week : option Z) :
  window_args_ok start end_ weeks week = true →
  window_in_range start end_ weeks week = false →
  resolve_date_window start end_ weeks week = Raise OverflowError.
Proof.
  unfold resolve_date_window, window_args_ok, window_in_range.
  destruct (truthy start).
  - destruct (date_fromisoformat (oget start)) as [sd|]; [|discriminate].
    simpl. destruct (truthy end_); [discriminate|].
    destruct (truthy_int weeks); [|discriminate]. simpl.
    destruct (Z.ltb_spec (default 0 weeks) 1), (Z.leb_spec 1 (default 0 weeks));
      try lia; try discriminate. intros _.
    rewrite shift_ok_add_days. by intros ->.
  - destruct (truthy_int week); [|discriminate]. simpl.
    destruct (Z.ltb_spec (default 0 week) 1), (Z.leb_spec 1 (default 0 week));
      try lia; try discriminate. intros _.
    destruct (Z.eqb_spec (default 0 week) 1).
    + simpl. destruct (truthy_int weeks && (1 <? default 0 weeks)); [|discriminate].
      rewrite shift_ok_add_days. by intros ->.
    + rewrite !shift_ok_add_days. simpl.
      destruct (shift_ok FIRST_SATURDAY _); [|done]. simpl.
      rewrite shift_ok_add_days.
      destruct (shift_ok (FIRST_SATURDAY + _) 6); [|done]. simpl.
      destruct (truthy_int weeks && (1 <? default 0 weeks)); [|discriminate].
      rewrite shift_ok_add_days. by intros ->.
Qed.

Lemma resolve_in_range (start end_ : option str) (weeks week : option Z) :
  window_args_ok start end_ weeks week = true →
  window_in_range start end_ weeks week = true →
  truthy start && truthy end_ = false →
  ∃ s e, resolve_date_window start end_ weeks week = Ok (s, e) ∧ s <= e.
Proof.
  intros Ha Hr Hm.
  pose proof (resolve_is_ok start end_ weeks week) as Hok. rewrite Ha, Hr in Hok.
  destruct (resolve_date_window start end_ weeks week) as [[s e]|] eqn:E; [|done].
  exists s, e. split; [done|]. by eapply resolve_ordered.
Qed.

(** C7, as the code has it by design. [resolve_date_window] raises
    [ValueError] when neither a start date nor a week number is supplied,
    when the week number is below 1, when a start date comes with neither
    an end date nor a week count, and when the week count after a start
    date is below 1; the error of a date string that does not parse
    propagates; and an accepted combination whose dates do not all exist
    raises [OverflowError]. Otherwise a window is returned: for a week
    number, and for a start date with a week count, one with
    [start <= end]; for a start date and an end date not before it, the two
    dates. *)
Theorem C7_window_failures :
  (∀ start end_ weeks week,
     truthy start = false → truthy_int week = false →
     resolve_date_window start end_ weeks week
     = Raise (ValueError (lit
         "Must specify either (--start and --end|--weeks) or (--week [--weeks])")))
  ∧ (∀ start end_ weeks N,
       truthy start = false → N < 1 → N ≠ 0 →
       resolve_date_window start end_ weeks (Some N)
       = Raise (ValueError (lit "--week must be " ++ [GE_SIGN] ++ lit " 1")))
  ∧ (∀ start end_ weeks week start_d,
       truthy start = true → date_fromisoformat (oget start) = Ok start_d →
       truthy end_ = false → truthy_int weeks = false →
       resolve_date_window start end_ weeks week
       = Raise (ValueError (lit "Must specify either --end or --weeks with --start")))
  ∧ (∀ start end_ week m start_d,
       truthy start = true → date_fromisoformat (oget start) = Ok start_d →
       truthy end_ = false → m < 1 → m ≠ 0 →
       resolve_date_window start end_ (Some m) week
       = Raise (ValueError (lit "--weeks must be " ++ [GE_SIGN] ++ lit " 1")))
  ∧ (∀ start end_ weeks week e,
       truthy start = true → date_fromisoformat (oget start) = Raise e →
       resolve_date_window start end_ weeks week = Raise e)
  ∧ (∀ start end_ weeks week start_d e,
       truthy start = true → date_fromisoformat (oget start) = Ok start_d →
       truthy end_ = true → date_fromisoformat (oget end_) = Raise e →
       resolve_date_window start end_ weeks week = Raise e)
  ∧ (∀ start end_ weeks week,
       window_args_ok start end_ weeks week = true →
       window_in_range start end_ weeks week = false →
       resolve_date_window start end_ weeks week = Raise OverflowError)
  ∧ (∀ start end_ weeks week,
       window_args_ok start end_ weeks week = true →
       window_in_range start end_ weeks week = true →
       truthy start && truthy end_ = false →
       ∃ s e, resolve_date_window start end_ weeks week = Ok (s, e) ∧ s <= e)
  ∧ (∀ start end_ weeks week start_d end_d,
       truthy start = true → truthy end_ = true →
       date_fromisoformat (oget start) = Ok start_d →
       date_fromisoformat (oget end_) = Ok end_d → start_d <= end_d →
       resolve_date_window start end_ weeks week = Ok (start_d, end_d))
  ∧ (∀ start end_ weeks week s e,
       resolve_date_window start end_ weeks week = Ok (s, e) →
       truthy start && truthy end_ = false → s <= e).
Proof.
  repeat apply conj.
  - apply resolve_neither.
  - apply resolve_week_below.
  - apply resolve_start_alone.
  - apply resolve_weeks_below.
  - apply resolve_start_unparsed.
  - apply resolve_end_unparsed.
  - apply resolve_out_of_range.
  - apply resolve_in_range.
  - intros start end_ weeks week start_d end_d Hs He Hsd Hed _.
    by apply resolve_explicit.
  - apply resolve_ordered.
Qed.

End WindowFailures.

(** Five weeks from 2025-02-01 on the concrete runtime: the window is
    returned and is ordered. *)
Lemma C7_window_failures_witness :
  ∃ s e, Helper.resolve_date_window (rt := AsciiRuntime.runtime)
           (Some (PyStr.lit "2025-02-01")) None (Some 5) None = Ok (s, e)
         ∧ s <= e.
Proof.
  pose proof (C7_window_failures (rt := AsciiRuntime.runtime))
    as (_ & _ & _ & _ & _ & _ & _ & H & _).
  apply H; reflexivity.
Defined.

(** The claim fails on a week number below 1 and on a start date alone: a
    week number, or a start date, is supplied and no end date precedes the
    start, and the call raises. *)
Lemma C7_counterexample :
  Helper.resolve_date_window (rt := AsciiRuntime.runtime) None None None (Some (-1))
  = Raise (ValueError (PyStr.lit "--week must be " ++ [PyStr.GE_SIGN] ++ PyStr.lit " 1"))
  ∧ Helper.resolve_date_window (rt := AsciiRuntime.runtime)
      (Some (PyStr.lit "2025-02-01")) None None None
    = Raise (ValueError (PyStr.lit "Must specify either --end or --weeks with --start")).
Proof. split; reflexivity. Qed.

(** An end date before the start date is not refused: the two dates come
    back as they are. *)
Lemma resolve_end_before_start :
  Helper.resolve_date_window (rt := AsciiRuntime.runtime)
    (Some (PyStr.lit "2025-02-01")) (Some (PyStr.lit "2025-01-01")) None None
  = Ok (ymd2ord 2025 2 1, ymd2ord 2025 1 1)
  ∧ ymd2ord 2025 1 1 < ymd2ord 2025 2 1.
Proof. split; [reflexivity|]. vm_compute. reflexivity. Qed.

(** ** The writer's week buckets against the resolver *)

Section WeekBuckets.
Context {rt : PyRuntime}.
Import PyStr Helper Writer.

Lemma resolve_week_inv (N : Z) (s e : date) :
  2 <= N → resolve_date_window None None None (Some N) = Ok (s, e) →
  s = FIRST_SATURDAY + 7 * (N - 2) ∧ e = s + 6 ∧ e <= MAXORDINAL.
Proof.
  intros HN. unfold resolve_date_window, truthy, truthy_int, default, from_option, id.
  destruct (Z.eqb_spec N 0); [lia|]. simpl negb. cbv iota.
  destruct (Z.ltb_spec N 1); [lia|].
  destruct (Z.eqb_spec N 1); [lia|].
  destruct (add_days FIRST_SATURDAY _) as [sd|] eqn:E1; [|discriminate].
  simpl. destruct (add_days sd 6) as [ed|] eqn:E2; [|discriminate].
  apply add_days_inv in E1 as (-> & _ & _).
  apply add_days_inv in E2 as (-> & [_ Hhi] & _).
  simpl. intros [= <- <-]. repeat split; lia.
Qed.

Lemma dc_week_for_none (d : date) :
  dc_week_for d = Ok None ↔ d < ymd2ord 2025 1 20.
Proof.
  unfold dc_week_for. change _ANCHOR_W1_START with (ymd2ord 2025 1 20).
  destruct (Z.ltb_spec d (ymd2ord 2025 1 20)); [by split|].
  split; [|lia].
  destruct (d <=? _ANCHOR_W1_END); [discriminate|].
  destruct (add_days _ANCHOR_W2_START _); [|discriminate].
  simpl. by destruct (add_days _ 6).
Qed.

(** C10. The writer's week bucket of a date agrees with the resolver: a date
    inside the window resolved for week [N] falls in week [N], with that
    window as its bounds; and no bucket is returned exactly before
    2025-01-20. *)
Theorem C10_dc_week_for_agrees :
  (∀ (N : Z) (s e d : date),
     1 <= N → resolve_date_window None None None (Some N) = Ok (s, e) →
     s <= d <= e → dc_week_for d = Ok (Some (N, s, e)))
  ∧ (∀ d : date, dc_week_for d = Ok None ↔ d < ymd2ord 2025 1 20).
Proof.
  split; [|apply dc_week_for_none].
  intros N s e d HN Hr Hd. destruct anchors as (HI & HF & HS & H1 & H2 & H3).
  destruct (Z.eq_dec N 1) as [->|Hne].
  - revert Hr. change (resolve_date_window None None None (Some 1))
      with (Ok (INAUGURATION_DAY, FIRST_FRIDAY)).
    intros [= <- <-]. unfold dc_week_for. rewrite H1, H2, HI, HF in *.
    destruct (Z.ltb_spec d 739271); [lia|].
    destruct (Z.leb_spec d 739275); [reflexivity|lia].
  - apply resolve_week_inv in Hr as (-> & -> & Hmax); [|lia].
    unfold dc_week_for, days_between. rewrite H1, H2, H3, HS in *.
    unfold MAXORDINAL in Hmax.
    destruct (Z.ltb_spec d 739271); [lia|].
    destruct (Z.leb_spec d 739275); [lia|].
    assert ((d - 739276) / 7 = N - 2) as ->.
    { symmetry. apply (Z.div_unique_pos _ 7 _ (d - 739276 - 7 * (N - 2))); lia. }
    rewrite add_days_ok by (unfold MINORDINAL, MAXORDINAL; lia).
    simpl. rewrite add_days_ok by (unfold MINORDINAL, MAXORDINAL; lia).
    simpl. replace (2 + (N - 2)) with N by lia. reflexivity.
Qed.

End WeekBuckets.

(** 2025-02-05 lies in the window of week 3. *)
Lemma C10_dc_week_for_agrees_witness :
  Writer.dc_week_for (ymd2ord 2025 2 5)
  = Ok (Some (3, ymd2ord 2025 2 1, ymd2ord 2025 2 7)).
Proof.
  pose proof (C10_dc_week_for_agrees (rt := AsciiRuntime.runtime)) as [H _].
  apply (H 3); [lia | reflexivity | vm_compute; split; discriminate].
Defined.

(** ** Code-point order on strings *)

Section StrOrder.
Import PyStr.

Lemma eqb_eq (x y : str) : eqb x y = true ↔ x = y.
Proof.
  revert y. induction x as [|a x IH]; intros [|b y]; simpl; try (split; congruence).
  rewrite andb_true_iff, N.eqb_eq, IH. split; [intros [-> ->]|intros [= -> ->]]; done.
Qed.

Lemma compare_refl (x : str) : compare x x = Eq.
Proof. induction x as [|a x IH]; simpl; [done|]. by rewrite N.compare_refl. Qed.

Lemma compare_eq (x y : str) : compare x y = Eq → x = y.
Proof.
  revert y. induction x as [|a x IH]; intros [|b y]; simpl; try done.
  destruct (N.compare_spec a b); try done. intros ?%IH. by subst.
Qed.

Lemma compare_antisym (x y : str) : compare y x = CompOpp (compare x y).
Proof.
  revert y. induction x as [|a x IH]; intros [|b y]; simpl; try done.
  rewrite (N.compare_antisym a b). destruct (a ?= b)%N; simpl; auto.
Qed.

Lemma compare_lt_trans (x y z : str) :
  compare x y = Lt → compare y z = Lt → compare x z = Lt.
Proof.
  revert y z. induction x as [|a x IH]; intros [|b y] [|c z]; simpl; try done.
  destruct (N.compare_spec a b), (N.compare_spec b c); try done; subst.
  - rewrite N.compare_refl. apply IH.
  - intros _ _. by rewrite (proj2 (N.compare_lt_iff _ _)).
  - intros _ _. by rewrite (proj2 (N.compare_lt_iff _ _)).
  - intros _ _. rewrite (proj2 (N.compare_lt_iff a c)); [done|lia].
Qed.

Lemma compare_gt_lt (x y : str) : compare x y = Gt ↔ compare y x = Lt.
Proof. rewrite (compare_antisym x y). destruct (compare x y); simpl; split; congruence. Qed.

End StrOrder.

(** ** The master sort *)

Section MasterSort.
Context {rt : PyRuntime}.
Import PyStr Writer.

Lemma key_lt_spec (a b : key) : Writer.key_lt a b = true ↔ Spec.key_lt a b.
Proof.
  destruct a as [[[d1 c1] s1] t1], b as [[[d2 c2] s2] t2].
  unfold Writer.key_lt, Spec.key_lt, Spec.str_lt.
  destruct (Z.ltb_spec d1 d2); [split; auto|].
  destruct (Z.ltb_spec d2 d1); [split; [done|intros [?|[? _]]; lia]|].
  destruct (Nat.ltb_spec c1 c2); [split; [intros _; right; split; [lia|auto]|done]|].
  destruct (Nat.ltb_spec c2 c1);
    [split; [done|intros [?|[_ [?|[? _]]]]; lia]|].
  destruct (compare s1 s2) eqn:Es.
  - apply compare_eq in Es as ->.
    destruct (compare t1 t2) eqn:Et; (split;
      [first [done | intros _; right; split; [lia|]; right; split; [lia|]; right; by split]
      |intros [?|[_ [?|[_ [Hs|[_ ?]]]]]]; first [lia | done |
       rewrite compare_refl in Hs; done]]).
  - split; [intros _|done]. right. split; [lia|]. right. split; [lia|]. by left.
  - split; [done|]. intros [?|[_ [?|[_ [?|[-> _]]]]]]; try lia; try congruence.
    by rewrite compare_refl in Es.
Qed.

Lemma key_le_spec (a b : key) : Writer.key_lt b a = false ↔ Spec.key_le a b.
Proof.
  destruct a as [[[d1 c1] s1] t1], b as [[[d2 c2] s2] t2].
  unfold Writer.key_lt, Spec.key_le, Spec.str_lt, Spec.str_le.
  destruct (Z.ltb_spec d2 d1); [split; [done|intros [?|[? _]]; lia]|].
  destruct (Z.ltb_spec d1 d2); [split; auto|].
  destruct (Nat.ltb_spec c2 c1);
    [split; [done|intros [?|[_ [?|[? _]]]]; lia]|].
  destruct (Nat.ltb_spec c1 c2); [split; [intros _; right; split; [lia|auto]|done]|].
  rewrite (compare_antisym s1 s2).
  destruct (compare s1 s2) eqn:Es; simpl.
  - apply compare_eq in Es as ->. rewrite (compare_antisym t1 t2).
    destruct (compare t1 t2) eqn:Et; simpl; (split;
      [first [done | intros _; right; split; [lia|]; right; split; [lia|]; right; by split]
      |intros [?|[_ [?|[_ [Hs|[_ ?]]]]]]; first [lia | done |
       rewrite compare_refl in Hs; done]]).
  - split; [intros _|done]. right. split; [lia|]. right. split; [lia|]. by left.
  - split; [done|]. intros [?|[_ [?|[_ [?|[-> _]]]]]]; try lia; try congruence.
    by rewrite compare_refl in Es.
Qed.

Lemma key_lt_le (a b : key) : Spec.key_lt a b → Spec.key_le a b.
Proof.
  destruct a as [[[d1 c1] s1] t1], b as [[[d2 c2] s2] t2].
  unfold Spec.key_lt, Spec.key_le, Spec.str_lt, Spec.str_le.
  intros [?|[? [?|[? [?|[? Ht]]]]]]; auto 10. right. split; [done|]. right.
  split; [done|]. right. split; [done|]. by rewrite Ht.
Qed.

Lemma key_le_lt_false (a b : key) : Spec.key_le a b → Spec.key_lt b a → False.
Proof.
  intros Hle%key_le_spec Hlt%key_lt_spec. congruence.
Qed.

Lemma str_le_trans (x y z : str) : Spec.str_le x y → Spec.str_le y z → Spec.str_le x z.
Proof.
  unfold Spec.str_le. intros Hxy Hyz Hxz.
  destruct (compare x y) eqn:E1; [|clear Hxy|done].
  - apply compare_eq in E1 as ->. done.
  - destruct (compare y z) eqn:E2; [|clear Hyz|done].
    + apply compare_eq in E2 as ->. congruence.
    + rewrite (compare_lt_trans _ _ _ E1 E2) in Hxz. done.
Qed.

Lemma key_le_trans (a b c : key) : Spec.key_le a b → Spec.key_le b c → Spec.key_le a c.
Proof.
  destruct a as [[[d1 c1] s1] t1], b as [[[d2 c2] s2] t2], c as [[[d3 c3] s3] t3].
  unfold Spec.key_le, Spec.str_lt.
  intros [?|[-> [?|[-> [Hs|[-> Ht]]]]]] [?|[<- [?|[<- [Hs'|[<- Ht']]]]]];
    try (left; lia); try (right; split; [done|]; left; lia);
    right; (split; [done|]); right; (split; [done|]).
  - left. eapply compare_lt_trans; eassumption.
  - by left.
  - by left.
  - right. split; [done|]. eapply str_le_trans; eassumption.
Qed.

(** The stable insertion sort permutes and sorts. *)
Lemma insert_by_perm {A} (lt : A → A → bool) (x : A) (l : list A) :
  Permutation (insert_by lt x l) (x :: l).
Proof.
  induction l as [|y l IH]; simpl; [done|].
  destruct (lt y x); [|done]. rewrite IH. apply perm_swap.
Qed.

Lemma sort_by_perm {A} (lt : A → A → bool) (l : list A) :
  Permutation (sort_by lt l) l.
Proof.
  induction l as [|x l IH]; simpl; [done|].
  rewrite insert_by_perm. by constructor.
Qed.

Lemma sort_rows_perm (rows : list EventRow) : Permutation (sort_rows rows) rows.
Proof. apply sort_by_perm. Qed.

Lemma insert_by_sorted {A} (lt : A → A → bool) (le : A → A → Prop) :
  (∀ a b, lt a b = true → le a b) → (∀ a b, lt b a = false → le a b) →
  (∀ a b c, le a b → le b c → le a c) →
  ∀ x l, StronglySorted le l → StronglySorted le (insert_by lt x l).
Proof.
  intros Hlt Hge Htr x l. induction 1 as [|y l Hl IH Hy]; simpl; [repeat constructor|].
  destruct (lt y x) eqn:E.
  - constructor; [done|].
    rewrite (insert_by_perm _ x l). constructor; [by apply Hlt|done].
  - assert (le x y) as Hxy by (by apply Hge).
    constructor; [by constructor|]. constructor; [done|].
    eapply Forall_impl; [exact Hy|]. intros z Hz. by eapply Htr.
Qed.

Lemma sort_by_sorted {A} (lt : A → A → bool) (le : A → A → Prop) :
  (∀ a b, lt a b = true → le a b) → (∀ a b, lt b a = false → le a b) →
  (∀ a b c, le a b → le b c → le a c) →
  ∀ l, StronglySorted le (sort_by lt l).
Proof.
  intros Hlt Hge Htr l. unfold sort_by.
  induction l as [|x l IH]; simpl; [constructor|]. by apply insert_by_sorted.
Qed.

Lemma sort_rows_sorted (rows : list EventRow) :
  StronglySorted Spec.row_le (sort_rows rows).
Proof.
  apply sort_by_sorted.
  - intros a b E. by apply key_lt_le, key_lt_spec.
  - intros a b E. by apply key_le_spec.
  - intros a b c. apply key_le_trans.
Qed.

Lemma cat_rank_known (i : nat) (c : str) :
  CATEGORY_ORDER !! i = Some c → (_cat_rank c).1 = i.
Proof.
  intros Hi.
  do 12 (destruct i as [|i]; [injection Hi as <-; reflexivity|]).
  discriminate.
Qed.

Lemma index_of_None (x : str) (xs : list str) : x ∉ xs → index_of x xs = None.
Proof.
  induction xs as [|y xs IH]; simpl; [done|]. intros Hx.
  destruct (eqb x y) eqn:E.
  - apply eqb_eq in E as ->. destruct Hx. constructor.
  - rewrite IH; [done|]. intros ?. apply Hx. by constructor.
Qed.

Lemma cat_rank_unknown (c : str) :
  c ≠ [] → c ∉ CATEGORY_ORDER → (_cat_rank c).1 = 12%nat.
Proof.
  intros Hc Hn. unfold _cat_rank. destruct c; [done|]. simpl negb. cbv iota.
  by rewrite index_of_None.
Qed.

(** A list sorted for [le] that permutes a list strictly sorted for [lt]
    is that list. *)
Lemma sorted_unique {A} (le lt : A → A → Prop) :
  (∀ a b, le a b → lt b a → False) →
  ∀ l l', Permutation l l' → StronglySorted le l → StronglySorted lt l' → l = l'.
Proof.
  intros Hne l. induction l as [|x l IH]; intros l' Hp Hl Hl'.
  - by apply Permutation_nil in Hp.
  - destruct l' as [|y l']; [by apply Permutation_sym, Permutation_nil in Hp|].
    apply StronglySorted_inv in Hl as [Hl Hx].
    apply StronglySorted_inv in Hl' as [Hl' Hy].
    assert (x = y) as ->.
    { assert (In x (y :: l')) as [<-|Hin] by (eapply Permutation_in; [exact Hp|by left]);
        [done|].
      assert (In y (x :: l)) as [<-|Hin'] by
        (eapply Permutation_in; [apply Permutation_sym, Hp|by left]); [done|].
      rewrite Forall_forall in Hx, Hy.
      destruct (Hne x y); [apply Hx|apply Hy]; by apply list_elem_of_In. }
    f_equal. apply IH; [by eapply Permutation_cons_inv|done|done].
Qed.

Lemma sort_rows_three (r1 r2 r3 : EventRow) (input : list EventRow) :
  date_obj r1 = Some (ymd2ord 2025 2 1) →
  date_obj r2 = Some (ymd2ord 2025 2 3) →
  date_obj r3 = None →
  Permutation input [r1; r2; r3] →
  sort_rows input = [r1; r2; r3].
Proof.
  intros H1 H2 H3 Hp.
  apply (sorted_unique Spec.row_le
           (λ a b, Spec.key_lt (sort_key a) (sort_key b))).
  - intros a b. apply key_le_lt_false.
  - by rewrite sort_rows_perm.
  - apply sort_rows_sorted.
  - repeat first [apply SSorted_cons | apply SSorted_nil
                 | apply Forall_cons_2 | apply Forall_nil_2];
      unfold sort_key, Spec.key_lt; rewrite ?H1, ?H2, ?H3; cbv beta iota;
      left; reflexivity.
Qed.

Lemma sort_rows_nodate_last (rows l1 l2 : list EventRow) (a b : EventRow) (d : date) :
  sort_rows rows = l1 ++ a :: l2 → b ∈ l2 →
  date_obj a = None → date_obj b = Some d → date_max <= d.
Proof.
  intros Hs Hb Ha Hd. pose proof (sort_rows_sorted rows) as Hsorted.
  rewrite Hs in Hsorted. apply StronglySorted_app_1_r in Hsorted.
  apply StronglySorted_inv in Hsorted as [_ Hall].
  rewrite Forall_forall in Hall. specialize (Hall b Hb).
  unfold Spec.row_le, sort_key in Hall. rewrite Ha, Hd in Hall. simpl in Hall.
  destruct Hall as [?|[? _]]; lia.
Qed.

(** C2. The master merge sorts the rows by the key (date, category rank,
    source key, title): the result is a permutation of the rows, in
    ascending key order, keys compared lexicographically. A row without a
    date takes the key [date.max], so no row dated before it comes after
    such a row; the twelve canonical categories rank 0 to 11 in their fixed
    order and any other non-empty category ranks 12; source key and title
    are compared lower-cased, in code-point order. Rows dated 2025-02-01,
    2025-02-03 and undated come out in that order whatever their order
    going in. *)
Theorem C2_master_sort :
  (∀ rows, Permutation (sort_rows rows) rows
           ∧ StronglySorted Spec.row_le (sort_rows rows))
  ∧ (∀ ev, sort_key ev = (default date_max (date_obj ev), (_cat_rank (category ev)).1,
                          str_lower (source_key ev), str_lower (title ev)))
  ∧ (∀ rows l1 l2 a b d,
       sort_rows rows = l1 ++ a :: l2 → b ∈ l2 →
       date_obj a = None → date_obj b = Some d → date_max <= d)
  ∧ (length CATEGORY_ORDER = 12%nat
     ∧ (∀ i c, CATEGORY_ORDER !! i = Some c → (_cat_rank c).1 = i)
     ∧ (∀ c, c ≠ [] → c ∉ CATEGORY_ORDER → (_cat_rank c).1 = 12%nat))
  ∧ (∀ r1 r2 r3 input,
       date_obj r1 = Some (ymd2ord 2025 2 1) →
       date_obj r2 = Some (ymd2ord 2025 2 3) →
       date_obj r3 = None →
       Permutation input [r1; r2; r3] →
       sort_rows input = [r1; r2; r3]).
Proof.
  split; [intros rows; split; [apply sort_rows_perm|apply sort_rows_sorted]|].
  split; [done|]. split; [apply sort_rows_nodate_last|].
  split; [|apply sort_rows_three].
  split; [done|]. split; [apply cat_rank_known|apply cat_rank_unknown].
Qed.

End MasterSort.

(** Three rows, undated first going in. *)
Lemma C2_master_sort_witness :
  let r1 := Examples.row_example (Some (ymd2ord 2025 2 1)) "Judicial Developments" "b" in
  let r2 := Examples.row_example (Some (ymd2ord 2025 2 3)) "Executive Actions & Orders" "a" in
  let r3 := Examples.row_example None "Executive Actions & Orders" "A" in
  Writer.sort_rows (rt := AsciiRuntime.runtime) [r3; r1; r2] = [r1; r2; r3].
Proof.
  intros r1 r2 r3.
  pose proof (C2_master_sort (rt := AsciiRuntime.runtime)) as (_ & _ & _ & _ & H).
  apply H; [reflexivity..|].
  apply Permutation_sym. change [r3; r1; r2] with ([r3] ++ [r1; r2]).
  apply (Permutation_app_comm [r1; r2] [r3]).
Defined.

(** ** Stripping *)

Section Stripping.
Import PyStr Spec.

Lemma drop_while_all (p : char → bool) (x : str) :
  forallb p x = true → drop_while p x = [].
Proof.
  induction x as [|c x IH]; simpl; [done|].
  intros [-> ?]%andb_prop. auto.
Qed.

Lemma drop_while_nil (p : char → bool) (x : str) :
  drop_while p x = [] → forallb p x = true.
Proof.
  induction x as [|c x IH]; simpl; [done|].
  destruct (p c); [auto|done].
Qed.

Lemma drop_while_head (p : char → bool) (c : char) (x : str) :
  p c = false → drop_while p (c :: x) = c :: x.
Proof. intros Hc. simpl. by rewrite Hc. Qed.

Lemma drop_while_app (p : char → bool) (a b : str) :
  forallb p a = true → drop_while p (a ++ b) = drop_while p b.
Proof.
  induction a as [|c a IH]; simpl; [done|].
  intros [-> ?]%andb_prop. auto.
Qed.

Lemma drop_while_suffix (p : char → bool) (x : str) :
  ∃ a, x = a ++ drop_while p x ∧ forallb p a = true.
Proof.
  induction x as [|c x (a & Ha & Hp)]; simpl; [by exists []|].
  destruct (p c) eqn:E.
  - exists (c :: a). simpl. rewrite E, Hp. split; [by f_equal|done].
  - by exists [].
Qed.

Lemma drop_while_head_not (p : char → bool) (x : str) (c : char) (y : str) :
  drop_while p x = c :: y → p c = false.
Proof.
  induction x as [|d x IH]; simpl; [done|].
  destruct (p d) eqn:E; [auto|]. by intros [= <- <-].
Qed.

Lemma forallb_rev (p : char → bool) (x : str) : forallb p (rev x) = forallb p x.
Proof.
  induction x as [|c x IH]; simpl; [done|].
  rewrite forallb_app, IH. simpl. rewrite andb_true_r. apply andb_comm.
Qed.

Lemma lstrip_id (x : str) :
  match x with [] => True | c :: _ => is_space c = false end → lstrip x = x.
Proof. destruct x as [|c x]; [done|]. intros Hc. by apply drop_while_head. Qed.

Lemma rstrip_snoc (x : str) (d : char) : is_space d = false → rstrip (x ++ [d]) = x ++ [d].
Proof.
  intros Hd. unfold rstrip. rewrite rev_app_distr. simpl.
  rewrite Hd. simpl. by rewrite rev_involutive.
Qed.

Lemma strip_trimmed (x : str) : trimmed x → strip x = x.
Proof.
  destruct x as [|c x]; [done|]. intros [Hc (x' & d & Hx & Hd)].
  unfold strip. rewrite lstrip_id by done. rewrite Hx. by apply rstrip_snoc.
Qed.

Lemma rstrip_spec (x : str) :
  ∃ r, x = rstrip x ++ r ∧ forallb is_space r = true
       ∧ (rstrip x = [] ∨ ∃ x' d, rstrip x = x' ++ [d] ∧ is_space d = false).
Proof.
  unfold rstrip. destruct (drop_while_suffix is_space (rev x)) as (a & Ha & Hp).
  exists (rev a). split; [|split].
  - rewrite <- rev_app_distr, <- Ha. by rewrite rev_involutive.
  - by rewrite forallb_rev.
  - destruct (drop_while is_space (rev x)) as [|d y] eqn:E; [by left|].
    right. exists (rev y), d. split; [done|]. by eapply drop_while_head_not.
Qed.

Lemma strip_spec (x : str) :
  ∃ l r, x = l ++ strip x ++ r ∧ forallb is_space l = true
         ∧ forallb is_space r = true ∧ trimmed (strip x).
Proof.
  destruct (drop_while_suffix is_space x) as (l & Hl & Hpl).
  destruct (rstrip_spec (lstrip x)) as (r & Hr & Hpr & Hlast).
  exists l, r. unfold strip. split; [|split; [done|split; [done|]]].
  - rewrite <- Hr. exact Hl.
  - unfold lstrip in *. destruct (drop_while is_space x) as [|c y] eqn:E; [done|].
    apply drop_while_head_not in E.
    destruct (rstrip (c :: y)) as [|c' y'] eqn:E'.
    + simpl in Hr. subst r. simpl in Hpr. by rewrite E in Hpr.
    + simpl in Hr. injection Hr as <- _. split; [done|].
      by destruct Hlast as [?|?].
Qed.


Lemma forallb_space_strip (x : str) : forallb is_space x = true → strip x = [].
Proof.
  intros H. unfold strip, lstrip. by rewrite (drop_while_all _ _ H).
Qed.

Lemma strip_nil_forallb (x : str) : strip x = [] → forallb is_space x = true.
Proof.
  intros H. destruct (strip_spec x) as (l & r & Hx & Hl & Hr & _).
  rewrite H in Hx. rewrite Hx. simpl. rewrite forallb_app. by rewrite Hl, Hr.
Qed.

Lemma startswith_app (p x : str) : startswith p (p ++ x) = true.
Proof. induction p as [|a p IH]; simpl; [done|]. by rewrite N.eqb_refl. Qed.

Lemma startswith_inv (p x : str) : startswith p x = true → ∃ y, x = p ++ y.
Proof.
  revert x. induction p as [|a p IH]; intros x; simpl; [by exists x|].
  destruct x as [|b x]; [done|].
  intros [->%N.eqb_eq (y & ->)%IH]%andb_prop. by exists y.
Qed.

Lemma contains_inv (sub x : str) : contains sub x = true → ∃ a b, x = a ++ sub ++ b.
Proof.
  induction x as [|c x IH]; simpl.
  - rewrite orb_false_r. intros (y & Hy)%startswith_inv. exists [], y. done.
  - intros [(y & Hy)%startswith_inv|(a & b & ->)%IH]%orb_prop.
    + by exists [], y.
    + by exists (c :: a), b.
Qed.

Lemma contains_app (sub a b : str) : contains sub (a ++ sub ++ b) = true.
Proof.
  induction a as [|c a IH]; simpl.
  - destruct (sub ++ b) eqn:E; simpl; rewrite <- ?E, startswith_app; done.
  - rewrite IH. by rewrite orb_true_r.
Qed.

End Stripping.

(** ** The compliance scan and the retry decision *)

Section Compliance.
Context {rt : PyRuntime}.
Import PyStr PyRe Extractor Spec.

Lemma footer_not_blank (x : str) :
  contains (lit "[END OF LOG]") x = true → strip x ≠ [].
Proof.
  intros (a & b & ->)%contains_inv Hs%strip_nil_forallb.
  rewrite !forallb_app in Hs.
  apply andb_prop in Hs as [_ [Hs _]%andb_prop]. discriminate.
Qed.

Lemma scan_footer (text : str) :
  has_footer_end_of_log (_preparse_compliance_scan text)
  = contains (lit "[END OF LOG]") text.
Proof. unfold _preparse_compliance_scan. by destruct text. Qed.

(** The retry helper answers [false] exactly on the replies that pass the
    scan. *)
Lemma needs_schema_retry_spec (text : str) :
  _needs_schema_retry text = negb (scan_passes text).
Proof.
  unfold _needs_schema_retry, scan_passes.
  destruct text as [|c text]; [done|]. simpl nonempty. simpl negb at 1.
  rewrite orb_false_l.
  pose proof (scan_footer (c :: text)) as Hf.
  destruct (_preparse_compliance_scan (c :: text)) as [f t nc nw na nb].
  cbn [has_footer_end_of_log count_category_lines count_why_lines
       count_attacks_lines] in Hf |- *. subst f.
  destruct (nonempty (strip (c :: text))) eqn:E; simpl negb at 1; cbv iota.
  - destruct (contains _ _); [|done].
    destruct nc; [done|]. destruct nw; [done|]. by destruct na.
  - destruct (contains _ _) eqn:Ec; [|done].
    apply footer_not_blank in Ec. by destruct (strip (c :: text)).
Qed.

(** C4. [_needs_schema_retry] answers [true] on every reply that is empty
    or lacks the [[END OF LOG]] footer, and [false] on every reply that has
    the footer and for which the compliance scan counts at least one
    category line, one why-relevant line and one attacks line. *)
Theorem C4_needs_schema_retry (text : str) :
  (text = [] ∨ contains (lit "[END OF LOG]") text = false →
   _needs_schema_retry text = true)
  ∧ (let comp := _preparse_compliance_scan text in
     contains (lit "[END OF LOG]") text = true →
     (1 <= count_category_lines comp)%nat →
     (1 <= count_why_lines comp)%nat →
     (1 <= count_attacks_lines comp)%nat →
     _needs_schema_retry text = false).
Proof.
  rewrite needs_schema_retry_spec. unfold scan_passes. rewrite scan_footer. split.
  - intros [-> | ->]; done.
  - cbv zeta. intros Hf Hc Hw Ha. rewrite Hf.
    destruct (_preparse_compliance_scan text) as [f t nc nw na nb].
    cbn [count_category_lines count_why_lines count_attacks_lines] in *.
    destruct nc; [lia|]. destruct nw; [lia|]. destruct na; [lia|]. done.
Qed.

End Compliance.

(** A compliant log passes; cut before its footer it does not. *)
Lemma C4_needs_schema_retry_witness :
  Extractor._needs_schema_retry (rt := AsciiRuntime.runtime) Examples.compliant_log = false
  ∧ Extractor._needs_schema_retry (rt := AsciiRuntime.runtime)
      (take 150 Examples.compliant_log) = true.
Proof.
  split.
  - apply (C4_needs_schema_retry (rt := AsciiRuntime.runtime) Examples.compliant_log);
      vm_compute; first [reflexivity | discriminate | lia].
  - apply (C4_needs_schema_retry (rt := AsciiRuntime.runtime) (take 150 Examples.compliant_log)).
    right. reflexivity.
Defined.

(** ** The single retry of the extraction orchestrator *)

Section Orchestrator.
Context {rt : PyRuntime}.
Import PyStr Extractor Spec SpecCalls.




Lemma call_openai_trace (w : world) (messages : list message) (tr tr' : trace) res :
  call_openai w messages tr = (res, tr') → tr' = tr ∨ tr' = tr ++ [messages].
Proof.
  unfold call_openai. destruct (truthy (api_key w)); simpl.
  - destruct (completion _ _ _); intros [= _ <-]; auto.
  - intros [= _ <-]; auto.
Qed.








End Orchestrator.


(** ** Remote failures *)

Section RemoteFailures.
Context {rt : PyRuntime}.
Import PyStr Extractor Builder Spec SpecCalls.





Lemma select_indices_in_range (n : nat) (ids : list Z) (limit : option nat) (idx : nat) :
  idx ∈ select_indices n ids limit → (idx < n)%nat.
Proof.
  unfold select_indices.
  set (idxs := match ids with [] => seq 0 n | _ => _ end).
  assert (∀ i, i ∈ idxs → (i < n)%nat) as Hall.
  { subst idxs. intros i. destruct ids as [|z ids].
    - rewrite list_elem_of_In, in_seq. lia.
    - rewrite list_elem_of_In, in_map_iff.
      intros (j & <- & [_ Hj]%filter_In). lia. }
  destruct limit as [[|l]|]; auto.
  intros (i & Hi & _)%elem_of_take. apply Hall. by eapply list_elem_of_lookup_2.
Qed.







End RemoteFailures.



(** ** The window filter and its statistics *)

Section WindowStats.
Context {rt : PyRuntime}.
Import PyStr Docket Spec SpecStats.














End WindowStats.



(** ** The matcher *)

Section Matcher.
Import PyStr PyRe Spec.

Lemma prev_after_cons (prev : option char) (a : char) (p : str) :
  prev_after prev (a :: p) = prev_after (Some a) p.
Proof.
  unfold prev_after. destruct p as [|b p]; [done|]. rewrite last_cons_cons.
  destruct (last (b :: p)) eqn:E; [done|]. by apply last_None in E.
Qed.

Lemma startswith_split (p q x : str) :
  startswith (p ++ q) x = startswith p x && startswith q (drop (length p) x).
Proof.
  revert x. induction p as [|a p IH]; intros x; simpl; [done|].
  destruct x as [|b x]; [done|]. rewrite IH. by rewrite andb_assoc.
Qed.

Lemma startswith_drop (p x : str) : startswith p x = true → x = p ++ drop (length p) x.
Proof.
  intros (y & ->)%startswith_inv. by rewrite drop_app_length.
Qed.

(** A literal of a case-sensitive pattern reads exactly itself. *)
Lemma m_Str (f : flags) (p : str) (k : kont) prev (x : str) (cs : caps) :
  ignorecase f = false →
  m f (Str f p) k prev x cs
  = if startswith p x then k (prev_after prev p) (drop (length p) x) cs else None.
Proof.
  intros Hf. revert prev x. induction p as [|a p IH]; intros prev x; [done|].
  cbn [Str m]. destruct x as [|b x]; [done|]. unfold chr_of. rewrite Hf.
  cbn [startswith]. destruct (a =? b)%N eqn:E; [|done].
  apply N.eqb_eq in E as <-. rewrite IH. simpl andb. by rewrite prev_after_cons.
Qed.

(** Under a continuation that accepts everywhere, a greedy run is the
    longest one. *)
Lemma star_m_total (p : char → bool) (k : kont) prev (x : str) (cs : caps) :
  (∀ prev' x' cs', is_Some (k prev' x' cs')) →
  star_m p k prev x cs = k (star_prev p prev x) (drop_while p x) cs.
Proof.
  intros Hk. revert prev. induction x as [|c x IH]; intros prev; simpl; [done|].
  destruct (p c); [|done]. rewrite IH. by destruct (Hk (star_prev p (Some c) x)
    (drop_while p x) cs) as [r ->].
Qed.

(** A greedy run stops at the first character outside the class when the
    rest of the pattern matches there. *)
Lemma star_m_run (p : char → bool) (k : kont) prev (run rest : str) (cs : caps) r :
  forallb p run = true →
  k (prev_after prev run) rest cs = Some r →
  match rest with [] => True | c :: _ => p c = false end →
  star_m p k prev (run ++ rest) cs = Some r.
Proof.
  revert prev. induction run as [|c run IH]; intros prev Hrun Hk Hrest.
  - simpl. destruct rest as [|c rest]; [done|]. simpl. by rewrite Hrest.
  - simpl in Hrun |- *. apply andb_prop in Hrun as [-> Hrun].
    rewrite prev_after_cons in Hk. by rewrite (IH _ Hrun Hk Hrest).
Qed.

Lemma take_drop_while (p : char → bool) (x : str) :
  take_while p x ++ drop_while p x = x.
Proof.
  induction x as [|c x IH]; simpl; [done|]. destruct (p c); simpl; [by f_equal|done].
Qed.

Lemma take_while_all (p : char → bool) (x : str) : forallb p (take_while p x) = true.
Proof.
  induction x as [|c x IH]; simpl; [done|]. destruct (p c) eqn:E; simpl; [|done].
  by rewrite E.
Qed.

(** What has been read, from the lengths. *)
Lemma take_consumed (a b : str) : take (length (a ++ b) - length b) (a ++ b) = a.
Proof.
  rewrite length_app. replace (length a + length b - length b)%nat with (length a) by lia.
  by rewrite take_app_length.
Qed.


(** The first match is the leftmost one. *)
Lemma search_go_step (f : flags) (r : re) (pos : nat) prev (x : str) :
  head (finditer_go f r pos 0 prev x)
  = match m f r accept prev x [] with
    | Some (rest, cs) =>
        Some {| m_start := pos; m_end := pos + (length x - length rest); m_caps := cs |}
    | None =>
        match x with
        | c :: x' => head (finditer_go f r (S pos) 0 (Some c) x')
        | [] => None
        end
    end.
Proof.
  destruct x as [|c x]; simpl; by destruct (m f r accept prev _ []) as [[rest cs]|].
Qed.

End Matcher.

(** ** URL tokens *)

Section UrlTokens.
Context {rt : PyRuntime}.
Import PyStr PyRe BuilderHelper Spec.

Lemma plus_not_space_accept (k : kont) prev (z : str) (cs : caps) :
  (∀ prev' x' cs', is_Some (k prev' x' cs')) →
  m NOFLAGS (Plus not_space) k prev z cs
  = if nonempty (take_while not_space z)
    then k (star_prev not_space prev z) (drop_while not_space z) cs
    else None.
Proof.
  intros Hk. unfold Plus. cbn [m]. destruct z as [|c z]; [done|]. simpl.
  destruct (not_space c); [|done]. simpl. by apply star_m_total.
Qed.

(** At one position, the URL pattern reads exactly a URL token. *)
Lemma url_re_at prev (x : str) :
  m NOFLAGS URL_RE accept prev x []
  = match url_token_at x with
    | Some tok => Some (drop (length tok) x, [(1%nat, tok)])
    | None => None
    end.
Proof.
  unfold URL_RE. cbn [m seqs].
  set (K := λ (prev' : option char) (x' : str) (cs' : caps),
              accept prev' x' ((1%nat, take (length x - length x') x) :: cs')).
  assert (∀ prev' x' cs', is_Some (K prev' x' cs')) as HK by (intros; by eexists).
  rewrite m_Str by done. unfold url_token_at.
  change (lit "https://") with (lit "http" ++ lit "s://").
  change (lit "http://") with (lit "http" ++ lit "://").
  rewrite !startswith_split.
  destruct (startswith (lit "http") x) eqn:Eh; [|done]. cbn [andb].
  apply startswith_drop in Eh.
  remember (drop (length (lit "http")) x) as y eqn:Hy. clear Hy.
  cbn [m]. rewrite !m_Str by done.
  destruct y as [|c y']; [done|].
  destruct (N.eqb_spec 115 c) as [<-|Hc].
  - (* https *)
    change (startswith (lit "s://") (115%N :: y')) with (startswith (lit "://") y').
    replace (startswith (lit "://") (115%N :: y')) with false by reflexivity.
    rewrite m_Str by done.
    destruct (startswith (lit "://") y') eqn:Es; [|done].
    apply startswith_drop in Es.
    remember (drop (length (lit "://")) y') as z eqn:Hz. clear Hz.
    rewrite plus_not_space_accept by done.
    replace (drop 8 x) with z by (rewrite Eh, Es; reflexivity).
    destruct (nonempty (take_while not_space z)) eqn:En; [|done].
    unfold K, accept. f_equal.
    assert (x = (take 8 x ++ take_while not_space z) ++ drop_while not_space z) as Hx.
    { rewrite <- app_assoc, take_drop_while.
      replace (take 8 x) with (lit "https://") by (rewrite Eh, Es; reflexivity).
      rewrite Eh, Es. reflexivity. }
    f_equal.
    + rewrite Hx at 2. by rewrite drop_app_length.
    + f_equal. f_equal. rewrite Hx at 1 2. apply take_consumed.
  - (* http *)
    change (startswith (lit "s://") (c :: y'))
      with ((115 =? c)%N && startswith (lit "://") y').
    rewrite (proj2 (N.eqb_neq _ _) Hc). cbn [andb].
    destruct (startswith (lit "://") (c :: y')) eqn:Es; [|done].
    apply startswith_drop in Es.
    remember (drop (length (lit "://")) (c :: y')) as z eqn:Hz. clear Hz.
    rewrite plus_not_space_accept by done.
    replace (drop 7 x) with z by (rewrite Eh, Es; reflexivity).
    destruct (nonempty (take_while not_space z)) eqn:En; [|done].
    unfold K, accept. f_equal.
    assert (x = (take 7 x ++ take_while not_space z) ++ drop_while not_space z) as Hx.
    { rewrite <- app_assoc, take_drop_while.
      replace (take 7 x) with (lit "http://") by (rewrite Eh, Es; reflexivity).
      rewrite Eh, Es. reflexivity. }
    f_equal.
    + rewrite Hx at 2. by rewrite drop_app_length.
    + f_equal. f_equal. rewrite Hx at 1 2. apply take_consumed.
Qed.



Lemma source_url_direct (url alt : str) : url ≠ [] → source_url url alt = url.
Proof. intros Hu. unfold source_url. by destruct url. Qed.

End UrlTokens.

(** ** The labelled lines of a block *)

Section LabelledLines.
Context {rt : PyRuntime}.
Import PyStr PyRe BuilderHelper Spec.

(** One turn of the field loop sets the variable of the line's label. *)
Lemma scan_line_field (k : label) (acc : fields) (ln : str) :
  field k (scan_line acc ln)
  = if bool_decide (label_of ln = Some k) then value_of ln else field k acc.
Proof.
  unfold scan_line, value_of, label_of.
  destruct (startswith (lit "Summary:") ln); [by destruct k; case_bool_decide|].
  destruct (startswith (lit "Category:") ln); [by destruct k; case_bool_decide|].
  destruct (startswith (lit "Why Relevant:") ln); [by destruct k; case_bool_decide|].
  destruct (startswith (lit "Source:") ln); [by destruct k; case_bool_decide|].
  destruct (re_match I _ATK_RE ln) as [ma|] eqn:E.
  - rewrite (bool_decide_eq_true_2 (is_Some _)) by done.
    by destruct k; case_bool_decide.
  - rewrite (bool_decide_eq_false_2 (is_Some _)) by (by intros [? ?]).
    by destruct k; case_bool_decide.
Qed.

Lemma fields_eq (a b : fields) : (∀ k, field k a = field k b) → a = b.
Proof.
  intros H. destruct a, b.
  pose proof (H LSummary). pose proof (H LCategory). pose proof (H LWhy).
  pose proof (H LSource). pose proof (H LAttacks). simpl in *. by subst.
Qed.

Lemma scan_fields_field (k : label) (acc : fields) (lines : list str) :
  field k (foldl scan_line acc lines)
  = match last (List.filter (λ ln, bool_decide (label_of ln = Some k)) lines) with
    | Some ln => value_of ln
    | None => field k acc
    end.
Proof.
  induction lines as [|ln lines IH] using rev_ind; [done|].
  rewrite foldl_app. simpl foldl. rewrite scan_line_field.
  rewrite List.filter_app. simpl List.filter.
  destruct (bool_decide (label_of ln = Some k)).
  - by rewrite last_snoc.
  - by rewrite app_nil_r.
Qed.

(** The fields after the loop: for each label the value of its last line. *)
Lemma scan_fields_pick (lines : list str) :
  scan_fields lines
  = {| f_summary := pick LSummary lines; f_category := pick LCategory lines;
       f_why := pick LWhy lines; f_alt_source_line := pick LSource lines;
       f_attacks_line := pick LAttacks lines |}.
Proof.
  apply fields_eq. intros k. unfold scan_fields. rewrite scan_fields_field.
  unfold pick. by destruct k; destruct (last _).
Qed.

Lemma filter_label_short (k : label) (lines : list str) :
  NoDup (omap label_of lines) →
  (length (List.filter (λ ln, bool_decide (label_of ln = Some k)) lines) <= 1)%nat.
Proof.
  induction lines as [|ln lines IH]; simpl; [lia|].
  destruct (label_of ln) as [k'|] eqn:E.
  - intros [Hnot Hnd]%NoDup_cons. specialize (IH Hnd).
    destruct (decide (k' = k)) as [->|Hne].
    + rewrite bool_decide_eq_true_2 by done. simpl.
      destruct (List.filter _ lines) as [|ln' rest] eqn:Ef; [simpl; lia|].
      exfalso. apply Hnot.
      assert (In ln' (List.filter (λ ln, bool_decide (label_of ln = Some k)) lines)) as Hin
        by (rewrite Ef; by left).
      apply filter_In in Hin as [Hin Hl%bool_decide_eq_true].
      apply list_elem_of_omap. exists ln'. split; [by apply list_elem_of_In|done].
    + rewrite bool_decide_eq_false_2 by congruence. done.
  - intros Hnd. rewrite bool_decide_eq_false_2 by done. auto.
Qed.

Lemma filter_perm {A} (f : A → bool) (l l' : list A) :
  Permutation l l' → Permutation (List.filter f l) (List.filter f l').
Proof.
  induction 1 as [|x l l' _ IH|x y l|l l' l'' _ IH1 _ IH2]; simpl.
  - done.
  - destruct (f x); [by constructor|done].
  - destruct (f x), (f y); try done. apply perm_swap.
  - by etrans.
Qed.

(** With at most one line per label, the order of the lines does not
    matter. *)
Lemma scan_fields_any_order (lines lines' : list str) :
  Permutation lines lines' → NoDup (omap label_of lines) →
  scan_fields lines = scan_fields lines'.
Proof.
  intros Hp Hnd. rewrite !scan_fields_pick.
  assert (∀ k, pick k lines = pick k lines') as Hk.
  { intros k. unfold pick.
    pose proof (filter_label_short k lines Hnd) as Hlen.
    pose proof (filter_perm (λ ln, bool_decide (label_of ln = Some k)) _ _ Hp) as Hf.
    destruct (List.filter _ lines) as [|a [|b r]]; [| |simpl in Hlen; lia].
    - by apply Permutation_nil in Hf as ->.
    - by apply Permutation_singleton_l in Hf as ->. }
  by rewrite !Hk.
Qed.


End LabelledLines.

(** C8. On a block whose four labels are written in lower case the shared
    parser reads none of the labelled fields and does not take the URL of
    the [source:] line, so the entity's own URL stands in; it reads the
    attacks line, whose pattern ignores case. The block parser that
    step2_builddemocracydocket_v4.py carries, with the same labels under
    re.IGNORECASE, reads all of them from the same block; and the shared
    parser reads them once the labels are capitalised. *)
Theorem C8_lower_case_labels :
  BuilderHelper._parse_llm_events_canonical (rt := AsciiRuntime.runtime)
    Blocks.lower_case_labels (PyStr.lit "https://example.org/entity")
  = [ {| BuilderHelper.ev_date := PyStr.lit "2025-01-21";
         BuilderHelper.ev_title := PyStr.lit "Court blocks order";
         BuilderHelper.ev_url := PyStr.lit "https://example.org/entity";
         BuilderHelper.ev_summary := [];
         BuilderHelper.ev_category := [];
         BuilderHelper.ev_why_relevant := [];
         BuilderHelper.ev_attacks := [PyStr.lit "courts"] |} ]
  ∧ DocketParser._parse_llm_events_canonical (rt := AsciiRuntime.runtime)
      Blocks.lower_case_labels (PyStr.lit "https://example.org/entity")
    = Ok [ {| DocketParser.source_date := PyStr.lit "2025-01-21";
              DocketParser.title := PyStr.lit "Court blocks order";
              DocketParser.url := PyStr.lit "https://example.org/a";
              DocketParser.summary := PyStr.lit "A judge blocked the order.";
              DocketParser.why_relevant := PyStr.lit "Courts check the executive.";
              DocketParser.category := PyStr.lit "Judicial Developments";
              DocketParser.sources := [PyStr.lit "https://example.org/a";
                                       PyStr.lit "https://example.org/entity"];
              DocketParser.tags := [];
              DocketParser.attacks := [PyStr.lit "courts"] |} ]
  ∧ BuilderHelper._parse_llm_events_canonical (rt := AsciiRuntime.runtime)
      MoreBlocks.capital_labels (PyStr.lit "https://example.org/entity")
    = [ {| BuilderHelper.ev_date := PyStr.lit "2025-01-21";
           BuilderHelper.ev_title := PyStr.lit "Court blocks order";
           BuilderHelper.ev_url := PyStr.lit "https://example.org/a";
           BuilderHelper.ev_summary := PyStr.lit "A judge blocked the order.";
           BuilderHelper.ev_category := PyStr.lit "Judicial Developments";
           BuilderHelper.ev_why_relevant := PyStr.lit "Courts check the executive.";
           BuilderHelper.ev_attacks := [PyStr.lit "courts"] |} ].
Proof. split; [|split]; vm_compute; reflexivity. Qed.

(** ** The round trip of a canonical block *)

Section RoundTrip.
Context {rt : PyRuntime}.
Import PyStr PyRe BuilderHelper Spec.

(** *** Steps of the matcher *)

Lemma m_seqs_cons (f : flags) (r r' : re) (rs : list re) (k : kont) prev x cs :
  m f (seqs (r :: r' :: rs)) k prev x cs = m f r (m f (seqs (r' :: rs)) k) prev x cs.
Proof. reflexivity. Qed.

Lemma m_Bol_start (f : flags) (k : kont) x cs : m f Bol k None x cs = k None x cs.
Proof. reflexivity. Qed.

Lemma m_Opt_fail (f : flags) (r : re) (k : kont) prev x cs :
  m f r k prev x cs = None → m f (Opt r) k prev x cs = k prev x cs.
Proof. intros H. cbn [m]. by rewrite H. Qed.

Lemma m_Chr_cons (f : flags) (p : char → bool) (k : kont) prev c x cs :
  p c = true → m f (Chr p) k prev (c :: x) cs = k (Some c) x cs.
Proof. intros H. cbn [m]. by rewrite H. Qed.

Lemma m_Plus_run (f : flags) (p : char → bool) (k : kont) prev (run rest : str) cs r :
  run ≠ [] → forallb p run = true →
  match rest with [] => True | c :: _ => p c = false end →
  k (prev_after prev run) rest cs = Some r →
  m f (Plus p) k prev (run ++ rest) cs = Some r.
Proof.
  intros Hne Hrun Hrest Hk. destruct run as [|c run]; [done|].
  simpl in Hrun. apply andb_prop in Hrun as [Hc Hrun].
  unfold Plus. cbn [m app]. rewrite Hc. change (m f (Star p) k) with (star_m p k).
  rewrite prev_after_cons in Hk. by apply star_m_run.
Qed.

Lemma m_Grp_plus (f : flags) (n : nat) (p : char → bool) (k : kont) prev
    (run rest : str) cs r :
  run ≠ [] → forallb p run = true →
  match rest with [] => True | c :: _ => p c = false end →
  k (prev_after prev run) rest ((n, run) :: cs) = Some r →
  m f (Grp n (Plus p)) k prev (run ++ rest) cs = Some r.
Proof.
  intros Hne Hrun Hrest Hk. cbn [m]. apply m_Plus_run; [done..|].
  by rewrite take_consumed.
Qed.

Lemma chr_of_self (f : flags) (a : char) : chr_of f a a = true.
Proof.
  unfold chr_of, ci_chr. destruct (ignorecase f); rewrite N.eqb_refl; done.
Qed.

Lemma m_Str_self (f : flags) (p : str) (k : kont) prev (x : str) cs :
  m f (Str f p) k prev (p ++ x) cs = k (prev_after prev p) x cs.
Proof.
  revert prev. induction p as [|a p IH]; intros prev; [done|].
  cbn [Str m app]. rewrite chr_of_self, IH. by rewrite prev_after_cons.
Qed.

(** *** The header line *)

Lemma digit_not_space (c : char) : ascii_digit c = true → is_space c = false.
Proof.
  unfold ascii_digit, is_space, in_range.
  intros [H1 H2]%andb_prop. apply N.leb_le in H1, H2.
  rewrite !orb_false_iff, !andb_false_iff, !N.leb_gt, !N.eqb_neq. lia.
Qed.

Lemma digit_is_digit (c : char) : ascii_digit c = true → is_digit c = true.
Proof. intros H. unfold is_digit. by rewrite H. Qed.

Lemma iso_shape_inv (d : str) :
  iso_shape d = true →
  ∃ y1 y2 y3 y4 m1 m2 d1 d2,
    d = [y1; y2; y3; y4; 45%N; m1; m2; 45%N; d1; d2]
    ∧ Forall (λ c, ascii_digit c = true) [y1; y2; y3; y4; m1; m2; d1; d2].
Proof.
  unfold iso_shape.
  repeat (destruct d as [|? d]; [done|]). destruct d; [|done].
  intros [[H ->%N.eqb_eq]%andb_prop ->%N.eqb_eq]%andb_prop.
  do 8 eexists. split; [reflexivity|].
  cbn [forallb] in H. repeat (apply andb_prop in H as [? H]).
  repeat (apply Forall_cons_2; [assumption|]). apply Forall_nil_2.
Qed.


Lemma iso_shape_trimmed (d : str) : iso_shape d = true → trimmed d.
Proof.
  intros (y1 & y2 & y3 & y4 & m1 & m2 & d1 & d2 & -> & Hd)%iso_shape_inv.
  repeat match goal with
         | H : Forall _ (_ :: _) |- _ => apply Forall_cons in H as [?%digit_not_space H]
         end.
  split; [done|]. by exists [y1; y2; y3; y4; 45%N; m1; m2; 45%N; d1], d2.
Qed.

Lemma single_line_dot (x : str) : single_line x → forallb dot x = true.
Proof.
  unfold single_line. induction x as [|c x IH]; simpl; [done|].
  intros [Hc ?]%andb_prop. rewrite IH by done. rewrite andb_true_r.
  unfold dot, NL. destruct (N.eqb_spec c 10) as [->|]; done.
Qed.

Lemma trimmed_head (c : char) (x : str) : trimmed (c :: x) → is_space c = false.
Proof. by intros [? _]. Qed.


(** *** No other header in the block *)

Lemma header_none prev (x : str) :
  negb (at_bol M prev) || plain_start x = true →
  m M _HEADER_RE accept prev x [] = None.
Proof.
  intros H. unfold _HEADER_RE. rewrite m_seqs_cons. cbn [m].
  destruct (at_bol M prev); [|done]. simpl in H.
  destruct x as [|c x].
  - rewrite m_seqs_cons, m_Opt_fail by done. done.
  - simpl in H. apply andb_prop in H as [Hd He%negb_true_iff].
    apply negb_true_iff in Hd.
    rewrite m_seqs_cons, m_Opt_fail.
    2:{ cbn [m]. rewrite m_Str by done.
        change (lit "===") with [61%N; 61%N; 61%N]. cbn [startswith].
        by rewrite N.eqb_sym, He. }
    rewrite m_seqs_cons. unfold Extractor.ISO_DATE. cbn [m]. rewrite m_seqs_cons.
    cbn [m]. by rewrite Hd.
Qed.





(** *** The lines of the block *)

Lemma splitlines_go_line (cur ln rest : str) :
  single_line ln → splitlines_go cur (ln ++ rest) = splitlines_go (rev ln ++ cur) rest.
Proof.
  unfold single_line. revert cur. induction ln as [|c ln IH]; intros cur H; [done|].
  simpl in H. apply andb_prop in H as [Hc H]. apply negb_true_iff in Hc.
  cbn [app splitlines_go rev]. rewrite Hc, IH by done. by rewrite <- app_assoc.
Qed.

Lemma splitlines_join (lines : list str) :
  Forall (λ ln, single_line ln ∧ ln ≠ []) lines →
  splitlines (join [NL] lines) = lines.
Proof.
  unfold splitlines. induction 1 as [|ln lines [Hs Hne] Hl IH]; [done|].
  destruct lines as [|ln' lines].
  - cbn [join]. rewrite <- (app_nil_r ln), splitlines_go_line by done.
    rewrite !app_nil_r. cbn [splitlines_go].
    destruct (rev ln) eqn:E.
    + apply (f_equal (@rev _)) in E. rewrite rev_involutive in E. done.
    + by rewrite <- E, rev_involutive.
  - change (join [NL] (ln :: ln' :: lines)) with (ln ++ NL :: join [NL] (ln' :: lines)).
    rewrite splitlines_go_line by done. rewrite app_nil_r.
    change (splitlines_go (rev ln) (NL :: join [NL] (ln' :: lines)))
      with (rev (rev ln) :: splitlines_go [] (join [NL] (ln' :: lines))).
    by rewrite rev_involutive, IH.
Qed.

Lemma strip_head_nonempty (c : char) (x : str) :
  is_space c = false → nonempty (strip (c :: x)) = true.
Proof.
  intros Hc. destruct (strip (c :: x)) eqn:E; [|done].
  apply strip_nil_forallb in E. simpl in E. by rewrite Hc in E.
Qed.

(** A labelled line, right-stripped: the label, then a space and the
    value unless the value is empty. *)
Lemma rstrip_field (lab s : str) :
  rstrip lab = lab → trimmed s →
  rstrip (lab ++ 32%N :: s) = lab ++ match s with [] => [] | _ => 32%N :: s end.
Proof.
  intros Hlab Hs. destruct s as [|c s].
  - rewrite app_nil_r. unfold rstrip in *. rewrite rev_app_distr. cbn [rev app].
    by change (drop_while is_space (32%N :: rev lab)) with (drop_while is_space (rev lab)).
  - destruct Hs as [_ (x' & d & -> & Hd)].
    change (lab ++ 32%N :: x' ++ [d]) with (lab ++ (32%N :: x') ++ [d]).
    rewrite app_assoc. by apply rstrip_snoc.
Qed.


(** *** The attacks line *)

Lemma atk_at (val : str) :
  val ≠ [] → forallb dot val = true →
  match val with [] => True | c :: _ => is_space c = false end →
  m I _ATK_RE accept None (lit "attacks: " ++ val) [] = Some ([], [(1%nat, val)]).
Proof.
  intros Hne Hdot Hhead. unfold _ATK_RE.
  rewrite m_seqs_cons, m_Bol_start.
  rewrite m_seqs_cons, m_Opt_fail by reflexivity.
  change (lit "attacks: " ++ val) with (lit "attacks" ++ 58%N :: 32%N :: val).
  rewrite m_seqs_cons, m_Str_self.
  rewrite m_seqs_cons, m_Opt_fail by reflexivity.
  rewrite m_seqs_cons. cbn [m].
  apply (star_m_run is_space _ _ [] (58%N :: 32%N :: val)); [done| |done].
  rewrite m_seqs_cons, m_Chr_cons by done.
  rewrite m_seqs_cons. cbn [m].
  apply (star_m_run is_space _ _ [32%N] val); [done| |done].
  rewrite m_seqs_cons. rewrite <- (app_nil_r val) at 1.
  apply m_Grp_plus; [done..|]. reflexivity.
Qed.


(** *** The attack tokens *)

Lemma trimmed_app (a mid b : str) :
  trimmed a → a ≠ [] → trimmed b → b ≠ [] → trimmed (a ++ mid ++ b).
Proof.
  intros Ha Hne Hb Hnb. destruct a as [|c a]; [done|]. destruct b as [|e b]; [done|].
  destruct Ha as [Hc _]. destruct Hb as [_ (x' & d & -> & Hd)].
  split; [done|]. exists (c :: a ++ mid ++ x'), d. split; [|done].
  cbn [app]. f_equal. by rewrite <- !app_assoc.
Qed.

Lemma trimmed_join (sep : str) (toks : list str) :
  Forall (λ t, trimmed t ∧ t ≠ []) toks →
  trimmed (join sep toks) ∧ (toks ≠ [] → join sep toks ≠ []).
Proof.
  induction 1 as [|t toks [Ht Hne] Hl [IH1 IH2]]; [done|].
  destruct toks as [|t' toks]; [done|].
  change (join sep (t :: t' :: toks)) with (t ++ sep ++ join sep (t' :: toks)).
  split.
  - apply trimmed_app; [done..|by apply IH2].
  - intros _. by destruct t.
Qed.

Lemma single_line_app (a b : str) : single_line a → single_line b → single_line (a ++ b).
Proof. unfold single_line. intros Ha Hb. by rewrite forallb_app, Ha, Hb. Qed.

Lemma single_line_join (sep : str) (toks : list str) :
  single_line sep → Forall single_line toks → single_line (join sep toks).
Proof.
  intros Hs. induction 1 as [|t toks Ht Hl IH]; [done|].
  destruct toks as [|t' toks]; [done|].
  change (join sep (t :: t' :: toks)) with (t ++ sep ++ join sep (t' :: toks)).
  by repeat apply single_line_app.
Qed.

Lemma token_ok_nonempty (tok : str) : token_ok tok → tok ≠ [].
Proof. intros (_ & _ & H) ->. by apply H. Qed.

Lemma split_on_go_piece (p : char → bool) (cur piece rest : str) :
  forallb (λ c, negb (p c)) piece = true →
  split_on_go p cur (piece ++ rest) = split_on_go p (rev piece ++ cur) rest.
Proof.
  revert cur. induction piece as [|c piece IH]; intros cur H; [done|].
  simpl in H. apply andb_prop in H as [Hc H]. apply negb_true_iff in Hc.
  cbn [app split_on_go rev]. rewrite Hc, IH by done. by rewrite <- app_assoc.
Qed.

(** Splitting the comma-separated list gives the tokens back, each but the
    first behind the space that followed its comma. *)
Lemma split_on_join (cur t : str) (toks : list str) :
  Forall (λ t, forallb (λ c, negb (is_sep c)) t = true) (t :: toks) →
  split_on_go is_sep cur (join (lit ", ") (t :: toks))
  = (rev cur ++ t) :: List.map (cons 32%N) toks.
Proof.
  revert cur t. induction toks as [|t' toks IH]; intros cur t [Ht Hl]%Forall_cons.
  - cbn [join List.map]. rewrite <- (app_nil_r t) at 1.
    rewrite split_on_go_piece by done. cbn [split_on_go].
    by rewrite rev_app_distr, rev_involutive.
  - change (join (lit ", ") (t :: t' :: toks))
      with (t ++ 44%N :: 32%N :: join (lit ", ") (t' :: toks)).
    rewrite split_on_go_piece by done.
    change (split_on_go is_sep (rev t ++ cur) (44%N :: 32%N :: join (lit ", ") (t' :: toks)))
      with (rev (rev t ++ cur) :: split_on_go is_sep [32%N] (join (lit ", ") (t' :: toks))).
    rewrite IH by done. by rewrite rev_app_distr, rev_involutive.
Qed.

Lemma attack_handle_space (t : str) : attack_handle (32%N :: t) = attack_handle t.
Proof. reflexivity. Qed.

Lemma handles_of_tokens (pieces toks : list str) :
  Forall2 (λ p t, attack_handle p = attack_handle t) pieces toks →
  Forall (λ t, attack_handle t ≠ []) toks →
  flat_map (λ part, let h := attack_handle part in
                    if nonempty h then [normalize_handle h] else []) pieces
  = List.map (λ tok, normalize_handle (attack_handle tok)) toks.
Proof.
  induction 1 as [|p t pieces toks Hpt Hl IH]; [done|].
  intros [Ht Hts]%Forall_cons. specialize (IH Hts).
  cbn [flat_map List.map]. cbv zeta in IH |- *.
  rewrite Hpt, IH. by destruct (attack_handle t).
Qed.


(** The bracketed list of tokens reads back as the normalised tokens. *)
Lemma attacks_list_of_tokens (toks : list str) :
  Forall token_ok toks →
  attacks_list_of (91%N :: join (lit ", ") toks ++ [93%N])
  = List.map (λ tok, normalize_handle (attack_handle tok)) toks.
Proof.
  intros Hok. set (inner := join (lit ", ") toks).
  assert (trimmed inner) as Hinner.
  { apply trimmed_join. eapply Forall_impl; [exact Hok|].
    intros t Ht. split; [apply Ht|by apply token_ok_nonempty]. }
  unfold attacks_list_of. cbn [nonempty].
  assert (strip (91%N :: inner ++ [93%N]) = 91%N :: inner ++ [93%N]) as ->.
  { apply strip_trimmed. split; [done|]. by exists (91%N :: inner), 93%N. }
  assert (endswith (lit "]") (91%N :: inner ++ [93%N]) = true) as ->.
  { unfold endswith. cbn [rev]. by rewrite rev_app_distr. }
  change (startswith (lit "[") (91%N :: inner ++ [93%N])) with true.
  cbn [andb]. cbv zeta.
  assert (slice 1 (length (91%N :: inner ++ [93%N]) - 1) (91%N :: inner ++ [93%N]) = inner)
    as ->.
  { unfold slice. change (drop 1 (91%N :: inner ++ [93%N])) with (inner ++ [93%N]).
    replace (length (91%N :: inner ++ [93%N]) - 1 - 1)%nat with (length inner);
      [by rewrite take_app_length|].
    cbn [length]. rewrite length_app. cbn [length]. lia. }
  rewrite strip_trimmed by done. unfold inner, split_on.
  destruct toks as [|t toks]; [reflexivity|].
  rewrite split_on_join.
  2:{ eapply Forall_impl; [exact Hok|]. intros ? Ht. apply Ht. }
  apply handles_of_tokens.
  - constructor; [done|]. clear. induction toks; constructor; done.
  - eapply Forall_impl; [exact Hok|]. intros ? Ht. apply Ht.
Qed.

(** *** The whole block *)



Lemma well_formed_inner (v : block_values) :
  well_formed v →
  single_line (join (lit ", ") (v_attacks v)).
Proof.
  intros (_ & _ & _ & _ & _ & _ & _ & Hok). apply single_line_join; [done|].
  eapply Forall_impl; [exact Hok|]. intros ? Ht. apply Ht.
Qed.

Lemma field_lines_single (v : block_values) :
  well_formed v → Forall single_line (field_lines_of v).
Proof.
  intros Hwf. pose proof (well_formed_inner v Hwf) as Hin.
  destruct Hwf as (_ & _ & _ & [_ Hs] & [_ Hr] & [_ Hc] & [_ Hw] & _).
  unfold field_lines_of.
  repeat (apply Forall_cons_2; [repeat apply single_line_app; done|]).
  apply Forall_nil_2.
Qed.

Lemma header_line_single (v : block_values) : well_formed v → single_line (header_line v).
Proof.
  intros (Hd & [_ Ht] & _). unfold header_line.
  repeat apply single_line_app; try done.
  apply iso_shape_inv in Hd as (y1 & y2 & y3 & y4 & m1 & m2 & d1 & d2 & -> & Hd).
  unfold single_line. cbn [forallb].
  repeat match goal with
         | H : Forall _ (_ :: _) |- _ => apply Forall_cons in H as [? H]
         end.
  assert (∀ c, ascii_digit c = true → negb (is_linebreak c) = true) as Hnl.
  { intros c. unfold ascii_digit, is_linebreak, in_range.
    intros [Hlo Hhi]%andb_prop. apply N.leb_le in Hlo, Hhi. apply negb_true_iff.
    rewrite !orb_false_iff, !andb_false_iff, !N.leb_gt, !N.eqb_neq. lia. }
  rewrite (Hnl y1), (Hnl y2), (Hnl y3), (Hnl y4), (Hnl m1), (Hnl m2), (Hnl d1), (Hnl d2)
    by done.
  reflexivity.
Qed.

Lemma header_line_head (v : block_values) :
  well_formed v → ∃ c x, header_line v = c :: x ∧ is_space c = false.
Proof.
  intros (Hd & _). unfold header_line.
  apply iso_shape_inv in Hd as (y1 & y2 & y3 & y4 & m1 & m2 & d1 & d2 & -> & Hd).
  apply Forall_cons in Hd as [Hy _]. eexists _, _. split; [reflexivity|].
  by apply digit_not_space.
Qed.


Lemma filter_nonblank (lines : list str) :
  Forall (λ ln, ∃ c x, ln = c :: x ∧ is_space c = false) lines →
  List.filter (λ ln, nonempty (strip ln)) lines = lines.
Proof.
  induction 1 as [|ln lines (c & x & -> & Hc) Hl IH]; [done|].
  cbn [List.filter]. rewrite strip_head_nonempty by done. by rewrite IH.
Qed.

Lemma field_lines_head (v : block_values) :
  Forall (λ ln, ∃ c x, ln = c :: x ∧ is_space c = false) (field_lines_of v).
Proof.
  unfold field_lines_of.
  repeat (apply Forall_cons_2; [eexists _, _; split; [reflexivity|reflexivity]|]).
  apply Forall_nil_2.
Qed.

(** The lines the field loop sees. *)
Lemma block_lines_render (v : block_values) :
  well_formed v →
  let sp := λ s : str, match s with [] => [] | _ => 32%N :: s end in
  block_lines (render_block v)
  = [ rstrip (header_line v);
      lit "Summary:" ++ sp (v_summary v);
      lit "Source:" ++ sp (v_source v);
      lit "Category:" ++ sp (v_category v);
      lit "Why Relevant:" ++ sp (v_why v);
      lit "attacks: " ++ 91%N :: join (lit ", ") (v_attacks v) ++ [93%N] ].
Proof.
  intros Hwf sp. unfold block_lines, render_block.
  rewrite splitlines_join.
  2:{ apply Forall_cons_2.
      - split; [by apply header_line_single|].
        destruct (header_line_head v Hwf) as (c & x & -> & _). done.
      - pose proof (field_lines_single v Hwf) as Hs.
        pose proof (field_lines_head v) as Hh.
        apply Forall_forall. intros ln Hln.
        rewrite Forall_forall in Hs. rewrite Forall_forall in Hh.
        split; [by apply Hs|]. by destruct (Hh ln Hln) as (c & x & -> & _). }
  rewrite filter_nonblank.
  2:{ apply Forall_cons_2; [by apply header_line_head|]. apply field_lines_head. }
  destruct Hwf as (_ & _ & _ & [Hs _] & [Hr _] & [Hc _] & [Hw _] & _).
  unfold field_lines_of. cbn [List.map]. repeat f_equal.
  - by apply (rstrip_field (lit "Summary:")).
  - by apply (rstrip_field (lit "Source:")).
  - by apply (rstrip_field (lit "Category:")).
  - by apply (rstrip_field (lit "Why Relevant:")).
  - change (lit "attacks: [" ++ join (lit ", ") (v_attacks v) ++ lit "]")
      with ((lit "attacks: [" ++ join (lit ", ") (v_attacks v)) ++ [93%N]).
    by apply rstrip_snoc.
Qed.





Lemma strip_fixed_trimmed (x : str) : strip x = x → trimmed x.
Proof.
  intros H. destruct (strip_spec x) as (? & ? & _ & _ & _ & Ht). by rewrite H in Ht.
Qed.

End RoundTrip.


(** * Further properties of the code *)

(** ** [stable_dedupe] *)

Section StableDedupe.
Context `{Countable A}.
Import HelperUtil.

Lemma dedupe_loop (seq : list A) :
  let '(seen, out) := foldl dedupe_step (∅, []) seq in
  (∀ x, x ∈ seen ↔ x ∈ seq) ∧ (∀ x, x ∈ out ↔ x ∈ seq)
  ∧ NoDup out ∧ sublist out seq.
Proof.
  induction seq as [|x seq IH] using rev_ind.
  - simpl. repeat split; try set_solver. constructor.
  - rewrite foldl_app. simpl.
    destruct (foldl dedupe_step (∅, []) seq) as [seen out].
    destruct IH as (Hseen & Hout & Hnd & Hsub). unfold dedupe_step.
    case_bool_decide as Hx.
    + apply Hseen in Hx. split; [|split; [|split]].
      * intros y. rewrite elem_of_app, list_elem_of_singleton, Hseen.
        split; [tauto|]. by intros [?| ->].
      * intros y. rewrite elem_of_app, list_elem_of_singleton, Hout.
        split; [tauto|]. by intros [?| ->].
      * done.
      * by apply sublist_inserts_r.
    + split; [|split; [|split]].
      * intros y. rewrite elem_of_union, elem_of_singleton, elem_of_app,
          list_elem_of_singleton, Hseen. tauto.
      * intros y. rewrite !elem_of_app, !list_elem_of_singleton, Hout. tauto.
      * apply NoDup_app. split; [done|]. split; [|apply NoDup_singleton].
        intros y Hy ->%list_elem_of_singleton. apply Hx, Hseen, Hout, Hy.
      * by apply sublist_app.
Qed.

Lemma dedupe_nodup_id (seq : list A) : NoDup seq → stable_dedupe seq = seq.
Proof.
  unfold stable_dedupe. induction seq as [|x seq IH] using rev_ind; [done|].
  intros [Hnd [Hx _]]%NoDup_app. rewrite foldl_app. simpl.
  pose proof (dedupe_loop seq) as Hl. specialize (IH Hnd).
  destruct (foldl dedupe_step (∅, []) seq) as [seen out].
  destruct Hl as (Hseen & _). simpl in IH. subst out. unfold dedupe_step.
  case_bool_decide as Hin; [|done].
  exfalso. apply Hseen in Hin. apply (Hx x Hin). by apply list_elem_of_singleton.
Qed.

Lemma stable_dedupe_snoc (l : list A) (x : A) :
  stable_dedupe (l ++ [x])
  = if bool_decide (x ∈ l) then stable_dedupe l else stable_dedupe l ++ [x].
Proof.
  unfold stable_dedupe. rewrite foldl_app. simpl.
  pose proof (dedupe_loop l) as Hl.
  destruct (foldl dedupe_step (∅, []) l) as [seen out].
  destruct Hl as (Hseen & _). unfold dedupe_step.
  rewrite (bool_decide_ext (x ∈ seen) (x ∈ l)) by apply Hseen.
  by destruct (bool_decide (x ∈ l)).
Qed.

Lemma stable_dedupe_app (l1 l2 : list A) :
  stable_dedupe (l1 ++ l2)
  = stable_dedupe l1 ++ filter (λ x, x ∉ l1) (stable_dedupe l2).
Proof.
  induction l2 as [|x l2 IH] using rev_ind.
  - by rewrite !app_nil_r.
  - rewrite app_assoc, !stable_dedupe_snoc, IH.
    case_bool_decide as H12; case_bool_decide as H2.
    + done.
    + apply elem_of_app in H12 as [H1|]; [|done].
      rewrite filter_app, filter_cons_False, filter_nil, app_nil_r; [done|].
      by intros Hn.
    + exfalso. apply H12, elem_of_app. by right.
    + rewrite filter_app, filter_cons_True, filter_nil, app_assoc; [done|].
      intros H1. apply H12, elem_of_app. by left.
Qed.

(** X1: [stable_dedupe] returns the distinct elements of its argument, each
    once, in the order of their first occurrence: the result has no
    duplicate, holds exactly the elements of the argument, is a
    subsequence of it, is the argument itself when that has no duplicate,
    and deduplicating twice changes nothing more. It is the first
    occurrence that stays: the result for a prefix of the argument is a
    prefix of the result, and what follows it are the distinct elements of
    the rest that the prefix does not hold; so the head of the argument is
    the head of the result. *)
Theorem stable_dedupe_spec (seq : list A) :
  NoDup (stable_dedupe seq)
  ∧ (∀ x, x ∈ stable_dedupe seq ↔ x ∈ seq)
  ∧ sublist (stable_dedupe seq) seq
  ∧ (NoDup seq → stable_dedupe seq = seq)
  ∧ stable_dedupe (stable_dedupe seq) = stable_dedupe seq
  ∧ (∀ l1 l2, seq = l1 ++ l2 →
       stable_dedupe seq
       = stable_dedupe l1 ++ filter (λ x, x ∉ l1) (stable_dedupe l2))
  ∧ (∀ x l, seq = x :: l →
       stable_dedupe seq = x :: filter (λ y, y ≠ x) (stable_dedupe l)).
Proof.
  split; [|split; [|split; [|split; [|split; [|split]]]]].
  - pose proof (dedupe_loop seq) as Hl. unfold stable_dedupe.
    destruct (foldl dedupe_step (∅, []) seq) as [seen out]. apply Hl.
  - pose proof (dedupe_loop seq) as Hl. unfold stable_dedupe.
    destruct (foldl dedupe_step (∅, []) seq) as [seen out]. apply Hl.
  - pose proof (dedupe_loop seq) as Hl. unfold stable_dedupe.
    destruct (foldl dedupe_step (∅, []) seq) as [seen out]. apply Hl.
  - apply dedupe_nodup_id.
  - apply dedupe_nodup_id.
    pose proof (dedupe_loop seq) as Hl. unfold stable_dedupe.
    destruct (foldl dedupe_step (∅, []) seq) as [seen out]. apply Hl.
  - intros l1 l2 ->. apply stable_dedupe_app.
  - intros x l ->. change (x :: l) with ([x] ++ l). rewrite stable_dedupe_app.
    change (stable_dedupe [x]) with [x]. simpl. f_equal.
    apply list_filter_iff. intros y. rewrite list_elem_of_singleton. done.
Qed.

End StableDedupe.

(** ** [normalize_ws] *)

Section NormalizeWs.
Import PyStr PyRe PyReSub HelperUtil SpecUtil Spec.

Lemma sub_go_skip (f : flags) (r : re) (repl : str) prev (a x : str) :
  sub_go f r repl (length a) prev (a ++ x) = sub_go f r repl 0 (prev_after prev a) x.
Proof.
  revert prev. induction a as [|c a IH]; intros prev; [done|].
  simpl. by rewrite IH, prev_after_cons.
Qed.

Lemma ws_at prev (x : str) :
  m NOFLAGS _WS_RE accept prev x []
  = match x with
    | c :: x' => if is_space c then Some (drop_while is_space x', []) else None
    | [] => None
    end.
Proof.
  unfold _WS_RE, Plus. cbn [m]. destruct x as [|c x]; [done|].
  destruct (is_space c); [|done].
  change (m NOFLAGS (Star is_space) accept) with (star_m is_space accept).
  rewrite star_m_total; [done|]. intros. by eexists.
Qed.

Lemma squeeze_true (x : str) : squeeze true x = squeeze false (drop_while is_space x).
Proof.
  induction x as [|c x IH]; [done|]. simpl. destruct (is_space c) eqn:E; [done|].
  simpl. by rewrite E.
Qed.

(** Substituting a space for [\s+] squeezes every run of white space. *)
Lemma sub_ws (n : nat) (x : str) prev :
  (length x <= n)%nat →
  sub_go NOFLAGS _WS_RE (lit " ") 0 prev x = squeeze false x.
Proof.
  revert x prev. induction n as [|n IH]; intros x prev Hn.
  - destruct x; [|simpl in Hn; lia]. cbn [sub_go]. by rewrite ws_at.
  - destruct x as [|c x]; [cbn [sub_go]; by rewrite ws_at|].
    cbn [sub_go]. rewrite ws_at. cbn [squeeze]. destruct (is_space c) eqn:E.
    + destruct (drop_while_suffix is_space x) as (a & Ha & Hp).
      rewrite squeeze_true.
      set (dw := drop_while is_space x) in *. clearbody dw. subst x.
      replace (length (c :: a ++ dw) - length dw)%nat with (S (length a))
        by (cbn [length]; rewrite length_app; lia).
      cbn [Nat.eqb]. replace (S (length a) - 1)%nat with (length a) by lia.
      rewrite sub_go_skip, IH; [done|].
      cbn [length] in Hn. rewrite length_app in Hn. lia.
    + rewrite IH; [done|]. cbn [length] in Hn. lia.
Qed.

Lemma squeeze_filter (b : bool) (x : str) :
  List.filter not_space (squeeze b x) = List.filter not_space x.
Proof.
  revert b. induction x as [|c x IH]; intros b; [done|].
  cbn [squeeze List.filter]. unfold not_space at 2. destruct (is_space c) eqn:E.
  - cbn [negb]. destruct b; [apply IH|]. cbn [List.filter].
    change (not_space 32) with false. cbv iota. apply IH.
  - cbn [negb List.filter]. unfold not_space at 1. rewrite E. cbn [negb].
    by rewrite IH.
Qed.

Lemma squeeze_snoc (b : bool) (x : str) (d : char) :
  is_space d = false → squeeze b (x ++ [d]) = squeeze b x ++ [d].
Proof.
  intros Hd. revert b. induction x as [|c x IH]; intros b.
  - simpl. by rewrite Hd.
  - cbn [app squeeze]. destruct (is_space c), b; by rewrite IH.
Qed.

Lemma squeeze_plain (b : bool) (x : str) : plain_spaces (squeeze b x) = true.
Proof.
  unfold plain_spaces. revert b. induction x as [|c x IH]; intros b; [done|].
  cbn [squeeze]. destruct (is_space c) eqn:E.
  - destruct b; [apply IH|]. cbn [forallb]. rewrite IH. reflexivity.
  - cbn [forallb]. by rewrite E, IH.
Qed.

Lemma squeeze_true_head (x : str) :
  match squeeze true x with c :: _ => is_space c = false | [] => True end.
Proof.
  induction x as [|c x IH]; [done|]. cbn [squeeze].
  by destruct (is_space c) eqn:E.
Qed.

Lemma squeeze_single (b : bool) (x : str) : single_spaced (squeeze b x) = true.
Proof.
  revert b. induction x as [|c x IH]; intros b; [done|].
  cbn [squeeze]. destruct (is_space c) eqn:E.
  - destruct b; [apply IH|]. cbn [single_spaced]. rewrite IH.
    pose proof (squeeze_true_head x) as Hh.
    destruct (squeeze true x) as [|e l]; [done|]. rewrite Hh.
    by rewrite andb_false_r.
  - cbn [single_spaced]. rewrite IH, E. by destruct (squeeze false x).
Qed.

Lemma squeeze_fixed (x : str) :
  single_spaced x = true → plain_spaces x = true → squeeze false x = x.
Proof.
  unfold plain_spaces. induction x as [|c x IH]; [done|].
  cbn [single_spaced forallb squeeze].
  intros [Hadj Hs]%andb_prop [Hc Hp]%andb_prop. specialize (IH Hs Hp).
  destruct (is_space c) eqn:E.
  - simpl in Hc. apply N.eqb_eq in Hc as ->. f_equal.
    rewrite squeeze_true. destruct x as [|e x]; [done|].
    rewrite andb_true_l in Hadj. apply negb_true_iff in Hadj.
    cbn [drop_while]. by rewrite Hadj.
  - by f_equal.
Qed.

Lemma squeeze_trimmed (x : str) : trimmed x → trimmed (squeeze false x).
Proof.
  destruct x as [|c x]; [done|]. intros [Hc (x' & d & Hx & Hd)].
  pose proof (squeeze_snoc false x' d Hd) as Hs. rewrite <- Hx in Hs.
  cbn [squeeze] in Hs |- *. rewrite Hc in Hs |- *. split; [done|].
  by exists (squeeze false x'), d.
Qed.

Lemma replace_nbsp_plain (x : str) :
  plain_spaces x = true → replace_char 160 32 x = x.
Proof.
  unfold plain_spaces, replace_char. induction x as [|c x IH]; [done|].
  cbn [forallb List.map]. intros [Hc Hp]%andb_prop. rewrite IH by done.
  destruct (N.eqb_spec c 160) as [->|]; [|done]. by vm_compute in Hc.
Qed.

Lemma filter_spaces (x : str) :
  forallb is_space x = true → List.filter not_space x = [].
Proof.
  induction x as [|c x IH]; [done|]. cbn [forallb List.filter].
  intros [Hc Hx]%andb_prop. unfold not_space at 1. rewrite Hc. by apply IH.
Qed.

Lemma filter_strip (x : str) :
  List.filter not_space (strip x) = List.filter not_space x.
Proof.
  destruct (strip_spec x) as (l & r & Hx & Hl & Hr & _).
  rewrite Hx at 2. rewrite !List.filter_app, (filter_spaces l), (filter_spaces r) by done.
  by rewrite app_nil_r.
Qed.

Lemma filter_replace_nbsp (x : str) :
  List.filter not_space (replace_char 160 32 x) = List.filter not_space x.
Proof.
  unfold replace_char. induction x as [|c x IH]; [done|].
  cbn [List.map List.filter]. rewrite IH.
  by destruct (N.eqb_spec c 160) as [->|].
Qed.

Lemma replace_nbsp_spaces (x : str) :
  forallb is_space x = true → forallb is_space (replace_char 160 32 x) = true.
Proof.
  unfold replace_char. induction x as [|c x IH]; [done|].
  cbn [forallb List.map]. intros [Hc Hx]%andb_prop. rewrite IH by done.
  destruct (N.eqb_spec c 160); [reflexivity|]. by rewrite Hc.
Qed.

(** X2: [normalize_ws] leaves no white space at either end, no two
    white-space characters side by side and no white-space character but
    the space; it keeps the other characters, in their order; a blank or
    missing argument gives the empty string; and normalising twice changes
    nothing more. *)
Theorem normalize_ws_spec (s : option str) :
  trimmed (normalize_ws s)
  ∧ single_spaced (normalize_ws s) = true
  ∧ plain_spaces (normalize_ws s) = true
  ∧ List.filter not_space (normalize_ws s) = List.filter not_space (oget s)
  ∧ (forallb is_space (oget s) = true → normalize_ws s = [])
  ∧ normalize_ws (Some (normalize_ws s)) = normalize_ws s.
Proof.
  assert (∀ y, sub NOFLAGS _WS_RE (lit " ") y = squeeze false y) as Hsub.
  { intros y. apply (sub_ws (length y)). lia. }
  unfold normalize_ws. rewrite !Hsub.
  set (y := strip (replace_char 160 32 (oget s))).
  assert (trimmed y) as Hy.
  { unfold y. by destruct (strip_spec (replace_char 160 32 (oget s)))
      as (? & ? & _ & _ & _ & ?). }
  pose proof (squeeze_trimmed y Hy) as Ht.
  pose proof (squeeze_single false y) as Hs1.
  pose proof (squeeze_plain false y) as Hs2.
  split; [done|]. split; [done|]. split; [done|]. split; [|split].
  - unfold y. by rewrite squeeze_filter, filter_strip, filter_replace_nbsp.
  - intros Hb. unfold y. rewrite forallb_space_strip; [done|].
    by apply replace_nbsp_spaces.
  - cbn [oget default from_option id].
    rewrite replace_nbsp_plain, strip_trimmed by done. by apply squeeze_fixed.
Qed.

End NormalizeWs.

(** ** The diagnostics of a reply *)

Section ReplyDiagnostics.
Context {rt : PyRuntime}.
Import PyStr PyRe Extractor ExtractorUtil Spec.

Lemma label_line_at (lab : string) prev (x : str) :
  startswith (lit lab) x = false →
  m M (label_line lab) accept prev x [] = None.
Proof.
  intros Hs. unfold label_line. cbn [seqs m]. destruct (at_bol M prev); [|done].
  rewrite m_Str by done. by rewrite Hs.
Qed.

Lemma label_line_absent (lab : string) (pos : nat) prev (x : str) :
  contains (lit lab) x = false →
  finditer_go M (label_line lab) pos 0 prev x = [].
Proof.
  revert pos prev. induction x as [|c x IH]; intros pos prev.
  - cbn [contains]. rewrite orb_false_r. intros Hs.
    cbn [finditer_go]. by rewrite label_line_at.
  - cbn [contains]. intros [Hs Hc]%orb_false_elim.
    cbn [finditer_go]. rewrite label_line_at by done. by apply IH.
Qed.

(** X3: the retry helper asks for the three labels exactly as the scan
    spells them, capitals included: a reply in which [Category:],
    [Why Relevant:] or [Attacks:] occurs nowhere needs a retry, whatever
    else it holds. *)
Theorem retry_without_label (text : str) :
  contains (lit "Category:") text = false
  ∨ contains (lit "Why Relevant:") text = false
  ∨ contains (lit "Attacks:") text = false →
  _needs_schema_retry text = true.
Proof.
  intros Hl. rewrite needs_schema_retry_spec. unfold scan_passes.
  unfold _preparse_compliance_scan. destruct text as [|c text]; [done|].
  cbn [nonempty negb has_footer_end_of_log count_category_lines count_why_lines
       count_attacks_lines].
  unfold count, finditer.
  destruct Hl as [Hl | [Hl | Hl]]; rewrite (label_line_absent _ _ _ _ Hl);
    cbn [length Nat.ltb Nat.leb]; by rewrite ?andb_false_r.
Qed.

(** X4: the inferred issue of a reply that needs no retry is
    [unknown_or_ok], whatever the room estimate; and the inference does
    not look at the attacks lines, so a reply with the footer, a category
    line and a why-relevant line but no attacks line needs a retry and is
    still inferred [unknown_or_ok]. *)
Theorem infer_issue_of_compliant (text : str) (approx_room : option Z) :
  (_needs_schema_retry text = false →
   _infer_issue approx_room (_preparse_compliance_scan text) = lit "unknown_or_ok")
  ∧ (let comp := _preparse_compliance_scan text in
     has_footer_end_of_log comp = true →
     (0 < count_category_lines comp)%nat → (0 < count_why_lines comp)%nat →
     count_attacks_lines comp = 0%nat →
     _needs_schema_retry text = true
     ∧ _infer_issue approx_room comp = lit "unknown_or_ok").
Proof.
  rewrite needs_schema_retry_spec. unfold scan_passes, _infer_issue.
  destruct (_preparse_compliance_scan text) as [f t nc nw na nb].
  cbn [has_footer_end_of_log count_category_lines count_why_lines
       count_attacks_lines]. split.
  - intros Hp%negb_false_iff.
    destruct f; [|done]. destruct nc; [done|]. by destruct nw.
  - cbv zeta. intros -> Hc Hw ->.
    destruct nc; [lia|]. destruct nw; [lia|]. done.
Qed.

End ReplyDiagnostics.

(** A reply whose attacks line is in lower case, as the parser reads it:
    it needs a retry all the same. *)
Lemma retry_without_label_witness :
  Extractor._needs_schema_retry (rt := AsciiRuntime.runtime)
    (Spec.render_block Blocks.court_order ++ [PyStr.NL] ++ PyStr.lit "[END OF LOG]")
  = true.
Proof.
  apply (retry_without_label (rt := AsciiRuntime.runtime)). right. right.
  vm_compute. reflexivity.
Defined.

(** ** [_safe_head_tail] *)

Section HeadTail.
Import PyStr ExtractorUtil.

(** X5: the head is the prefix of the text of [head] characters (the whole
    text when that is shorter); the tail is the suffix of [tail]
    characters (the whole text when that is not longer), except that
    [tail = 0] gives the whole text and not the empty suffix; and when the
    text has at most [head + tail] characters and [tail] is positive, the
    two cover it. *)
Theorem safe_head_tail_spec (txt : str) (head tail : nat) :
  let '(h, t) := _safe_head_tail txt head tail in
  h `prefix_of` txt
  ∧ length h = Nat.min head (length txt)
  ∧ t `suffix_of` txt
  ∧ (tail = 0%nat → t = txt)
  ∧ ((0 < tail)%nat → length t = Nat.min tail (length txt))
  ∧ ((0 < tail)%nat → (length txt <= head + tail)%nat →
     take (length txt - length t) h ++ t = txt).
Proof.
  unfold _safe_head_tail.
  split; [by exists (drop head txt); rewrite take_drop|].
  split; [by rewrite length_take|].
  destruct (Nat.ltb_spec tail (length txt)) as [Hlt|Hge].
  - destruct tail as [|tail].
    + split; [done|]. split; [done|]. split; [lia|lia].
    + split; [apply suffix_drop|]. split; [done|].
      rewrite length_drop. split; [lia|]. intros _ Hcov.
      remember (length txt - S tail)%nat as k eqn:Hk.
      replace (length txt - (length txt - k))%nat with k by lia.
      rewrite take_take. replace (k `min` head)%nat with k by lia.
      apply take_drop.
  - split; [done|]. split; [done|]. split; [lia|]. intros _ _.
    by rewrite Nat.sub_diag.
Qed.

End HeadTail.

(** ** [_pick_indices] and [split_summary_and_body] *)

Section BuilderSelection.
Import PyStr BuilderUtil Spec.

Lemma pick_indices_ids (n_total : Z) (ids : option (list Z)) (limit : option Z) :
  truthy_list ids = true →
  _pick_indices n_total ids limit
  = filter (λ i, 0 <= i < n_total) (default [] ids).
Proof.
  intros E. unfold _pick_indices. rewrite E. clear E.
  induction (default [] ids) as [|i l IH]; [done|]. cbn [List.filter].
  rewrite filter_cons, IH.
  destruct (Z.leb_spec 0 i), (Z.ltb_spec i n_total); simpl;
    case_decide; try lia; done.
Qed.

(** X6: every index [_pick_indices] returns is a valid position,
    [0 <= i < n_total]. With a non-empty [ids] the result is [ids] without
    its out-of-range elements, order and repetitions kept (so [ids] itself
    when all of it is in range), and [limit] is not looked at; otherwise
    it is [0 .. min(limit, n_total) - 1], all positions when there is no
    limit and none when the limit is zero or negative. *)
Theorem pick_indices_spec (n_total : Z) (ids : option (list Z)) (limit : option Z) :
  Forall (λ i, 0 <= i < n_total) (_pick_indices n_total ids limit)
  ∧ (truthy_list ids = true →
     _pick_indices n_total ids limit = _pick_indices n_total ids None
     ∧ _pick_indices n_total ids limit `sublist_of` default [] ids
     ∧ (∀ i, i ∈ default [] ids → 0 <= i < n_total →
             i ∈ _pick_indices n_total ids limit)
     ∧ _pick_indices n_total ids limit
       = filter (λ i, 0 <= i < n_total) (default [] ids)
     ∧ (Forall (λ i, 0 <= i < n_total) (default [] ids) →
        _pick_indices n_total ids limit = default [] ids))
  ∧ (truthy_list ids = false →
     _pick_indices n_total ids limit
     = seqZ 0 (match limit with Some l => Z.min l n_total | None => n_total end)).
Proof.
  split; [|split].
  - unfold _pick_indices, range. destruct (truthy_list ids).
    + apply Forall_forall. intros i [_ Hi]%list_elem_of_In%filter_In. lia.
    + apply Forall_forall. intros i. destruct limit as [l|].
      * destruct (Z.leb_spec n_total l); rewrite elem_of_seqZ; lia.
      * rewrite elem_of_seqZ. lia.
  - intros E. rewrite !pick_indices_ids by done.
    split; [done|]. split; [apply sublist_filter|]. split; [|split; [done|]].
    + intros i Hi Hr. by apply list_elem_of_filter.
    + intros Hall. induction Hall as [|i l Hi Hl IH]; [done|].
      by rewrite filter_cons_True, IH.
  - intros E. unfold _pick_indices, range. rewrite E.
    destruct limit as [l|]; [|done].
    destruct (Z.leb_spec n_total l); f_equal; lia.
Qed.

Lemma splitlines_join_last (lines : list str) :
  Forall single_line lines → last lines ≠ Some [] →
  splitlines (join [NL] lines) = lines.
Proof.
  unfold splitlines. induction 1 as [|ln lines Hs Hl IH]; [done|].
  destruct lines as [|ln' lines].
  - intros Hne. cbn [join]. rewrite <- (app_nil_r ln), splitlines_go_line by done.
    rewrite !app_nil_r. cbn [splitlines_go].
    destruct (rev ln) eqn:E.
    + apply (f_equal (@rev _)) in E. rewrite rev_involutive in E. by subst ln.
    + by rewrite <- E, rev_involutive.
  - intros Hne.
    change (join [NL] (ln :: ln' :: lines)) with (ln ++ NL :: join [NL] (ln' :: lines)).
    rewrite splitlines_go_line by done. rewrite app_nil_r.
    change (splitlines_go (rev ln) (NL :: join [NL] (ln' :: lines)))
      with (rev (rev ln) :: splitlines_go [] (join [NL] (ln' :: lines))).
    rewrite rev_involutive, IH; [done|]. by rewrite last_cons_cons in Hne.
Qed.

(** X7: a text without the [Summary:] prefix is returned whole as the
    body, with an empty summary. A text whose first line is [Summary: s],
    for a one-line [s] without white space around it, splits into [s] and
    the lines after the first, joined again and without leading white
    space. *)
Theorem split_summary_and_body_spec :
  (∀ text, startswith (lit "Summary:") text = false →
           split_summary_and_body text = ([], text))
  ∧ (∀ (s : str) (ls : list str),
       clean s → Forall single_line ls → last ls ≠ Some [] →
       split_summary_and_body (join [NL] ((lit "Summary: " ++ s) :: ls))
       = (s, lstrip (join [NL] ls))).
Proof.
  split.
  - intros text Hs. unfold split_summary_and_body. rewrite Hs. by destruct text.
  - intros s ls [Ht Hs] Hls Hlast. unfold split_summary_and_body.
    set (text := join [NL] ((lit "Summary: " ++ s) :: ls)).
    assert (text = lit "Summary:" ++ 32%N :: s ++ match ls with
                                               | [] => []
                                               | _ => NL :: join [NL] ls
                                               end) as Htext.
    { unfold text. destruct ls; cbn [join]; [by rewrite app_nil_r|].
      by rewrite <- !app_assoc. }
    assert (startswith (lit "Summary:") text = true) as ->
      by (rewrite Htext; apply startswith_app).
    assert (nonempty text = true) as -> by (by rewrite Htext).
    cbn [negb]. unfold text. rewrite splitlines_join_last.
    + cbn [tail]. f_equal.
      change (lit "Summary: " ++ s) with (lit "Summary:" ++ 32%N :: s).
      rewrite drop_app_length.
      change (strip (32%N :: s)) with (strip s). by apply strip_trimmed.
    + apply Forall_cons_2; [|done]. by apply (single_line_app (lit "Summary: ")).
    + destruct ls as [|l ls]; [done|]. by rewrite last_cons_cons.
Qed.

End BuilderSelection.

(** A summary line, a blank line and a body of two lines. *)
Lemma split_summary_and_body_witness :
  BuilderUtil.split_summary_and_body
    (PyStr.join [PyStr.NL]
       [PyStr.lit "Summary: A judge blocked the order.";
        []; PyStr.lit "First line"; PyStr.lit "second line"])
  = (PyStr.lit "A judge blocked the order.",
     PyStr.join [PyStr.NL] [PyStr.lit "First line"; PyStr.lit "second line"]).
Proof.
  pose proof split_summary_and_body_spec as [_ Hs].
  apply (Hs (PyStr.lit "A judge blocked the order.")
            [[]; PyStr.lit "First line"; PyStr.lit "second line"]).
  - split; [by apply strip_fixed_trimmed|reflexivity].
  - repeat (apply Forall_cons_2; [reflexivity|]). apply Forall_nil_2.
  - vm_compute. discriminate.
Defined.

(** ** The weeks of the calendar, side by side *)

Section WeekTiling.
Context {rt : PyRuntime}.
Import PyStr Helper Writer.

Lemma resolve_week_any (N : Z) (s e : date) :
  1 <= N → resolve_date_window None None None (Some N) = Ok (s, e) →
  (N = 1 ∧ s = 739271 ∧ e = 739275)
  ∨ (2 <= N ∧ s = 739276 + 7 * (N - 2) ∧ e = s + 6 ∧ e <= MAXORDINAL).
Proof.
  intros HN Hr. destruct anchors as (HI & HF & HS & _).
  destruct (Z.eq_dec N 1) as [->|Hne].
  - left. revert Hr. change (resolve_date_window None None None (Some 1))
      with (Ok (INAUGURATION_DAY, FIRST_FRIDAY)).
    rewrite HI, HF. by intros [= <- <-].
  - right. apply resolve_week_inv in Hr as (-> & -> & Hmax); [|lia].
    rewrite HS in *. repeat split; lia.
Qed.

Lemma resolve_week_some (N : Z) :
  1 <= N → 739276 + 7 * (N - 2) + 6 <= MAXORDINAL →
  resolve_date_window None None None (Some N)
  = Ok (if N =? 1 then (739271, 739275)
        else (739276 + 7 * (N - 2), 739276 + 7 * (N - 2) + 6)).
Proof.
  intros HN Hmax. destruct anchors as (HI & HF & HS & _).
  destruct (Z.eqb_spec N 1) as [->|Hne].
  - change (resolve_date_window None None None (Some 1))
      with (Ok (INAUGURATION_DAY, FIRST_FRIDAY)). by rewrite HI, HF.
  - rewrite resolve_week_only by (rewrite ?HS; lia). by rewrite HS.
Qed.

Lemma resolve_count_inv (N m : Z) (s e : date) :
  1 <= N → 1 <= m →
  resolve_date_window None None (Some m) (Some N) = Ok (s, e) →
  ∃ e1, resolve_date_window None None None (Some N) = Ok (s, e1)
        ∧ e = e1 + 7 * (m - 1) ∧ e <= MAXORDINAL.
Proof.
  intros HN Hm. destruct anchors as (HI & HF & HS & _).
  unfold resolve_date_window, truthy, truthy_int, default, from_option, id.
  destruct (Z.eqb_spec N 0); [lia|]. destruct (Z.eqb_spec m 0); [lia|].
  cbn [negb andb]. cbv iota. destruct (Z.ltb_spec N 1); [lia|].
  destruct (Z.eqb_spec N 1) as [->|Hne].
  - cbn [mbind result_bind]. destruct (Z.ltb_spec 1 m).
    + destruct (add_days FIRST_FRIDAY _) as [ed|] eqn:E; [|discriminate].
      apply add_days_inv in E as (-> & [_ Hhi] & _).
      intros [= <- <-]. eexists. split; [reflexivity|]. split; lia.
    + intros [= <- <-]. eexists. split; [reflexivity|].
      rewrite HF. unfold MAXORDINAL. split; lia.
  - destruct (add_days FIRST_SATURDAY _) as [sd|] eqn:E1; [|discriminate].
    cbn [mbind result_bind].
    destruct (add_days sd 6) as [ed|] eqn:E2; [|discriminate].
    cbn [mbind result_bind].
    apply add_days_inv in E2 as (-> & [_ Hhi2] & _).
    destruct (Z.ltb_spec 1 m).
    + destruct (add_days (sd + 6) _) as [ed|] eqn:E3; [|discriminate].
      apply add_days_inv in E3 as (-> & [_ Hhi] & _).
      intros [= <- <-]. eexists. split; [reflexivity|]. split; lia.
    + intros [= <- <-]. eexists. split; [reflexivity|]. split; lia.
Qed.

(** X8: the weeks of the calendar lie side by side. A window of [m] weeks
    from week [N] starts where the window of week [N] starts and ends
    where the window of week [N + m - 1] ends; and the window of week
    [N + 1] starts on the day after the window of week [N] ends. *)
Theorem resolve_weeks_tile (N : Z) :
  1 <= N →
  (∀ m s e, 1 <= m →
     resolve_date_window None None (Some m) (Some N) = Ok (s, e) →
     ∃ e1 s2, resolve_date_window None None None (Some N) = Ok (s, e1)
              ∧ resolve_date_window None None None (Some (N + m - 1)) = Ok (s2, e))
  ∧ (∀ s1 e1 s2 e2,
       resolve_date_window None None None (Some N) = Ok (s1, e1) →
       resolve_date_window None None None (Some (N + 1)) = Ok (s2, e2) →
       s2 = e1 + 1).
Proof.
  intros HN. split.
  - intros m s e Hm Hr.
    destruct (resolve_count_inv _ _ _ _ HN Hm Hr) as (e1 & H1 & -> & Hmax).
    exists e1. destruct (resolve_week_any _ _ _ HN H1) as [(-> & -> & ->) | (H2 & -> & -> & _)].
    + destruct (Z.eq_dec m 1) as [->|].
      * exists 739271. by rewrite H1, Z.add_0_r.
      * exists (739276 + 7 * (m - 2)). split; [done|].
        rewrite resolve_week_some by (unfold MAXORDINAL in *; lia).
        destruct (Z.eqb_spec (1 + m - 1) 1); [lia|]. do 2 f_equal; lia.
    + exists (739276 + 7 * (N + m - 1 - 2)). split; [done|].
      rewrite resolve_week_some by (unfold MAXORDINAL in *; lia).
      destruct (Z.eqb_spec (N + m - 1) 1); [lia|]. do 2 f_equal; lia.
  - intros s1 e1 s2 e2 H1 H2.
    apply resolve_week_any in H1; [|lia]. apply resolve_week_any in H2; [|lia].
    lia.
Qed.

(** X9: [dc_week_for] gives every date of the calendar from 2025-01-20 on
    its week, and never fails: the last week ends on 9999-12-31, the last
    date there is. The date lies in the window returned, which is the
    window the resolver gives for that week number; and later dates never
    get smaller week numbers. *)
Theorem dc_week_for_total (d : date) :
  valid d →
  (d < ymd2ord 2025 1 20 ∧ dc_week_for d = Ok None)
  ∨ (∃ n s e, dc_week_for d = Ok (Some (n, s, e))
              ∧ 1 <= n ∧ s <= d <= e ∧ valid s ∧ valid e
              ∧ resolve_date_window None None None (Some n) = Ok (s, e)
              ∧ ∀ d' n' s' e', d <= d' →
                  dc_week_for d' = Ok (Some (n', s', e')) → n <= n').
Proof.
  intros [Hlo Hhi]. destruct anchors as (HI & HF & HS & H1 & H2 & H3).
  change (ymd2ord 2025 1 20) with 739271.
  unfold MINORDINAL, MAXORDINAL in *.
  assert (∀ d', 739275 < d' →
            dc_week_for d' = Ok (Some (2 + (d' - 739276) / 7,
                                       739276 + 7 * ((d' - 739276) / 7),
                                       739276 + 7 * ((d' - 739276) / 7) + 6))
            ∨ ∃ e, dc_week_for d' = Raise e) as Hlate.
  { intros d' Hd'. unfold dc_week_for, days_between. rewrite H1, H2, H3.
    destruct (Z.ltb_spec d' 739271); [lia|].
    destruct (Z.leb_spec d' 739275); [lia|].
    destruct (add_days 739276 _) as [sd|] eqn:E1; [|right; by eexists].
    apply add_days_inv in E1 as (-> & _ & _). cbn [mbind result_bind].
    destruct (add_days _ 6) as [ed|] eqn:E2; [|right; by eexists].
    apply add_days_inv in E2 as (-> & _ & _). by left. }
  destruct (Z.lt_ge_cases d 739271) as [Hd|Hd].
  - left. split; [done|]. by apply dc_week_for_none.
  - right. destruct (Z.le_gt_cases d 739275) as [Hw1|Hw2].
    + exists 1, 739271, 739275. split; [|split; [lia|split; [lia|split; [|split; [|split]]]]].
      * unfold dc_week_for. rewrite H1, H2.
        destruct (Z.ltb_spec d 739271); [lia|].
        by destruct (Z.leb_spec d 739275); [|lia].
      * unfold valid, MINORDINAL, MAXORDINAL. lia.
      * unfold valid, MINORDINAL, MAXORDINAL. lia.
      * change (resolve_date_window None None None (Some 1))
          with (Ok (INAUGURATION_DAY, FIRST_FRIDAY)). by rewrite HI, HF.
      * intros d' n' s' e' Hdd Hr.
        destruct (Z.le_gt_cases d' 739275) as [Hle|Hgt].
        -- revert Hr. unfold dc_week_for. rewrite H1, H2.
           destruct (Z.ltb_spec d' 739271); [lia|].
           destruct (Z.leb_spec d' 739275); [|lia]. by intros [= <- _ _].
        -- destruct (Hlate d' Hgt) as [Hq | [x Hq]]; rewrite Hq in Hr; [|done].
           injection Hr as <- _ _.
           pose proof (Z.div_pos (d' - 739276) 7). lia.
    + pose proof (Z.div_mod (d - 739276) 7 ltac:(lia)) as Hdm.
      pose proof (Z.mod_pos_bound (d - 739276) 7 ltac:(lia)) as Hmb.
      set (q := (d - 739276) / 7) in *.
      exists (2 + q), (739276 + 7 * q), (739276 + 7 * q + 6).
      assert (0 <= q <= 416111) as Hq by lia.
      split; [|split; [lia|split; [lia|split; [|split; [|split]]]]].
      * unfold dc_week_for, days_between. rewrite H1, H2, H3.
        destruct (Z.ltb_spec d 739271); [lia|].
        destruct (Z.leb_spec d 739275); [lia|]. fold q.
        rewrite add_days_ok by (unfold MINORDINAL, MAXORDINAL; lia).
        cbn [mbind result_bind].
        by rewrite add_days_ok by (unfold MINORDINAL, MAXORDINAL; lia).
      * unfold valid, MINORDINAL, MAXORDINAL. lia.
      * unfold valid, MINORDINAL, MAXORDINAL. lia.
      * rewrite resolve_week_some by (unfold MAXORDINAL; lia).
        destruct (Z.eqb_spec (2 + q) 1); [lia|]. do 2 f_equal; lia.
      * intros d' n' s' e' Hdd Hr.
        destruct (Hlate d' ltac:(lia)) as [Hq' | [x Hq']]; rewrite Hq' in Hr; [|done].
        injection Hr as <- _ _.
        pose proof (Z.div_le_mono (d - 739276) (d' - 739276) 7). lia.
Qed.

End WeekTiling.

(** Four weeks from week 3 end where week 6 ends; week 4 starts on the
    day after week 3. *)
Lemma resolve_weeks_tile_witness :
  (∃ e1 s2,
     Helper.resolve_date_window (rt := AsciiRuntime.runtime) None None None (Some 3)
     = Ok (ymd2ord 2025 2 1, e1)
     ∧ Helper.resolve_date_window (rt := AsciiRuntime.runtime) None None None
         (Some (3 + 4 - 1))
       = Ok (s2, ymd2ord 2025 2 28))
  ∧ ymd2ord 2025 2 8 = ymd2ord 2025 2 7 + 1.
Proof.
  pose proof (resolve_weeks_tile (rt := AsciiRuntime.runtime) 3 ltac:(lia)) as [Hm Ha].
  split.
  - apply (Hm 4); [lia|reflexivity].
  - apply (Ha (ymd2ord 2025 2 1) (ymd2ord 2025 2 7) (ymd2ord 2025 2 8)
              (ymd2ord 2025 2 14)); reflexivity.
Defined.

(** 9999-12-31 lies in the last week, which ends on that day. *)
Lemma dc_week_for_total_witness :
  valid date_max
  ∧ ∃ n s, Writer.dc_week_for date_max = Ok (Some (n, s, date_max)) ∧ s <= date_max.
Proof.
  assert (valid date_max) as Hv
    by (unfold valid, date_max, MINORDINAL, MAXORDINAL; lia).
  split; [exact Hv|].
  destruct (dc_week_for_total (rt := AsciiRuntime.runtime) date_max Hv)
    as [[Hlt _] | (n & s & e & Hr & _ & [Hs He] & _)].
  - exfalso. change (ymd2ord 2025 1 20) with 739271 in Hlt.
    unfold date_max, MAXORDINAL in Hlt. lia.
  - exists n, s. split; [|lia].
    change (Writer.dc_week_for date_max)
      with (Ok (Some (416113, date_max - 6, date_max)) : result (option (Z * date * date)))
      in Hr |- *.
    by injection Hr as <- <- <-.
Defined.

(** ** What the window filter keeps *)

Section WindowKept.
Context {rt : PyRuntime}.
Import PyStr Docket SpecUtil.







End WindowKept.

(** ** The messages of a request *)

Section Messages.
Context {rt : PyRuntime}.
Import PyStr Extractor Spec.

Lemma contains_at (sub a b x : str) : x = a ++ sub ++ b → contains sub x = true.
Proof. intros ->. apply contains_app. Qed.

Lemma startswith_at (p b x : str) : x = p ++ b → startswith p x = true.
Proof. intros ->. apply startswith_app. Qed.

Ltac assoc := repeat (progress (rewrite <- ?app_assoc; cbn [app])); reflexivity.

(** X11: [build_messages] always gives two messages, a system message and
    then a user message. The system message is never blank and has no
    white space around it: the caller's prompt stripped, or the built-in
    instruction when that is blank or missing. The user message ends with
    the line [ARTICLE_TEXT:] and the article text, cut to its first
    200000 characters and whole when it is not longer; before that it
    names the URL, and the date and the title when they are given. *)
Theorem build_messages_spec (article_url article_text : str)
    (system_prompt article_title article_date : option str) :
  ∃ system_msg header,
    build_messages article_url article_text system_prompt article_title article_date
    = [ {| role := lit "system"; content := system_msg |};
        {| role := lit "user";
           content := header ++ lit "ARTICLE_TEXT:" ++ [NL]
                      ++ take MAX_CHARS article_text |} ]
    ∧ system_msg ≠ [] ∧ trimmed system_msg
    ∧ (strip (oget system_prompt) ≠ [] → system_msg = strip (oget system_prompt))
    ∧ (Z.of_nat (length (take MAX_CHARS article_text)) <= 200000)
    ∧ (Z.of_nat (length article_text) <= 200000 →
       take MAX_CHARS article_text = article_text)
    ∧ contains (lit "ARTICLE_URL: " ++ article_url ++ [NL]) header = true
    ∧ (truthy article_date = true →
       startswith (lit "ARTICLE_DATE: " ++ oget article_date ++ [NL]) header = true)
    ∧ (truthy article_title = true →
       contains (lit "ARTICLE_TITLE: " ++ oget article_title ++ [NL]) header = true).
Proof.
  unfold build_messages. cbv zeta.
  set (header_lines := (if truthy article_date then _ else _) ++ _).
  set (reminder := lit "FORMAT REMINDER:" ++ _).
  eexists _, (join [NL] header_lines ++ [NL; NL] ++ reminder ++ [NL]).
  split; [|split; [|split; [|split; [|split; [|split; [|split; [|split]]]]]]].
  - f_equal. f_equal. f_equal. rewrite <- !app_assoc. reflexivity.
  - by destruct (strip (oget system_prompt)).
  - destruct (strip (oget system_prompt)) eqn:E; cbn [nonempty negb].
    + by apply strip_fixed_trimmed.
    + rewrite <- E. by destruct (strip_spec (oget system_prompt)) as (? & ? & _ & _ & _ & ?).
  - by destruct (strip (oget system_prompt)).
  - rewrite length_take. unfold MAX_CHARS. lia.
  - intros Hlen. apply take_ge. unfold MAX_CHARS. lia.
  - unfold header_lines.
    destruct (truthy article_date), (truthy article_title); cbn [app join].
    + apply (contains_at _ (lit "ARTICLE_DATE: " ++ oget article_date ++ [NL] ++
                             lit "ARTICLE_TITLE: " ++ oget article_title ++ [NL])
                         ([NL] ++ reminder ++ [NL])). assoc.
    + apply (contains_at _ (lit "ARTICLE_DATE: " ++ oget article_date ++ [NL])
                         ([NL] ++ reminder ++ [NL])). assoc.
    + apply (contains_at _ (lit "ARTICLE_TITLE: " ++ oget article_title ++ [NL])
                         ([NL] ++ reminder ++ [NL])). assoc.
    + apply (contains_at _ [] ([NL] ++ reminder ++ [NL])). assoc.
  - intros Hd. unfold header_lines. rewrite Hd.
    destruct (truthy article_title); cbn [app join].
    + apply (startswith_at _ (lit "ARTICLE_TITLE: " ++ oget article_title ++ [NL] ++
                              lit "ARTICLE_URL: " ++ article_url ++
                              [NL; NL] ++ reminder ++ [NL])). assoc.
    + apply (startswith_at _ (lit "ARTICLE_URL: " ++ article_url ++
                              [NL; NL] ++ reminder ++ [NL])). assoc.
  - intros Ht. unfold header_lines. rewrite Ht.
    destruct (truthy article_date); cbn [app join].
    + apply (contains_at _ (lit "ARTICLE_DATE: " ++ oget article_date ++ [NL])
                         (lit "ARTICLE_URL: " ++ article_url ++
                          [NL; NL] ++ reminder ++ [NL])). assoc.
    + apply (contains_at _ [] (lit "ARTICLE_URL: " ++ article_url ++
                               [NL; NL] ++ reminder ++ [NL])). assoc.
Qed.

End Messages.

(** ** Rows without a category *)

Section BlankCategory.
Context {rt : PyRuntime}.
Import PyStr Writer.

Lemma index_of_bound (x : str) (xs : list str) (i : nat) :
  index_of x xs = Some i → (i < length xs)%nat.
Proof.
  revert i. induction xs as [|y xs IH]; intros i; simpl; [done|].
  destruct (eqb x y); [intros [= <-]; lia|].
  destruct (index_of x xs) as [j|]; [|done]. simpl. intros [= <-].
  specialize (IH j eq_refl). lia.
Qed.

Lemma cat_rank_blank (c : str) :
  ((_cat_rank c).1 <= 13)%nat ∧ ((_cat_rank c).1 = 13%nat ↔ c = []).
Proof.
  unfold _cat_rank. destruct c as [|a c]; [by split|]. cbn [nonempty negb].
  destruct (index_of (a :: c) CATEGORY_ORDER) as [i|] eqn:E; cbn [fst].
  - apply index_of_bound in E. change (length CATEGORY_ORDER) with 12%nat in E.
    split; [lia|]. split; [lia|done].
  - change (length CATEGORY_ORDER) with 12%nat. split; [lia|]. split; [lia|done].
Qed.

(** X12: in the sorted master list a row without a category comes after
    the rows of its date that have one, known or not: whatever follows a
    row with an empty category and has the same date key has an empty
    category too. *)
Theorem blank_category_last (rows l1 l2 : list EventRow) (a b : EventRow) :
  sort_rows rows = l1 ++ a :: l2 → b ∈ l2 →
  default date_max (date_obj a) = default date_max (date_obj b) →
  category a = [] → category b = [].
Proof.
  intros Hs Hb Hd Ha. pose proof (sort_rows_sorted rows) as Hsorted.
  rewrite Hs in Hsorted. apply StronglySorted_app_1_r in Hsorted.
  apply StronglySorted_inv in Hsorted as [_ Hall].
  rewrite Forall_forall in Hall. specialize (Hall b Hb).
  unfold Spec.row_le, sort_key in Hall. cbv zeta in Hall. rewrite Hd, Ha in Hall.
  destruct (cat_rank_blank (category b)) as [Hle Hiff].
  change (_cat_rank []).1 with 13%nat in Hall.
  cbn [Spec.key_le] in Hall. apply Hiff.
  destruct Hall as [?|[_ [?|[? _]]]]; lia.
Qed.

End BlankCategory.

(** Two rows without a category and one with, all of one day. *)
Lemma blank_category_last_witness :
  Writer.category (Examples.row_example (Some (ymd2ord 2025 2 1)) "" "b") = [].
Proof.
  apply (blank_category_last (rt := AsciiRuntime.runtime)
           [Examples.row_example (Some (ymd2ord 2025 2 1)) "" "a";
            Examples.row_example (Some (ymd2ord 2025 2 1)) "Judicial Developments" "c";
            Examples.row_example (Some (ymd2ord 2025 2 1)) "" "b"]
           [Examples.row_example (Some (ymd2ord 2025 2 1)) "Judicial Developments" "c"]
           [Examples.row_example (Some (ymd2ord 2025 2 1)) "" "b"]
           (Examples.row_example (Some (ymd2ord 2025 2 1)) "" "a")).
  - vm_compute. reflexivity.
  - apply list_elem_of_singleton. reflexivity.
  - reflexivity.
  - reflexivity.
Defined.

(** ** The spellings of an attacks list *)

Section AttackSpellings.
Context {rt : PyRuntime}.
Import PyStr BuilderHelper Spec.

Lemma space_not_sep (pad : str) :
  forallb is_space pad = true → forallb (λ c, negb (is_sep c)) pad = true.
Proof.
  induction pad as [|c pad IH]; [done|]. cbn [forallb].
  intros [Hc Hp]%andb_prop. rewrite IH by done. rewrite andb_true_r.
  unfold is_sep. destruct (N.eqb_spec c 59) as [->|]; [done|].
  by destruct (N.eqb_spec c 44) as [->|].
Qed.

Lemma split_on_join_sep (sep : char) (pad cur t : str) (toks : list str) :
  is_sep sep = true → forallb is_space pad = true →
  Forall (λ t, forallb (λ c, negb (is_sep c)) t = true) (t :: toks) →
  split_on_go is_sep cur (join (sep :: pad) (t :: toks))
  = (rev cur ++ t) :: List.map (app pad) toks.
Proof.
  intros Hsep Hpad. revert cur t.
  induction toks as [|t' toks IH]; intros cur t [Ht Hl]%Forall_cons.
  - cbn [join List.map]. rewrite <- (app_nil_r t) at 1.
    rewrite split_on_go_piece by done. cbn [split_on_go].
    by rewrite rev_app_distr, rev_involutive.
  - change (join (sep :: pad) (t :: t' :: toks))
      with (t ++ sep :: pad ++ join (sep :: pad) (t' :: toks)).
    rewrite split_on_go_piece by done. cbn [split_on_go]. rewrite Hsep.
    rewrite split_on_go_piece by (by apply space_not_sep).
    rewrite IH by done. rewrite app_nil_r, !rev_app_distr, !rev_involutive.
    done.
Qed.

Lemma attack_handle_pad (pad t : str) :
  forallb is_space pad = true → attack_handle (pad ++ t) = attack_handle t.
Proof.
  intros Hp. unfold attack_handle, strip, lstrip. by rewrite drop_while_app.
Qed.

Lemma handles_of_padded (pad : str) (t : str) (toks : list str) :
  forallb is_space pad = true → Forall token_ok (t :: toks) →
  flat_map (λ part, let h := attack_handle part in
                    if nonempty h then [normalize_handle h] else [])
           (t :: List.map (app pad) toks)
  = List.map (λ tok, normalize_handle (attack_handle tok)) (t :: toks).
Proof.
  intros Hp Hok. apply handles_of_tokens.
  - constructor; [done|]. clear Hok. induction toks; constructor; [|done].
    by apply attack_handle_pad.
  - eapply Forall_impl; [exact Hok|]. intros ? Hk. apply Hk.
Qed.

(** X13: an attacks list reads the same however it is spelled. For
    tokens without separators and white space around them, joined by a
    comma or a semicolon with any white space after it, the parser gives
    the normalised tokens, in order, with brackets around the list and,
    when the list does not itself start with [[] and end with []],
    without them. *)
Theorem attacks_list_spellings (sep : char) (pad : str) (toks : list str) :
  is_sep sep = true → forallb is_space pad = true → Forall token_ok toks →
  let written := join (sep :: pad) toks in
  attacks_list_of (lit "[" ++ written ++ lit "]")
  = List.map (λ tok, normalize_handle (attack_handle tok)) toks
  ∧ (startswith (lit "[") written && endswith (lit "]") written = false →
     attacks_list_of written
     = List.map (λ tok, normalize_handle (attack_handle tok)) toks).
Proof.
  intros Hsep Hpad Hok written.
  assert (trimmed written ∧ (toks ≠ [] → written ≠ [])) as [Htr Hne].
  { apply trimmed_join. eapply Forall_impl; [exact Hok|].
    intros t Ht. split; [apply Ht|by apply token_ok_nonempty]. }
  assert (flat_map (λ part, let h := attack_handle part in
                            if nonempty h then [normalize_handle h] else [])
                   (split_on is_sep written)
          = List.map (λ tok, normalize_handle (attack_handle tok)) toks) as Hsplit.
  { unfold written, split_on. destruct toks as [|t toks]; [reflexivity|].
    rewrite split_on_join_sep; [|done|done|].
    - by apply handles_of_padded.
    - eapply Forall_impl; [exact Hok|]. intros ? Hk. apply Hk. }
  split.
  - change (lit "[" ++ written ++ lit "]") with (91%N :: written ++ [93%N]).
    unfold attacks_list_of. cbn [nonempty].
    assert (strip (91%N :: written ++ [93%N]) = 91%N :: written ++ [93%N]) as ->.
    { apply strip_trimmed. split; [done|]. by exists (91%N :: written), 93%N. }
    assert (endswith (lit "]") (91%N :: written ++ [93%N]) = true) as ->.
    { unfold endswith. cbn [rev]. by rewrite rev_app_distr. }
    change (startswith (lit "[") (91%N :: written ++ [93%N])) with true.
    cbn [andb]. cbv zeta.
    assert (slice 1 (length (91%N :: written ++ [93%N]) - 1) (91%N :: written ++ [93%N])
            = written) as ->.
    { unfold slice. change (drop 1 (91%N :: written ++ [93%N])) with (written ++ [93%N]).
      replace (length (91%N :: written ++ [93%N]) - 1 - 1)%nat with (length written);
        [by rewrite take_app_length|].
      cbn [length]. rewrite length_app. cbn [length]. lia. }
    by rewrite strip_trimmed.
  - intros Hnb. unfold attacks_list_of.
    destruct written as [|c w] eqn:Ew.
    + destruct toks as [|t toks]; [done|]. by destruct Hne.
    + cbn [nonempty]. rewrite <- Ew in *. rewrite strip_trimmed by done.
      rewrite Hnb. cbv zeta. done.
Qed.

End AttackSpellings.

(** Two tokens after semicolons, without brackets. *)
Lemma attacks_list_spellings_witness :
  BuilderHelper.attacks_list_of (rt := AsciiRuntime.runtime)
    (PyStr.lit "courts;  'Rule of Law'")
  = [PyStr.lit "courts"; PyStr.lit "rule_of_law"].
Proof.
  assert (Forall Spec.token_ok [PyStr.lit "courts"; PyStr.lit "'Rule of Law'"]) as Hok.
  { repeat (apply Forall_cons_2;
            [split; [split; [by apply strip_fixed_trimmed|reflexivity]|];
             split; [reflexivity|vm_compute; discriminate]|]).
    apply Forall_nil_2. }
  destruct (attacks_list_spellings (rt := AsciiRuntime.runtime) 59%N (PyStr.lit "  ")
              [PyStr.lit "courts"; PyStr.lit "'Rule of Law'"] eq_refl eq_refl Hok)
    as [_ H].
  apply H. reflexivity.
Defined.

(** ** One event for every header line *)

Section HeaderBlocks.
Context {rt : PyRuntime}.
Import PyStr PyRe BuilderHelper Spec.

(** No decimal digit of the Unicode tables is white space. *)
Hypothesis digits_not_space : ∀ c, uni_decimal c = true → is_space c = false.

Lemma is_digit_not_space (c : char) : is_digit c = true → is_space c = false.
Proof.
  unfold is_digit. intros [H | [_ H]%andb_prop]%orb_prop.
  - by apply digit_not_space.
  - by apply digits_not_space.
Qed.

Lemma linebreak_is_space (c : char) : is_linebreak c = true → is_space c = true.
Proof.
  unfold is_linebreak, is_space, in_range.
  rewrite !orb_true_iff, !andb_true_iff, !N.leb_le, !N.eqb_eq. lia.
Qed.

Lemma header_some prev (x rest : str) (cs : caps) :
  m M _HEADER_RE accept prev x [] = Some (rest, cs) →
  ∃ c y, x = c :: y ∧ is_space c = false.
Proof.
  intros Hm. destruct (negb (at_bol M prev) || plain_start x) eqn:E.
  - by rewrite header_none in Hm.
  - apply orb_false_elim in E as [_ E]. destruct x as [|c y]; [done|].
    exists c, y. split; [done|]. cbn [plain_start] in E.
    apply andb_false_iff in E as [E|E]; apply negb_false_iff in E.
    + by apply is_digit_not_space.
    + by apply N.eqb_eq in E as ->.
Qed.

Lemma finditer_header_starts (x : str) (pos skip : nat) prev :
  Forall (λ hm, (pos + skip <= m_start hm)%nat
                ∧ ∃ c y, drop (m_start hm - pos) x = c :: y ∧ is_space c = false)
         (finditer_go M _HEADER_RE pos skip prev x)
  ∧ StronglySorted (λ a b, (m_start a < m_start b)%nat)
      (finditer_go M _HEADER_RE pos skip prev x).
Proof.
  revert pos skip prev. induction x as [|c x IH]; intros pos skip prev.
  - destruct skip as [|skip]; cbn [finditer_go].
    + rewrite header_none by (cbn; apply orb_true_r). split; constructor.
    + split; constructor.
  - assert (∀ skip' hs,
              Forall (λ hm, (S pos + skip' <= m_start hm)%nat
                            ∧ ∃ c' y, drop (m_start hm - S pos) x = c' :: y
                                      ∧ is_space c' = false) hs →
              Forall (λ hm, (pos + S skip' <= m_start hm)%nat
                            ∧ ∃ c' y, drop (m_start hm - pos) (c :: x) = c' :: y
                                      ∧ is_space c' = false) hs) as Hshift.
    { intros skip' hs Hf. eapply Forall_impl; [exact Hf|].
      intros hm [Hle Hd]. split; [lia|].
      replace (m_start hm - pos)%nat with (S (m_start hm - S pos)) by lia.
      exact Hd. }
    destruct skip as [|skip]; cbn [finditer_go].
    + destruct (m M _HEADER_RE accept prev (c :: x) []) as [[rest cs]|] eqn:E.
      * cbv zeta. destruct (IH (S pos) (length (c :: x) - length rest - 1)%nat (Some c))
          as [Hf Hs].
        apply Hshift in Hf. split.
        -- constructor.
           ++ cbn [m_start]. split; [lia|]. rewrite Nat.sub_diag. cbn [drop].
              destruct (header_some _ _ _ _ E) as (c' & y & [= <- <-] & Hc).
              by exists c, x.
           ++ eapply Forall_impl; [exact Hf|]. intros hm [Hle Hd]. split; [lia|done].
        -- constructor; [done|]. eapply Forall_impl; [exact Hf|].
           intros hm [Hle _]. cbn [m_start]. lia.
      * destruct (IH (S pos) 0%nat (Some c)) as [Hf Hs]. apply Hshift in Hf.
        split; [|done]. eapply Forall_impl; [exact Hf|].
        intros hm [Hle Hd]. split; [lia|done].
    + destruct (IH (S pos) skip (Some c)) as [Hf Hs]. apply Hshift in Hf.
      by split.
Qed.

Lemma strip_head (c : char) (z : str) :
  is_space c = false → ∃ z', strip (c :: z) = c :: z'.
Proof.
  intros Hc. unfold strip. rewrite lstrip_id by done.
  destruct (rstrip_spec (c :: z)) as (r & Hx & Hr & _).
  destruct (rstrip (c :: z)) as [|c' z'] eqn:E.
  - simpl in Hx. subst r. simpl in Hr. by rewrite Hc in Hr.
  - simpl in Hx. injection Hx as <- _. by exists z'.
Qed.

Lemma splitlines_go_cur (cur x : str) :
  cur ≠ [] → ∃ l ls, splitlines_go cur x = (rev cur ++ l) :: ls.
Proof.
  revert cur. induction x as [|d x IH]; intros cur Hc.
  - exists [], []. destruct cur; [done|]. cbn [splitlines_go]. by rewrite app_nil_r.
  - cbn [splitlines_go]. destruct (is_linebreak d).
    + exists []. rewrite app_nil_r.
      repeat match goal with
             | |- context [match ?v with _ => _ end] => is_var v; destruct v
             end; by eexists.
    + destruct (IH (d :: cur)) as (l & ls & ->); [done|].
      exists (d :: l), ls. cbn [rev]. by rewrite <- app_assoc.
Qed.

Lemma block_lines_head (c : char) (z : str) :
  is_space c = false → ∃ l ls, block_lines (c :: z) = l :: ls.
Proof.
  intros Hc. unfold block_lines, splitlines. cbn [splitlines_go].
  destruct (is_linebreak c) eqn:El; [apply linebreak_is_space in El; congruence|].
  destruct (splitlines_go_cur [c] z) as (l & ls & ->); [done|].
  cbn [rev app List.filter]. rewrite strip_head_nonempty by done.
  cbn [List.map]. by eexists _, _.
Qed.

Lemma event_of_lines_header (cs : caps) (l : str) (ls : list str) (url : str) :
  ∃ ev, event_of_lines cs (l :: ls) url = [ev]
        ∧ ev_date ev = strip (group 1 cs) ∧ ev_title ev = strip (group 2 cs).
Proof.
  unfold event_of_lines.
  destruct (match ls with
            | l1 :: rest => if is_url_line l1 then (strip l1, rest) else ([], ls)
            | [] => ([], [])
            end) as [u fl].
  by eexists.
Qed.

Lemma parse_block_one (text url : str) (hm : rmatch) (end_ : nat) (c : char) (y : str) :
  (m_start hm < end_)%nat → drop (m_start hm) text = c :: y → is_space c = false →
  ∃ ev, parse_block text url hm end_ = [ev]
        ∧ ev_date ev = strip (group 1 (m_caps hm))
        ∧ ev_title ev = strip (group 2 (m_caps hm)).
Proof.
  intros Hlt Hd Hc. unfold parse_block, slice. rewrite Hd.
  replace (end_ - m_start hm)%nat with (S (end_ - m_start hm - 1)) by lia.
  cbn [take]. destruct (strip_head c (take (end_ - m_start hm - 1) y) Hc) as (z' & ->).
  destruct (block_lines_head c z' Hc) as (l & ls & ->).
  apply event_of_lines_header.
Qed.

Lemma parse_headers_all (text url : str) (headers : list rmatch) :
  StronglySorted (λ a b, (m_start a < m_start b)%nat) headers →
  Forall (λ hm, ∃ c y, drop (m_start hm) text = c :: y ∧ is_space c = false) headers →
  List.map (λ ev, (ev_date ev, ev_title ev)) (parse_headers text url headers)
  = List.map (λ hm, (strip (group 1 (m_caps hm)), strip (group 2 (m_caps hm)))) headers.
Proof.
  induction 1 as [|hm rest Hs IH Hlt]; intros Hf; [done|].
  apply Forall_cons in Hf as [(c & y & Hd & Hc) Hf].
  cbn [parse_headers].
  destruct (parse_block_one text url hm
              (match rest with next :: _ => m_start next | [] => length text end) c y)
    as (ev & -> & He1 & He2); [|done|done|].
  - destruct rest as [|next rest].
    + apply (f_equal length) in Hd. rewrite length_drop in Hd. simpl in Hd. lia.
    + by apply Forall_cons in Hlt as [? _].
  - cbn [app List.map]. by rewrite He1, He2, IH.
Qed.

(** X14: the parser returns one event for every header line of the text,
    in their order, with the date and the title of that line; a blank
    text has none. So the number of events is the number of header
    lines. *)
Theorem parse_events_of_headers (text url : str) :
  List.map (λ ev, (ev_date ev, ev_title ev)) (_parse_llm_events_canonical text url)
  = (if nonempty (strip text)
     then List.map (λ hm, (strip (group 1 (m_caps hm)), strip (group 2 (m_caps hm))))
            (finditer M _HEADER_RE text)
     else [])
  ∧ (nonempty (strip text) = true →
     length (_parse_llm_events_canonical text url) = count M _HEADER_RE text).
Proof.
  assert (List.map (λ ev, (ev_date ev, ev_title ev))
            (parse_headers text url (finditer M _HEADER_RE text))
          = List.map (λ hm, (strip (group 1 (m_caps hm)), strip (group 2 (m_caps hm))))
              (finditer M _HEADER_RE text)) as Hmap.
  { destruct (finditer_header_starts text 0 0 None) as [Hf Hs].
    apply parse_headers_all; [done|]. eapply Forall_impl; [exact Hf|].
    intros hm [_ Hd]. by rewrite Nat.sub_0_r in Hd. }
  unfold _parse_llm_events_canonical.
  destruct (nonempty (strip text)); cbn [negb]; [|done].
  split; [done|]. intros _. unfold count.
  apply (f_equal length) in Hmap. by rewrite !length_map in Hmap.
Qed.

End HeaderBlocks.

(** Two blocks, two events. *)
Lemma parse_events_of_headers_witness :
  length (BuilderHelper._parse_llm_events_canonical (rt := AsciiRuntime.runtime)
            (Spec.render_block Blocks.court_order ++ [PyStr.NL; PyStr.NL]
             ++ Blocks.lower_case_labels)
            (PyStr.lit "https://example.org/entity"))
  = 2%nat.
Proof.
  destruct (parse_events_of_headers (rt := AsciiRuntime.runtime)
              ltac:(intros c Hc; discriminate Hc)
              (Spec.render_block Blocks.court_order ++ [PyStr.NL; PyStr.NL]
               ++ Blocks.lower_case_labels)
              (PyStr.lit "https://example.org/entity")) as [_ H].
  rewrite H; reflexivity.
Defined.

(** ** The block parser of the docket builder *)

Section DocketBlocks.
Context {rt : PyRuntime}.
Import PyStr PyRe DocketParser Spec.

Lemma group_step_blocks (lines : list str) (blocks : list (list str)) (cur : list str) :
  Forall (λ b, b ≠ []) blocks →
  let '(blocks', cur') := foldl group_step (blocks, cur) lines in
  Forall (λ b, b ≠ []) blocks'
  ∧ (length blocks' + (if truthy_lines cur' then 1 else 0)
     = length blocks + (if truthy_lines cur then 1 else 0)
       + length (List.filter is_header lines))%nat.
Proof.
  revert blocks cur. induction lines as [|ln lines IH]; intros blocks cur Hb.
  - simpl. split; [done|lia].
  - cbn [foldl List.filter]. unfold group_step at 2.
    destruct (is_header ln).
    + destruct cur as [|c0 cur]; cbn [truthy_lines].
      * specialize (IH blocks [ln] Hb). destruct (foldl _ _ lines) as [b' c'].
        destruct IH as [? IH]. split; [done|]. cbn [truthy_lines length] in *. lia.
      * specialize (IH (blocks ++ [c0 :: cur]) [ln]).
        destruct (foldl _ _ lines) as [b' c'].
        destruct IH as [? IH]; [apply Forall_app; split; [done|by constructor]|].
        split; [done|]. rewrite length_app in IH. cbn [truthy_lines length] in *. lia.
    + destruct cur as [|c0 cur]; cbn [truthy_lines].
      * specialize (IH blocks [] Hb). destruct (foldl _ _ lines) as [b' c'].
        destruct IH as [? IH]. split; [done|]. cbn [truthy_lines] in IH. lia.
      * specialize (IH blocks ((c0 :: cur) ++ [ln]) Hb).
        destruct (foldl _ _ lines) as [b' c'].
        destruct IH as [? IH]. split; [done|]. cbn [truthy_lines app] in IH. lia.
Qed.

Lemma group_blocks_spec (lines : list str) :
  Forall (λ b, b ≠ []) (group_blocks lines)
  ∧ length (group_blocks lines) = length (List.filter is_header lines).
Proof.
  unfold group_blocks. pose proof (group_step_blocks lines [] []) as H.
  destruct (foldl group_step ([], []) lines) as [blocks cur].
  destruct H as [Hb Hl]; [constructor|]. cbn [truthy_lines length] in Hl.
  destruct cur as [|c0 cur]; cbn [truthy_lines] in *.
  - split; [done|lia].
  - split; [apply Forall_app; split; [done|by constructor]|].
    rewrite length_app. cbn [length]. lia.
Qed.

Lemma events_of_blocks_total (blocks : list (list str)) (url : str) :
  Forall (λ b, b ≠ []) blocks →
  ∃ evs, events_of_blocks blocks url = Ok evs ∧ length evs = length blocks.
Proof.
  induction 1 as [|b blocks Hb _ (evs & IH & Hl)]; [by exists []|].
  cbn [events_of_blocks]. destruct b as [|header rest]; [done|].
  unfold event_of_block.
  destruct (match re_match NOFLAGS _HDR_RE header with
            | Some ma => _
            | None => _
            end) as [d t].
  cbn [mbind result_bind]. rewrite IH. cbn [mbind result_bind].
  eexists. split; [reflexivity|]. cbn [length]. by rewrite Hl.
Qed.

(** X15: the block parser of the docket builder never raises, and it
    returns one event for every line of the text that is a header line
    (a date, an em dash and a title); without such a line it returns no
    event. *)
Theorem docket_parse_total (text url : str) :
  ∃ evs, _parse_llm_events_canonical text url = Ok evs
         ∧ length evs
           = length (List.filter is_header (List.map rstrip (splitlines text))).
Proof.
  unfold _parse_llm_events_canonical.
  destruct (group_blocks_spec (List.map rstrip (splitlines text))) as [Hb Hl].
  destruct (events_of_blocks_total _ url Hb) as (evs & He & Hle).
  exists evs. split; [done|]. by rewrite Hle.
Qed.

End DocketBlocks.

(** ** The two parsers on a canonical block *)

Section MatcherNaturality.
Import PyStr PyRe.

Lemma star_m_map (φ : str * caps → str * caps) (p : char → bool) (k1 k2 : kont) :
  (∀ prev x cs, k2 prev x cs = φ <$> k1 prev x cs) →
  ∀ prev x cs, star_m p k2 prev x cs = φ <$> star_m p k1 prev x cs.
Proof.
  intros Hk prev x. revert prev. induction x as [|c x IH]; intros prev cs.
  - apply Hk.
  - cbn [star_m]. destruct (p c); [|apply Hk]. rewrite IH.
    destruct (star_m p k1 (Some c) x cs); [done|]. apply Hk.
Qed.

(** What the matcher returns follows what its continuation returns. *)
Lemma m_map (f : flags) (φ : str * caps → str * caps) (r : re) (k1 k2 : kont) :
  (∀ prev x cs, k2 prev x cs = φ <$> k1 prev x cs) →
  ∀ prev x cs, m f r k2 prev x cs = φ <$> m f r k1 prev x cs.
Proof.
  revert k1 k2. induction r as [|p|r1 IH1 r2 IH2|r1 IH1|p| | |n r1 IH1];
    intros k1 k2 Hk prev x cs; cbn [m].
  - apply Hk.
  - destruct x as [|c x]; [done|]. destruct (p c); [apply Hk|done].
  - apply IH1. intros. by apply IH2.
  - rewrite (IH1 k1 k2 Hk). destruct (m f r1 k1 prev x cs); [done|]. apply Hk.
  - by apply star_m_map.
  - destruct (at_bol f prev); [apply Hk|done].
  - destruct (at_eol f x); [apply Hk|done].
  - apply IH1. intros. apply Hk.
Qed.

End MatcherNaturality.

Section DocketRoundTrip.
Context {rt : PyRuntime}.
Import PyStr PyRe DocketParser Spec.

Lemma url_ex_at prev (x : str) :
  m NOFLAGS _URL_EX accept prev x []
  = match url_token_at x with
    | Some tok => Some (drop (length tok) x, [])
    | None => None
    end.
Proof.
  pose proof (url_re_at prev x) as H. unfold BuilderHelper.URL_RE in H.
  cbn [m] in H.
  rewrite (m_map NOFLAGS
             (λ res, (res.1, (1%nat, take (length x - length res.1) x) :: res.2))
             _ accept) in H by done.
  fold _URL_EX in H.
  destruct (m NOFLAGS _URL_EX accept prev x []) as [[rest cs]|];
    destruct (url_token_at x) as [tok|]; try done.
  simpl in H. injection H as -> H. by destruct cs.
Qed.

Lemma url_token_prefix (x tok : str) :
  url_token_at x = Some tok → ∃ rest, x = tok ++ rest.
Proof.
  unfold url_token_at.
  destruct (if startswith (lit "https://") x then Some 8%nat
            else if startswith (lit "http://") x then Some 7%nat else None) as [n|];
    [|done].
  destruct (nonempty _); [|done]. intros [= <-].
  exists (drop_while not_space (drop n x)).
  by rewrite <- app_assoc, take_drop_while, take_drop.
Qed.

Lemma url_ex_search_go (pre x : str) prev :
  match head (finditer_go NOFLAGS _URL_EX (length pre) 0 prev x) with
  | Some u => group0 (pre ++ x) u
  | None => []
  end = default [] (first_url_token x).
Proof.
  revert pre prev. induction x as [|c x IH]; intros pre prev.
  - rewrite search_go_step, url_ex_at. reflexivity.
  - rewrite search_go_step, url_ex_at. cbn [first_url_token].
    destruct (url_token_at (c :: x)) as [tok|] eqn:E.
    + destruct (url_token_prefix _ _ E) as (rest & Hx). rewrite Hx.
      rewrite drop_app_length. unfold group0, slice. cbn [m_start m_end].
      rewrite drop_app_length, length_app.
      replace (length pre + (length tok + length rest - length rest) - length pre)%nat
        with (length tok) by lia.
      by rewrite take_app_length.
    + specialize (IH (pre ++ [c]) (Some c)).
      rewrite length_app, <- app_assoc in IH. cbn [length app] in IH.
      by rewrite Nat.add_1_r in IH.
Qed.

Lemma url_ex_search (x : str) :
  match search NOFLAGS _URL_EX x with
  | Some u => group0 x u
  | None => []
  end = default [] (first_url_token x).
Proof. apply (url_ex_search_go [] x None). Qed.

Lemma iso_date_any (f : flags) (d : str) (k : kont) prev (x : str) cs :
  iso_shape d = true →
  m f Extractor.ISO_DATE k prev (d ++ x) cs = k (prev_after prev d) x cs.
Proof.
  intros (y1 & y2 & y3 & y4 & m1 & m2 & d1 & d2 & -> & Hd)%iso_shape_inv.
  repeat match goal with
         | H : Forall _ (_ :: _) |- _ => apply Forall_cons in H as [?%digit_is_digit H]
         end.
  unfold Extractor.ISO_DATE. cbn [app].
  repeat (rewrite m_seqs_cons, m_Chr_cons by done). cbn [seqs].
  by rewrite m_Chr_cons by done.
Qed.

Lemma m_Grp_star (f : flags) (n : nat) (p : char → bool) (k : kont) prev
    (run rest : str) cs r :
  forallb p run = true →
  match rest with [] => True | c :: _ => p c = false end →
  k (prev_after prev run) rest ((n, run) :: cs) = Some r →
  m f (Grp n (Star p)) k prev (run ++ rest) cs = Some r.
Proof.
  intros Hrun Hrest Hk. cbn [m]. apply star_m_run; [done| |done].
  by rewrite take_consumed.
Qed.

Lemma m_Grp_star_end (f : flags) (n : nat) (p : char → bool) (k : kont) prev
    (run : str) cs r :
  forallb p run = true →
  k (prev_after prev run) [] ((n, run) :: cs) = Some r →
  m f (Grp n (Star p)) k prev run cs = Some r.
Proof.
  intros Hrun Hk. rewrite <- (app_nil_r run) at 1. by apply m_Grp_star.
Qed.

Lemma m_Grp_plus_end (f : flags) (n : nat) (p : char → bool) (k : kont) prev
    (run : str) cs r :
  run ≠ [] → forallb p run = true →
  k (prev_after prev run) [] ((n, run) :: cs) = Some r →
  m f (Grp n (Plus p)) k prev run cs = Some r.
Proof.
  intros Hne Hrun Hk. rewrite <- (app_nil_r run) at 1. by apply m_Grp_plus.
Qed.

(** The header pattern of the builder reads the header line. *)
Lemma hdr_at (v : block_values) :
  well_formed v →
  m NOFLAGS _HDR_RE accept None (header_line v) []
  = Some ([], [(2%nat, v_title v); (1%nat, v_date v)]).
Proof.
  intros (Hd & [Ht Hl] & Hne & _). unfold header_line, _HDR_RE.
  rewrite m_seqs_cons, m_Bol_start.
  rewrite m_seqs_cons. cbn [m]. rewrite iso_date_any by done. rewrite take_consumed.
  destruct (v_title v) as [|c t] eqn:Et; [done|].
  pose proof (trimmed_head _ _ Ht) as Hc.
  change ([EM_DASH] ++ lit " " ++ c :: t) with (EM_DASH :: lit " " ++ c :: t).
  rewrite m_seqs_cons.
  rewrite (m_Plus_run NOFLAGS is_space _ _ (lit " ") _ _
             ([], [(2%nat, c :: t); (1%nat, v_date v)])); [done|done|done|by cbn|].
  rewrite m_seqs_cons, m_Chr_cons by done.
  rewrite m_seqs_cons.
  rewrite (m_Plus_run NOFLAGS is_space _ _ (lit " ") _ _
             ([], [(2%nat, c :: t); (1%nat, v_date v)])); [done|done|done|by cbn|].
  rewrite m_seqs_cons. apply m_Grp_star_end; [by apply single_line_dot|].
  reflexivity.
Qed.

Lemma hdr_none (c : char) (y : str) :
  is_digit c = false → re_match NOFLAGS _HDR_RE (c :: y) = None.
Proof.
  intros Hc. unfold re_match, _HDR_RE. rewrite m_seqs_cons, m_Bol_start.
  rewrite m_seqs_cons. unfold Extractor.ISO_DATE. cbn [m]. rewrite m_seqs_cons.
  cbn [m]. by rewrite Hc.
Qed.

(** A labelled line with its value behind one space, or the bare label when
    the value is empty. *)
Lemma field_at (lab : string) (s : str) :
  clean s →
  (λ ma, m_caps ma) <$>
    re_match I (field_re lab) (lit lab ++ match s with [] => [] | _ => 32%N :: s end)
  = if nonempty s then Some [(1%nat, s)] else None.
Proof.
  intros [Ht Hs]. unfold re_match, field_re.
  rewrite m_seqs_cons, m_Bol_start, m_seqs_cons, m_Str_self, m_seqs_cons.
  destruct s as [|c s].
  - cbn [m star_m]. rewrite m_seqs_cons. reflexivity.
  - pose proof (trimmed_head _ _ Ht) as Hc. cbn [m nonempty].
    rewrite (star_m_run is_space _ _ [32%N] (c :: s) _ ([], [(1%nat, c :: s)]));
      [done|done| |done].
    rewrite m_seqs_cons. apply m_Grp_plus_end; [done|by apply single_line_dot|].
    reflexivity.
Qed.

Lemma is_header_not (c : char) (y : str) :
  is_digit c = false → is_header (c :: y) = false.
Proof. intros Hc. unfold is_header. by rewrite hdr_none. Qed.

Lemma field_line_nonblank (c : char) (y : str) :
  is_space c = false → negb (nonempty (strip (c :: y))) = false.
Proof. intros Hc. by rewrite strip_head_nonempty. Qed.

Lemma step_summary (acc : fields) (s : str) :
  clean s →
  field_step acc (lit "Summary:" ++ match s with [] => [] | _ => 32%N :: s end)
  = if nonempty s then
      {| f_summary := s; f_src_line := f_src_line acc; f_url := f_url acc;
         f_cat := f_cat acc; f_why := f_why acc;
         f_attacks_line := f_attacks_line acc |}
    else acc.
Proof.
  intros Hs. pose proof (field_at "Summary:" s Hs) as Hf. unfold field_step.
  change (lit "Summary:" ++ ?y) with (83%N :: (lit "ummary:" ++ y)) at 1.
  rewrite field_line_nonblank by done. fold _SUM_RE in Hf.
  destruct (re_match I _SUM_RE _) as [ma|]; destruct s as [|c s]; try done.
  - simpl in Hf. injection Hf as ->. cbn [group Nat.eqb nonempty].
    by rewrite strip_trimmed by apply Hs.
Qed.

Lemma step_source (acc : fields) (s : str) :
  clean s →
  field_step acc (lit "Source:" ++ match s with [] => [] | _ => 32%N :: s end)
  = if nonempty s then
      {| f_summary := f_summary acc; f_src_line := s;
         f_url := default [] (first_url_token s);
         f_cat := f_cat acc; f_why := f_why acc;
         f_attacks_line := f_attacks_line acc |}
    else acc.
Proof.
  intros Hs. pose proof (field_at "Source:" s Hs) as Hf. unfold field_step.
  change (lit "Source:" ++ ?y) with (83%N :: (lit "ource:" ++ y)) at 1.
  rewrite field_line_nonblank by done. fold _SRC_RE in Hf.
  change (re_match I _SUM_RE (lit "Source:" ++ ?y)) with (@None rmatch).
  destruct (re_match I _SRC_RE _) as [ma|]; destruct s as [|c s]; try done.
  - simpl in Hf. injection Hf as ->. cbn [group Nat.eqb nonempty]. cbv zeta.
    rewrite strip_trimmed by apply Hs. by rewrite url_ex_search.
Qed.

Lemma step_category (acc : fields) (s : str) :
  clean s →
  field_step acc (lit "Category:" ++ match s with [] => [] | _ => 32%N :: s end)
  = if nonempty s then
      {| f_summary := f_summary acc; f_src_line := f_src_line acc;
         f_url := f_url acc; f_cat := s; f_why := f_why acc;
         f_attacks_line := f_attacks_line acc |}
    else acc.
Proof.
  intros Hs. pose proof (field_at "Category:" s Hs) as Hf. unfold field_step.
  change (lit "Category:" ++ ?y) with (67%N :: (lit "ategory:" ++ y)) at 1.
  rewrite field_line_nonblank by done. fold _CAT_RE in Hf.
  change (re_match I _SUM_RE (lit "Category:" ++ ?y)) with (@None rmatch).
  change (re_match I _SRC_RE (lit "Category:" ++ ?y)) with (@None rmatch).
  destruct (re_match I _CAT_RE _) as [ma|]; destruct s as [|c s]; try done.
  - simpl in Hf. injection Hf as ->. cbn [group Nat.eqb nonempty].
    by rewrite strip_trimmed by apply Hs.
Qed.

Lemma step_why (acc : fields) (s : str) :
  clean s →
  field_step acc (lit "Why Relevant:" ++ match s with [] => [] | _ => 32%N :: s end)
  = if nonempty s then
      {| f_summary := f_summary acc; f_src_line := f_src_line acc;
         f_url := f_url acc; f_cat := f_cat acc; f_why := s;
         f_attacks_line := f_attacks_line acc |}
    else acc.
Proof.
  intros Hs. pose proof (field_at "Why Relevant:" s Hs) as Hf. unfold field_step.
  change (lit "Why Relevant:" ++ ?y) with (87%N :: (lit "hy Relevant:" ++ y)) at 1.
  rewrite field_line_nonblank by done. fold _WHY_RE in Hf.
  change (re_match I _SUM_RE (lit "Why Relevant:" ++ ?y)) with (@None rmatch).
  change (re_match I _SRC_RE (lit "Why Relevant:" ++ ?y)) with (@None rmatch).
  change (re_match I _CAT_RE (lit "Why Relevant:" ++ ?y)) with (@None rmatch).
  destruct (re_match I _WHY_RE _) as [ma|]; destruct s as [|c s]; try done.
  - simpl in Hf. injection Hf as ->. cbn [group Nat.eqb nonempty].
    by rewrite strip_trimmed by apply Hs.
Qed.

Lemma step_attacks (acc : fields) (val : str) :
  val ≠ [] → forallb dot val = true → trimmed val →
  field_step acc (lit "attacks: " ++ val)
  = {| f_summary := f_summary acc; f_src_line := f_src_line acc;
       f_url := f_url acc; f_cat := f_cat acc; f_why := f_why acc;
       f_attacks_line := val |}.
Proof.
  intros Hne Hdot Ht. unfold field_step.
  change (lit "attacks: " ++ ?y) with (97%N :: (lit "ttacks: " ++ y)) at 1.
  rewrite field_line_nonblank by done.
  change (re_match I _SUM_RE (lit "attacks: " ++ ?y)) with (@None rmatch).
  change (re_match I _SRC_RE (lit "attacks: " ++ ?y)) with (@None rmatch).
  change (re_match I _CAT_RE (lit "attacks: " ++ ?y)) with (@None rmatch).
  change (re_match I _WHY_RE (lit "attacks: " ++ ?y)) with (@None rmatch).
  unfold re_match. change _ATK_RE with BuilderHelper._ATK_RE.
  rewrite atk_at; [|done|done|by destruct val as [|c val]; [|apply Ht]].
  cbn [m_caps group Nat.eqb]. by rewrite strip_trimmed.
Qed.

Lemma docket_lines_render (v : block_values) :
  well_formed v →
  List.map rstrip (splitlines (render_block v))
  = [ header_line v;
      lit "Summary:" ++ match v_summary v with [] => [] | _ => 32%N :: v_summary v end;
      lit "Source:" ++ match v_source v with [] => [] | _ => 32%N :: v_source v end;
      lit "Category:" ++ match v_category v with [] => [] | _ => 32%N :: v_category v end;
      lit "Why Relevant:" ++ match v_why v with [] => [] | _ => 32%N :: v_why v end;
      lit "attacks: " ++ 91%N :: join (lit ", ") (v_attacks v) ++ [93%N] ].
Proof.
  intros Hwf. pose proof (block_lines_render v Hwf) as Hb. cbv zeta in Hb.
  unfold BuilderHelper.block_lines in Hb. rewrite filter_nonblank in Hb.
  - rewrite Hb. f_equal.
    destruct Hwf as (_ & [Htr _] & Hne & _).
    destruct (v_title v) as [|c0 ttl] eqn:Et; [done|].
    destruct Htr as [_ (x' & d & Hx & Hd)].
    unfold header_line. rewrite Et, Hx.
    replace (v_date v ++ lit " " ++ [EM_DASH] ++ lit " " ++ x' ++ [d])
      with ((v_date v ++ lit " " ++ [EM_DASH] ++ lit " " ++ x') ++ [d])
      by (by rewrite <- !app_assoc).
    by apply rstrip_snoc.
  - unfold render_block. rewrite splitlines_join.
    + apply Forall_cons_2; [by apply header_line_head|]. apply field_lines_head.
    + apply Forall_cons_2.
      * split; [by apply header_line_single|].
        by destruct (header_line_head v Hwf) as (c & x & -> & _).
      * pose proof (field_lines_single v Hwf) as Hs.
        pose proof (field_lines_head v) as Hh.
        apply Forall_forall. intros ln Hln.
        rewrite Forall_forall in Hs. rewrite Forall_forall in Hh.
        split; [by apply Hs|]. by destruct (Hh ln Hln) as (c & x & -> & _).
Qed.

(** X16: the block parser of the docket builder reads a canonical block
    as the shared parser does. For a block written from values that fit on
    one line, it returns one event with the date and the title of the
    header line, the summary, the category and the why-relevant text as
    written, the first URL of the source line (else the entity's own) and
    the normalised attack tokens: the values of [event_of_values]. *)
Theorem docket_parser_round_trip (v : block_values) (article_url : str) :
  well_formed v →
  ∃ ev, _parse_llm_events_canonical (render_block v) article_url = Ok [ev]
        ∧ source_date ev = v_date v ∧ title ev = v_title v
        ∧ summary ev = v_summary v ∧ category ev = v_category v
        ∧ why_relevant ev = v_why v
        ∧ url ev = BuilderHelper.ev_url (event_of_values v article_url)
        ∧ attacks ev = BuilderHelper.ev_attacks (event_of_values v article_url)
        ∧ tags ev = [].
Proof.
  intros Hwf. unfold _parse_llm_events_canonical.
  rewrite docket_lines_render by done.
  pose proof (hdr_at v Hwf) as Hh.
  assert (is_header (header_line v) = true) as Hih.
  { unfold is_header, re_match. rewrite Hh. by apply bool_decide_eq_true_2. }
  unfold group_blocks. cbn [foldl]. unfold group_step. rewrite Hih.
  cbn [truthy_lines].
  assert (∀ y, is_header (lit "Summary:" ++ y) = false) as H1
    by (intros y; by apply (is_header_not 83%N)).
  assert (∀ y, is_header (lit "Source:" ++ y) = false) as H2
    by (intros y; by apply (is_header_not 83%N)).
  assert (∀ y, is_header (lit "Category:" ++ y) = false) as H3
    by (intros y; by apply (is_header_not 67%N)).
  assert (∀ y, is_header (lit "Why Relevant:" ++ y) = false) as H4
    by (intros y; by apply (is_header_not 87%N)).
  assert (∀ y, is_header (lit "attacks: " ++ y) = false) as H5
    by (intros y; by apply (is_header_not 97%N)).
  rewrite H1, H2, H3, H4, H5.
  cbn [truthy_lines app events_of_blocks]. unfold event_of_block, re_match at 1.
  rewrite Hh. cbn [m_caps group Nat.eqb foldl].
  destruct Hwf as (Hd & [Ht _] & _ & Hs & Hr & Hc & Hw & Hok).
  rewrite (step_summary _ _ Hs), (step_source _ _ Hr).
  assert (∀ acc, field_step acc (lit "attacks: " ++ 91%N :: join (lit ", ") (v_attacks v)
                                    ++ [93%N])
                 = {| f_summary := f_summary acc; f_src_line := f_src_line acc;
                      f_url := f_url acc; f_cat := f_cat acc; f_why := f_why acc;
                      f_attacks_line := 91%N :: join (lit ", ") (v_attacks v) ++ [93%N] |})
    as Hatk.
  { intros acc. apply step_attacks; [done| |].
    - apply single_line_dot. apply (single_line_app [91%N]); [done|].
      apply single_line_app; [|done]. apply single_line_join; [done|].
      eapply Forall_impl; [exact Hok|]. intros ? Hk. apply Hk.
    - split; [done|]. by exists (91%N :: join (lit ", ") (v_attacks v)), 93%N. }
  rewrite (step_category _ _ Hc), (step_why _ _ Hw), Hatk.
  cbn [mbind result_bind]. eexists. split; [reflexivity|].
  cbn [source_date title summary category why_relevant url attacks tags].
  rewrite (strip_trimmed (v_date v)) by (by apply iso_shape_trimmed).
  rewrite (strip_trimmed (v_title v)) by done.
  split; [done|]. split; [done|].
  unfold event_of_values. cbn [BuilderHelper.ev_url BuilderHelper.ev_attacks].
  change (attacks_list_of ?x) with (BuilderHelper.attacks_list_of x).
  destruct (v_summary v), (v_source v) as [|c0 src], (v_category v), (v_why v);
    cbn [nonempty f_summary f_src_line f_url f_cat f_why f_attacks_line];
    rewrite attacks_list_of_tokens by done;
    (split; [done|]); (split; [done|]); (split; [done|]);
    (split; [|done]);
    unfold por, no_fields; cbn [f_url];
    first [reflexivity | by destruct (default [] (first_url_token _))].
Qed.

End DocketRoundTrip.

(** The block of one court order, read by the docket builder. *)
Lemma docket_parser_round_trip_witness :
  ∃ ev, DocketParser._parse_llm_events_canonical (rt := AsciiRuntime.runtime)
          (Spec.render_block Blocks.court_order) (PyStr.lit "https://example.org/entity")
        = Ok [ev]
        ∧ DocketParser.url ev = PyStr.lit "https://example.org/a"
        ∧ DocketParser.attacks ev = [PyStr.lit "courts"; PyStr.lit "rule_of_law"].
Proof.
  assert (Spec.well_formed Blocks.court_order) as Hwf.
  { assert (∀ x, PyStr.strip x = x → Spec.single_line x → Spec.clean x) as Hclean.
    { intros x Hx Hl. split; [by apply strip_fixed_trimmed|exact Hl]. }
    unfold Spec.well_formed.
    split; [reflexivity|]. split; [apply Hclean; reflexivity|].
    split; [discriminate|].
    do 4 (split; [apply Hclean; reflexivity|]).
    repeat (apply Forall_cons_2;
            [split; [apply Hclean; reflexivity|];
             split; [reflexivity|vm_compute; discriminate]|]).
    apply Forall_nil_2. }
  destruct (docket_parser_round_trip (rt := AsciiRuntime.runtime) Blocks.court_order
              (PyStr.lit "https://example.org/entity") Hwf)
    as (ev & Hev & _ & _ & _ & _ & _ & Hu & Ha & _).
  exists ev. split; [exact Hev|]. split; [rewrite Hu|rewrite Ha]; reflexivity.
Defined.

(** ** The docket builder without an API key *)

Section BuilderNoKey.
Context {rt : PyRuntime}.
Import PyStr PyRe Extractor Builder DocketParser.

Lemma synthetic_text_nonblank (ent : gmap string str) (start : str) :
  nonempty (strip (synthetic_text ent start)) = true.
Proof.
  destruct (strip (synthetic_text ent start)) eqn:E; [|done].
  apply strip_nil_forallb in E. unfold synthetic_text in E. cbv zeta in E.
  rewrite !forallb_app in E.
  apply andb_prop in E as [_ E]. apply andb_prop in E as [_ E].
  by apply andb_prop in E as [E _].
Qed.

Lemma extract_item_no_key (w : world) (sp start : str) (ent : gmap string str)
    (tr : trace) :
  truthy (api_key w) = false →
  extract_item w sp start ent tr
  = (Ok (lit "(Extraction error: OPENAI_API_KEY is not set.)"), tr).
Proof.
  intros Hk. unfold extract_item, try_except, extract_events_from_text.
  change (oget (Some ?x)) with x. rewrite synthetic_text_nonblank. cbn [negb].
  unfold llm_with_schema_retry, io_bind, call_openai. by rewrite Hk.
Qed.

Lemma run_items_no_key (w : world) (sp start : str) (items : list (gmap string str))
    (idxs : list nat) (tr : trace) :
  truthy (api_key w) = false →
  (∀ idx, idx ∈ idxs → (idx < length items)%nat) →
  ∃ results, run_items w sp start items idxs tr = (Ok results, tr)
             ∧ List.map r_idx results = idxs
             ∧ Forall (λ r, events_text r
                            = lit "(Extraction error: OPENAI_API_KEY is not set.)") results.
Proof.
  intros Hk. induction idxs as [|idx idxs IH]; intros Hin; cbn [run_items].
  - by exists [].
  - destruct (lookup_lt_is_Some_2 items idx) as [ent Hent];
      [apply Hin; by left|]. rewrite Hent.
    destruct IH as (results & Hr & Hi & Ht); [intros i Hi; apply Hin; by right|].
    unfold io_bind. rewrite extract_item_no_key by done. rewrite Hr.
    eexists. split; [reflexivity|]. split; [by rewrite <- Hi|].
    by apply Forall_cons_2.
Qed.

Lemma parse_error_text (article_url : str) :
  _parse_llm_events_canonical
    (strip (lit "(Extraction error: OPENAI_API_KEY is not set.)")) article_url = Ok [].
Proof. reflexivity. Qed.

Lemma collect_no_key (source : str) (results : list item_result) :
  Forall (λ r, events_text r
               = lit "(Extraction error: OPENAI_API_KEY is not set.)") results →
  collect_events source results
  = Ok ([], List.map (λ r, {| nc_idx := r_idx r; nc_url := None |}) results).
Proof.
  induction 1 as [|r results Hr _ IH]; [done|].
  cbn [collect_events]. rewrite Hr, parse_error_text, IH. reflexivity.
Qed.

(** X17: a run of the docket builder without an API key. No request is
    sent; every selected item gets the reply text [(Extraction error:
    OPENAI_API_KEY is not set.)], which has no header line, so the run ends
    without an exception, with no events and with every selected item in
    [noncompliant] (without its URL). *)
Theorem run_builder_without_key (w : world) (source sp start : str)
    (items : list (gmap string str)) (ids : list Z) (limit : option nat) (tr : trace) :
  truthy (api_key w) = false →
  run_builder w source sp start items ids limit tr
  = (Ok ([], List.map (λ idx, {| nc_idx := idx; nc_url := None |})
               (select_indices (length items) ids limit)), tr).
Proof.
  intros Hk. unfold run_builder, run_builder_loop, io_bind.
  destruct (run_items_no_key w sp start items
              (select_indices (length items) ids limit) tr Hk) as (results & -> & Hi & Ht).
  { intros idx. apply select_indices_in_range. }
  rewrite (collect_no_key _ _ Ht). rewrite <- Hi, List.map_map. reflexivity.
Qed.

End BuilderNoKey.

(** One entity, no key: no event, the entity noncompliant. *)
Lemma run_builder_without_key_witness :
  DocketParser.run_builder (rt := AsciiRuntime.runtime) MoreWorlds.no_key
    (PyStr.lit "democracydocket") (PyStr.lit "Extract events.") (PyStr.lit "2025-01-20")
    [Worlds.one_entity] [] None []
  = (Ok ([], [ {| DocketParser.nc_idx := 0; DocketParser.nc_url := None |} ]), []).
Proof.
  rewrite (run_builder_without_key (rt := AsciiRuntime.runtime) MoreWorlds.no_key);
    reflexivity.
Defined.
